(** * Order-fulfilment saga: intake, identity issuance and minting

    A shallow embedding of the checkout-to-minting flow:
    - [webhooks.app.orders-create.ts]   (event intake, [Intake.action]),
    - [digital-id.service]              ([DigitalIdService]),
    - [token-minting.service.ts]        ([TokenMinting]),
    - [orderProcessor.worker.ts], step 6 ([Worker]).

    Asynchronous code is sequential here (every [await] is a plain call);
    the relational store is an explicit value threaded through the calls,
    exceptions are values of type [Thrown] returned on the left of a sum,
    and the outside world (environment variables, the thirdweb chain
    client, the dynamic import) is a record of oracles. *)

From Stdlib Require Import ZArith Lia Ascii String List.
From stdpp Require Import base strings pretty list.
Import ListNotations.

Local Open Scope string_scope.
Local Open Scope Z_scope.
Local Open Scope list_scope.

(** ** JavaScript values and operators used by the code *)

Module JS.

(** A value caught by [catch]: an [Error] object with its message, or
    any other thrown value with the text [String(v)] gives for it. *)
Inductive Thrown :=
| ErrorObj (message : string)
| NonError (text : string).

(** Truthiness of a [string | null | undefined]. *)
Definition truthy (v : option string) : bool :=
  match v with
  | Some s => negb (String.eqb s "")
  | None => false
  end.

(** [a || b] *)
Definition or (a b : option string) : option string :=
  if truthy a then a else b.

(** [a ?? b] *)
Definition nullish (a b : option string) : option string :=
  match a with
  | Some _ => a
  | None => b
  end.

(** Truthiness of a [bigint | null | undefined]: [0n] is falsy. *)
Definition truthyBig (v : option Z) : bool :=
  match v with
  | Some n => negb (n =? 0)
  | None => false
  end.

(** [err instanceof Error ? err.message : String(err)], with
    [undefined] for a variable never assigned. *)
Definition messageOf (e : option Thrown) : string :=
  match e with
  | Some (ErrorObj m) => m
  | Some (NonError t) => t
  | None => "undefined"
  end.

(** [error?.message || String(error)]: [String] of an [Error] whose
    message is empty is ["Error"]. *)
Definition messageOrString (e : Thrown) : string :=
  match e with
  | ErrorObj m => if String.eqb m "" then "Error" else m
  | NonError t => t
  end.

(** White space removed by [String.prototype.trim], on one-byte characters. *)
Definition isSpace (c : ascii) : bool :=
  let n := nat_of_ascii c in
  ((9 <=? n) && (n <=? 13))%nat || (n =? 32)%nat || (n =? 160)%nat.

Fixpoint dropSpaces (l : list ascii) : list ascii :=
  match l with
  | c :: r => if isSpace c then dropSpaces r else l
  | [] => []
  end.

Definition trim (s : string) : string :=
  string_of_list_ascii
    (rev (dropSpaces (rev (dropSpaces (list_ascii_of_string s))))).

Definition isHexDigit (c : ascii) : bool :=
  let n := nat_of_ascii c in
  ((48 <=? n) && (n <=? 57) || (65 <=? n) && (n <=? 70)
   || (97 <=? n) && (n <=? 102))%nat.

(** [/^[0-9a-fA-F]{64}$/.test(s)] *)
Definition isHex64 (s : string) : bool :=
  (String.length s =? 64)%nat && forallb isHexDigit (list_ascii_of_string s).

(** [s.startsWith('0x') ? s.substring(2) : s] *)
Definition strip0x (s : string) : string :=
  match s with
  | String "0" (String "x" r) => r
  | _ => s
  end.

(** [s.replace(/\/$/, "")] *)
Fixpoint dropTrailingSlash (s : string) : string :=
  match s with
  | EmptyString => EmptyString
  | String c EmptyString => if Ascii.eqb c "/" then EmptyString else s
  | String c r => String c (dropTrailingSlash r)
  end.

(** [toLowerCase] on one-byte characters. *)
Definition lowerChar (c : ascii) : ascii :=
  let n := nat_of_ascii c in
  if ((65 <=? n) && (n <=? 90))%nat then ascii_of_nat (n + 32) else c.

Fixpoint mapString (f : ascii -> ascii) (s : string) : string :=
  match s with
  | EmptyString => EmptyString
  | String c r => String (f c) (mapString f r)
  end.

Definition toLowerCase : string -> string := mapString lowerChar.

(** [s.replace(/_/g, '/')] *)
Definition underscoresToSlashes : string -> string :=
  mapString (fun c => if Ascii.eqb c "_" then "/"%char else c).

End JS.
Export JS.

(** ** The relational store (Prisma models used by the four files) *)

Inductive UdiStatus := CREATED | MINT_PENDING | MINTED | MINT_FAILED.

Inductive OrderStatus :=
| PROCESSING | PENDING_WALLET | WALLET_PROVISIONED
| FAILED_WALLET_PROVISIONING | FAILED_NO_PHONE_FOR_WALLET
| COMPLETED | PARTIALLY_COMPLETED | FAILED_UDI_CREATION
| FAILED_UDI_CREATION_ERROR | FAILED_PREREQUISITES_FOR_UDI.

Record CoreProductVariant := {
  cpv_id : string;
  cpv_shopifyVariantGid : string;
  cpv_myshopify_domain : string;
  cpv_brand_3fa_id : option string;
  cpv_defaultSmartContractAddress : option string
}.

Record UniqueDigitalId := {
  udi_id : string;
  udi_coreProductVariantId : string;
  udi_myshopify_domain : string;
  udi_brand_3fa_id : option string;
  udi_shopifyOrderId : string;
  udi_shopifyLineItemId : string;
  udi_owner3faId : string;
  udi_orders3faId : string;
  udi_privyWalletAddress : option string;
  udi_privyDid : option string;
  udi_status : UdiStatus;
  udi_contractAddress : option string;
  udi_blockchain : option string;
  udi_transactionHash : option string;
  udi_mintedAt : option Z
}.

(** The columns written by [create]; [id] is assigned by the store. *)
Record UdiCreateData := {
  ucd_coreProductVariantId : string;
  ucd_myshopify_domain : string;
  ucd_brand_3fa_id : option string;
  ucd_shopifyOrderId : string;
  ucd_shopifyLineItemId : string;
  ucd_owner3faId : string;
  ucd_orders3faId : string;
  ucd_privyWalletAddress : option string;
  ucd_privyDid : option string;
  ucd_status : UdiStatus;
  ucd_contractAddress : option string
}.

Record ShopifyLineItem := {
  li_id : string;
  li_orderId : string;
  li_shopifyId : Z;
  li_variantId : option Z;
  li_quantity : Z
}.

Record Orders3fa := {
  o3_id : string;
  o3_user3faId : string;
  o3_shopifyOrderId : string;
  o3_status : OrderStatus;
  o3_totalItems : Z;
  o3_smsNotificationSentAt : option Z
}.

(** The order payload, as far as intake reads it.  [id] is a JavaScript
    number when [typeof payload.id === 'number'].  [IdNumber n] is the
    number that holds the integer [n]: the model covers the safe
    integers (magnitude below 2^53), which a number holds exactly and a
    template string prints in plain decimal, as [pretty] does.  Numbers
    outside that range and numbers with a fraction print differently in
    the job id, the job name and the generated dedup key, and are not
    covered. *)
Inductive PayloadId := IdNumber (n : Z) | IdNotANumber.

Record PayloadAddress := { addr_phone : option string }.
Record PayloadCustomer := { cust_phone : option string }.

Record PayloadOrder := {
  po_id : PayloadId;
  po_phone : option string;
  po_shipping_address : option PayloadAddress;
  po_billing_address : option PayloadAddress;
  po_customer : option PayloadCustomer
}.

Record WebhookEvent := {
  we_id : string;
  we_shopId : string;
  we_topic : string;
  we_payload : PayloadOrder;
  we_processed : bool;
  we_eventId : string;
  we_processedAt : option Z;
  we_lastError : option string;
  we_errorCount : Z
}.

Record Db := {
  uniqueDigitalIds : list UniqueDigitalId;
  udiSerial : nat;
  coreProductVariants : list CoreProductVariant;
  shopifyLineItems : list ShopifyLineItem;
  orders3fas : list Orders3fa;
  webhookEvents : list WebhookEvent;
  webhookSerial : nat
}.

Module Prisma.

Definition setUniqueDigitalIds (d : Db) (rows : list UniqueDigitalId) (serial : nat) : Db :=
  {| uniqueDigitalIds := rows; udiSerial := serial;
     coreProductVariants := coreProductVariants d;
     shopifyLineItems := shopifyLineItems d;
     orders3fas := orders3fas d;
     webhookEvents := webhookEvents d;
     webhookSerial := webhookSerial d |}.

Definition setOrders3fas (d : Db) (rows : list Orders3fa) : Db :=
  {| uniqueDigitalIds := uniqueDigitalIds d; udiSerial := udiSerial d;
     coreProductVariants := coreProductVariants d;
     shopifyLineItems := shopifyLineItems d;
     orders3fas := rows;
     webhookEvents := webhookEvents d;
     webhookSerial := webhookSerial d |}.

Definition setWebhookEvents (d : Db) (rows : list WebhookEvent) (serial : nat) : Db :=
  {| uniqueDigitalIds := uniqueDigitalIds d; udiSerial := udiSerial d;
     coreProductVariants := coreProductVariants d;
     shopifyLineItems := shopifyLineItems d;
     orders3fas := orders3fas d;
     webhookEvents := rows;
     webhookSerial := serial |}.

(** Modelled from the spec: the Prisma schema is not among the sources.
    Primary keys are generated by the store; the n-th row inserted in a
    table gets the key built from the table's serial number, so keys of
    one table are pairwise distinct. *)
Definition udiKey (n : nat) : string := "udi_" +:+ pretty n.
Definition webhookKey (n : nat) : string := "whe_" +:+ pretty n.

(** [prisma.uniqueDigitalId.findUnique({ where: { id } })] *)
Definition uniqueDigitalId_findUnique (id : string) (d : Db) : option UniqueDigitalId :=
  find (fun r => String.eqb (udi_id r) id) (uniqueDigitalIds d).

(** [prisma.uniqueDigitalId.findUnique({ where: { shopifyLineItemId } })] *)
Definition uniqueDigitalId_findByLineItem (key : string) (d : Db) : option UniqueDigitalId :=
  find (fun r => String.eqb (udi_shopifyLineItemId r) key) (uniqueDigitalIds d).

Definition newUdi (id : string) (c : UdiCreateData) : UniqueDigitalId :=
  {| udi_id := id;
     udi_coreProductVariantId := ucd_coreProductVariantId c;
     udi_myshopify_domain := ucd_myshopify_domain c;
     udi_brand_3fa_id := ucd_brand_3fa_id c;
     udi_shopifyOrderId := ucd_shopifyOrderId c;
     udi_shopifyLineItemId := ucd_shopifyLineItemId c;
     udi_owner3faId := ucd_owner3faId c;
     udi_orders3faId := ucd_orders3faId c;
     udi_privyWalletAddress := ucd_privyWalletAddress c;
     udi_privyDid := ucd_privyDid c;
     udi_status := ucd_status c;
     udi_contractAddress := ucd_contractAddress c;
     udi_blockchain := None;
     udi_transactionHash := None;
     udi_mintedAt := None |}.

(** [prisma.uniqueDigitalId.create({ data })].

    Modelled from the spec: the schema is not among the sources.  The
    spec's uniqueness invariant (at most one DigitalIdentity per
    external line-item id and unit index) is the unique column
    [shopifyLineItemId], the one [createDigitalIdForOrderItem] passes
    to [findUnique]; inserting a second row with the same value is
    rejected with an error. *)
Definition uniqueDigitalId_create (c : UdiCreateData) (d : Db)
  : Thrown + (UniqueDigitalId * Db) :=
  match uniqueDigitalId_findByLineItem (ucd_shopifyLineItemId c) d with
  | Some _ =>
      inl (ErrorObj "Unique constraint failed on the fields: (`shopifyLineItemId`)")
  | None =>
      let row := newUdi (udiKey (udiSerial d)) c in
      inr (row, setUniqueDigitalIds d (uniqueDigitalIds d ++ [row]) (S (udiSerial d)))
  end.

(** [prisma.uniqueDigitalId.update({ where: { id }, data })]: the rows
    with this id are rewritten by [patch]; a missing row is an error. *)
Definition uniqueDigitalId_update (id : string)
    (patch : UniqueDigitalId -> UniqueDigitalId) (d : Db) : Thrown + Db :=
  match uniqueDigitalId_findUnique id d with
  | None => inl (ErrorObj "Record to update not found.")
  | Some _ =>
      inr (setUniqueDigitalIds d
             (map (fun r => if String.eqb (udi_id r) id then patch r else r)
                  (uniqueDigitalIds d))
             (udiSerial d))
  end.

(** [prisma.coreProductVariant.findFirst({ where: { shopifyVariantGid, myshopify_domain } })] *)
Definition coreProductVariant_findFirst (gid shop : string) (d : Db)
  : option CoreProductVariant :=
  find (fun v => String.eqb (cpv_shopifyVariantGid v) gid
                 && String.eqb (cpv_myshopify_domain v) shop)
       (coreProductVariants d).

(** The [coreProductVariant] relation loaded by [include]. *)
Definition coreProductVariant_findUnique (id : string) (d : Db)
  : option CoreProductVariant :=
  find (fun v => String.eqb (cpv_id v) id) (coreProductVariants d).

(** [prisma.shopifyLineItem.findMany({ where: { orderId } })] *)
Definition shopifyLineItem_findMany (orderId : string) (d : Db) : list ShopifyLineItem :=
  List.filter (fun l => String.eqb (li_orderId l) orderId) (shopifyLineItems d).

(** [prisma.orders3fa.update({ where: { id }, data: { status } })] *)
Definition orders3fa_updateStatus (id : string) (s : OrderStatus) (d : Db) : Thrown + Db :=
  match find (fun o => String.eqb (o3_id o) id) (orders3fas d) with
  | None => inl (ErrorObj "Record to update not found.")
  | Some _ =>
      inr (setOrders3fas d
             (map (fun o => if String.eqb (o3_id o) id
                            then {| o3_id := o3_id o; o3_user3faId := o3_user3faId o;
                                    o3_shopifyOrderId := o3_shopifyOrderId o;
                                    o3_status := s;
                                    o3_totalItems := o3_totalItems o;
                                    o3_smsNotificationSentAt := o3_smsNotificationSentAt o |}
                            else o)
                  (orders3fas d)))
  end.

Definition orders3fa_find (id : string) (d : Db) : option Orders3fa :=
  find (fun o => String.eqb (o3_id o) id) (orders3fas d).

Definition webhookEvent_findByEventId (eventId : string) (d : Db) : option WebhookEvent :=
  find (fun e => String.eqb (we_eventId e) eventId) (webhookEvents d).

(** [prisma.webhookEvent.create({ data })].

    Modelled from the spec: the schema is not among the sources; the
    spec makes the dedup key ([eventId]) a unique insert key, so a
    second insert with the same [eventId] is rejected with an error.
    [errorCount] starts at 0 and the optional columns are empty. *)
Definition webhookEvent_create (shop topic : string) (payload : PayloadOrder)
    (processed : bool) (eventId : string) (d : Db) : Thrown + (WebhookEvent * Db) :=
  match webhookEvent_findByEventId eventId d with
  | Some _ => inl (ErrorObj "Unique constraint failed on the fields: (`eventId`)")
  | None =>
      let row := {| we_id := webhookKey (webhookSerial d); we_shopId := shop;
                    we_topic := topic; we_payload := payload;
                    we_processed := processed; we_eventId := eventId;
                    we_processedAt := None; we_lastError := None;
                    we_errorCount := 0 |} in
      inr (row, setWebhookEvents d (webhookEvents d ++ [row]) (S (webhookSerial d)))
  end.

(** [prisma.webhookEvent.update({ where: { id }, data })] *)
Definition webhookEvent_update (id : string)
    (patch : WebhookEvent -> WebhookEvent) (d : Db) : Thrown + Db :=
  match find (fun e => String.eqb (we_id e) id) (webhookEvents d) with
  | None => inl (ErrorObj "Record to update not found.")
  | Some _ =>
      inr (setWebhookEvents d
             (map (fun e => if String.eqb (we_id e) id then patch e else e)
                  (webhookEvents d))
             (webhookSerial d))
  end.

End Prisma.
Export Prisma.

(** ** The world outside the store *)

(** [process.env], the variables the four files read for minting. *)
Record Env := {
  BASE_MINTER_PRIVATE_KEY : option string;
  THIRDWEB_CLIENT_ID : option string;
  APP_BASE_URL : option string;
  DEFAULT_CONTRACT_ADDRESS : option string;
  BASE_CHAIN_ID : option string
}.

(** One [sendTransaction] of a prepared contract call: the thirdweb
    client and account it is sent with, the contract, the method
    signature and the parameters. *)
Record ChainCall := {
  cc_clientId : string;
  cc_privateKey : string;
  cc_chain : string;
  cc_address : string;
  cc_method : string;
  cc_params : list string
}.

Record Receipt := { transactionHash : string }.

(** What the code does that is visible outside it, in order. *)
Inductive Event :=
| EvUdiCreate (row : UniqueDigitalId)
| EvUdiStatus (id : string) (s : UdiStatus)
| EvImport (failure : option Thrown)
| EvChainCall (c : ChainCall) (outcome : Thrown + Receipt).

Record World := { db : Db; trace : list Event }.

(** The environment and the external services.  The import and the
    chain answer by the moment of the call (the length of the trace so
    far), so the same call may fail once and succeed later.  The three
    thirdweb constructors build values the code only passes on to
    [sendTransaction]; what they contribute is whether they return
    ([None]) or throw: [createThirdwebClient] by the client id,
    [privateKeyToAccount] by the private key (it derives the account
    from the key and throws on a key outside the curve's range),
    [getContract] by the chain and the contract address (it throws on a
    string that is not an address). *)
Record External := {
  env : Env;
  importMintingService : nat -> option Thrown;
  createThirdwebClient : string -> option Thrown;
  privateKeyToAccount : string -> option Thrown;
  getContract : string -> string -> option Thrown;
  sendTransaction : nat -> ChainCall -> Thrown + Receipt;
  now : Z
}.

Definition withDb (w : World) (d : Db) : World := {| db := d; trace := trace w |}.
Definition emit (e : Event) (w : World) : World := {| db := db w; trace := trace w ++ [e] |}.

(** ** token-minting.service.ts *)

Module TokenMinting.

Definition getBlockchainName (e : Env) : string :=
  match BASE_CHAIN_ID e with
  | Some c => if String.eqb (trim c) "8453" then "base" else "base-sepolia"
  | None => "base-sepolia"
  end.

Record MintEnv := { clientId : string; privateKey : string; appBaseUrl : string }.

Definition ensureEnv (e : Env) : Thrown + MintEnv :=
  if negb (truthy (THIRDWEB_CLIENT_ID e)) then
    inl (ErrorObj "THIRDWEB_CLIENT_ID is required for minting")
  else if negb (truthy (BASE_MINTER_PRIVATE_KEY e)) then
    inl (ErrorObj "BASE_MINTER_PRIVATE_KEY is required for minting")
  else if negb (truthy (APP_BASE_URL e)) then
    inl (ErrorObj "APP_BASE_URL is required to build token metadata URLs")
  else
    let pk := strip0x (trim (default "" (BASE_MINTER_PRIVATE_KEY e))) in
    if negb (isHex64 pk) then
      inl (ErrorObj ("Invalid private key format. Expected a 64-character hex string, but got a key with length "
                     +:+ pretty (String.length pk) +:+ " after trimming."))
    else
      inr {| clientId := default "" (THIRDWEB_CLIENT_ID e);
             privateKey := "0x" +:+ pk;
             appBaseUrl := default "" (APP_BASE_URL e) |}.

Definition mintMethods : list string :=
  [ "function mintTo(address to, string uri) returns (uint256 tokenId)";
    "function safeMint(address to, string uri)" ].

(** The [for (const method of mintMethods)] loop: [call m] is the
    transaction [tryMintWithSignature] sends for method [m].  Returns
    [receipt], [lastError] and the world after the attempts. *)
Fixpoint tryMintMethods (x : External) (call : string -> ChainCall)
    (methods : list string) (lastError : option Thrown) (w : World)
  : option Receipt * option Thrown * World :=
  match methods with
  | [] => (None, lastError, w)
  | m :: rest =>
      match sendTransaction x (length (trace w)) (call m) with
      | inr receipt => (Some receipt, None, emit (EvChainCall (call m) (inr receipt)) w)
      | inl err =>
          tryMintMethods x call rest (Some err) (emit (EvChainCall (call m) (inl err)) w)
      end
  end.

Definition markMinted (x : External) (tx address : string) (r : UniqueDigitalId)
  : UniqueDigitalId :=
  {| udi_id := udi_id r;
     udi_coreProductVariantId := udi_coreProductVariantId r;
     udi_myshopify_domain := udi_myshopify_domain r;
     udi_brand_3fa_id := udi_brand_3fa_id r;
     udi_shopifyOrderId := udi_shopifyOrderId r;
     udi_shopifyLineItemId := udi_shopifyLineItemId r;
     udi_owner3faId := udi_owner3faId r;
     udi_orders3faId := udi_orders3faId r;
     udi_privyWalletAddress := udi_privyWalletAddress r;
     udi_privyDid := udi_privyDid r;
     udi_status := MINTED;
     udi_contractAddress := Some address;
     udi_blockchain := Some (getBlockchainName (env x));
     udi_transactionHash := Some tx;
     udi_mintedAt := Some (now x) |}.

Definition setStatus (s : UdiStatus) (r : UniqueDigitalId) : UniqueDigitalId :=
  {| udi_id := udi_id r;
     udi_coreProductVariantId := udi_coreProductVariantId r;
     udi_myshopify_domain := udi_myshopify_domain r;
     udi_brand_3fa_id := udi_brand_3fa_id r;
     udi_shopifyOrderId := udi_shopifyOrderId r;
     udi_shopifyLineItemId := udi_shopifyLineItemId r;
     udi_owner3faId := udi_owner3faId r;
     udi_orders3faId := udi_orders3faId r;
     udi_privyWalletAddress := udi_privyWalletAddress r;
     udi_privyDid := udi_privyDid r;
     udi_status := s;
     udi_contractAddress := udi_contractAddress r;
     udi_blockchain := udi_blockchain r;
     udi_transactionHash := udi_transactionHash r;
     udi_mintedAt := udi_mintedAt r |}.

Definition metadataUrl (appBaseUrl digitalIdId : string) : string :=
  dropTrailingSlash appBaseUrl +:+ "/api/token-metadata/" +:+ digitalIdId.

(** The chain the client is bound to, by [getChain]. *)
Definition getChain (e : Env) : string :=
  match BASE_CHAIN_ID e with
  | Some c => if String.eqb (trim c) "8453" then "8453" else "84532"
  | None => "84532"
  end.

(** [const recipient = digitalId.privyWalletAddress || undefined] *)
Definition recipientOf (digitalId : UniqueDigitalId) : option string :=
  JS.or (udi_privyWalletAddress digitalId) None.

(** [digitalId.contractAddress
     || digitalId.coreProductVariant?.defaultSmartContractAddress
     || process.env.DEFAULT_CONTRACT_ADDRESS || undefined] *)
Definition contractAddressOf (x : External) (digitalId : UniqueDigitalId) (d : Db)
  : option string :=
  let variantDefault :=
    match coreProductVariant_findUnique (udi_coreProductVariantId digitalId) d with
    | Some v => cpv_defaultSmartContractAddress v
    | None => None
    end in
  JS.or (JS.or (JS.or (udi_contractAddress digitalId) variantDefault)
               (DEFAULT_CONTRACT_ADDRESS (env x))) None.

(** The transaction [tryMintWithSignature(contract, account, method,
    [recipient, metadataUrl])] sends. *)
Definition mintCall (x : External) (me : MintEnv) (address recipient digitalIdId : string)
    (method : string) : ChainCall :=
  {| cc_clientId := clientId me; cc_privateKey := privateKey me;
     cc_chain := getChain (env x); cc_address := address;
     cc_method := method;
     cc_params := [recipient; metadataUrl (appBaseUrl me) digitalIdId] |}.

(** [createThirdwebClient({ clientId })], [privateKeyToAccount({ client,
    privateKey })], [getChain()] and [getContract({ client, chain,
    address })], in this order: the value thrown by the first that
    throws, if any. *)
Definition thirdwebSetup (x : External) (me : MintEnv) (address : string)
  : option Thrown :=
  match createThirdwebClient x (clientId me) with
  | Some e => Some e
  | None =>
      match privateKeyToAccount x (privateKey me) with
      | Some e => Some e
      | None => getContract x (getChain (env x)) address
      end
  end.

(** The body of the outer [try] of [mintDigitalIdOnBase]: the
    transaction hash, or the value thrown. *)
Definition mintAttempt (x : External) (digitalIdId : string) (w : World)
  : (Thrown + string) * World :=
  match ensureEnv (env x) with
  | inl e => (inl e, w)
  | inr me =>
    match uniqueDigitalId_findUnique digitalIdId (db w) with
    | None => (inl (ErrorObj ("UniqueDigitalId not found: " +:+ digitalIdId)), w)
    | Some digitalId =>
      match recipientOf digitalId with
      | None =>
          (inl (ErrorObj "Recipient wallet address (privyWalletAddress) is missing"), w)
      | Some recipient =>
        match contractAddressOf x digitalId (db w) with
        | None =>
            (inl (ErrorObj "No contract address found for minting (set default or per-variant)"), w)
        | Some address =>
          match thirdwebSetup x me address with
          | Some e => (inl e, w)
          | None =>
            match tryMintMethods x (mintCall x me address recipient digitalIdId)
                    mintMethods None w with
            | (None, lastError, w1) =>
                (inl (ErrorObj ("Mint transaction failed: " +:+ messageOf lastError)), w1)
            | (Some receipt, _, w1) =>
                match uniqueDigitalId_update digitalIdId
                        (markMinted x (transactionHash receipt) address) (db w1) with
                | inl e => (inl e, w1)
                | inr d => (inr (transactionHash receipt),
                            emit (EvUdiStatus digitalIdId MINTED) (withDb w1 d))
                end
            end
          end
        end
      end
    end
  end.

Record MintResult := {
  success : bool;
  mr_transactionHash : option string;
  mr_error : option string
}.

Definition mintDigitalIdOnBase (x : External) (digitalIdId : string) (w : World)
  : MintResult * World :=
  match mintAttempt x digitalIdId w with
  | (inr tx, w1) =>
      ({| success := true; mr_transactionHash := Some tx; mr_error := None |}, w1)
  | (inl error, w1) =>
      let w2 :=
        match uniqueDigitalId_update digitalIdId (setStatus MINT_FAILED) (db w1) with
        | inr d => emit (EvUdiStatus digitalIdId MINT_FAILED) (withDb w1 d)
        | inl _ => w1
        end in
      ({| success := false; mr_transactionHash := None;
          mr_error := Some (messageOrString error) |}, w2)
  end.

End TokenMinting.

(** ** digital-id.service *)

Module DigitalIdService.

Import TokenMinting.

(** The [try] block of [queueTokenMinting]: the check of the
    environment, the lazy import and the mint; whatever is thrown in it
    is caught and logged. *)
Definition mintIfConfigured (x : External) (digitalIdId : string) (w : World) : World :=
  if negb (truthy (BASE_MINTER_PRIVATE_KEY (env x)))
     || negb (truthy (THIRDWEB_CLIENT_ID (env x)))
     || negb (truthy (APP_BASE_URL (env x)))
  then w
  else
    match importMintingService x (length (trace w)) with
    | Some err => emit (EvImport (Some err)) w
    | None => snd (mintDigitalIdOnBase x digitalIdId (emit (EvImport None) w))
    end.

(** [queueTokenMinting]: the status write, then the [try] block; [inl]
    when the call rejects, which only the status write can cause. *)
Definition queueTokenMinting (x : External) (digitalIdId : string) (w : World)
  : Thrown + World :=
  match uniqueDigitalId_update digitalIdId (setStatus MINT_PENDING) (db w) with
  | inl e => inl e
  | inr d =>
      inr (mintIfConfigured x digitalIdId
             (emit (EvUdiStatus digitalIdId MINT_PENDING) (withDb w d)))
  end.

Record OrderArgs := {
  shopId : string;
  shopifyOrderId : string;
  lineItems : list ShopifyLineItem;
  owner3faId : string;
  privyWalletAddress : option string;
  privyDid : option string;
  orders3faId : string
}.

Record Results := {
  created : Z;
  failed : Z;
  digitalIds : list UniqueDigitalId
}.

Definition addFailed (n : Z) (r : Results) : Results :=
  {| created := created r; failed := failed r + n; digitalIds := digitalIds r |}.

Definition addCreated (row : UniqueDigitalId) (r : Results) : Results :=
  {| created := created r + 1; failed := failed r; digitalIds := digitalIds r ++ [row] |}.

Definition shopifyLineItemGid (l : ShopifyLineItem) : string :=
  "gid://shopify/LineItem/" +:+ pretty (li_shopifyId l).

(** [uniqueLineItemId] for the loop counter [i] (from 0). *)
Definition uniqueLineItemId (l : ShopifyLineItem) (i : Z) : string :=
  if 1 <? li_quantity l
  then shopifyLineItemGid l +:+ ":" +:+ pretty (i + 1)
  else shopifyLineItemGid l.

Definition unitData (x : External) (a : OrderArgs) (l : ShopifyLineItem)
    (v : CoreProductVariant) (i : Z) : UdiCreateData :=
  {| ucd_coreProductVariantId := cpv_id v;
     ucd_myshopify_domain := shopId a;
     ucd_brand_3fa_id := cpv_brand_3fa_id v;
     ucd_shopifyOrderId := "gid://shopify/Order/" +:+ shopifyOrderId a;
     ucd_shopifyLineItemId := uniqueLineItemId l i;
     ucd_owner3faId := owner3faId a;
     ucd_orders3faId := orders3faId a;
     ucd_privyWalletAddress := privyWalletAddress a;
     ucd_privyDid := privyDid a;
     ucd_status := CREATED;
     ucd_contractAddress :=
       JS.or (cpv_defaultSmartContractAddress v) (DEFAULT_CONTRACT_ADDRESS (env x)) |}.

(** One pass of the body of the inner [for]: create the unit, trigger
    its minting, count it.  [Some e] when the pass throws; [results]
    and the store keep what was done before the throw. *)
Definition createUnit (x : External) (a : OrderArgs) (l : ShopifyLineItem)
    (v : CoreProductVariant) (i : Z) (st : Results * World)
  : option Thrown * (Results * World) :=
  let '(res, w) := st in
  match uniqueDigitalId_create (unitData x a l v i) (db w) with
  | inl e => (Some e, (res, w))
  | inr (row, d) =>
      let w1 := emit (EvUdiCreate row) (withDb w d) in
      match queueTokenMinting x (udi_id row) w1 with
      | inl e => (Some e, (res, w1))
      | inr w2 => (None, (addCreated row res, w2))
      end
  end.

(** [for (let i = 0; i < lineItem.quantity; i++)], with [n] passes left. *)
Fixpoint unitLoop (x : External) (a : OrderArgs) (l : ShopifyLineItem)
    (v : CoreProductVariant) (n : nat) (i : Z) (st : Results * World)
  : option Thrown * (Results * World) :=
  match n with
  | O => (None, st)
  | S n' =>
      match createUnit x a l v i st with
      | (Some e, st') => (Some e, st')
      | (None, st') => unitLoop x a l v n' (i + 1) st'
      end
  end.

(** The body of [for (const lineItem of lineItems)], with its
    [try]/[catch]. *)
Definition processLineItem (x : External) (a : OrderArgs) (st : Results * World)
    (l : ShopifyLineItem) : Results * World :=
  if negb (truthyBig (li_variantId l)) then st
  else
    let shopifyVariantGid :=
      "gid://shopify/ProductVariant/" +:+ pretty (default 0 (li_variantId l)) in
    match coreProductVariant_findFirst shopifyVariantGid (shopId a) (db (snd st)) with
    | None => (addFailed (li_quantity l) (fst st), snd st)
    | Some coreVariant =>
        if negb (truthy (cpv_brand_3fa_id coreVariant))
        then (addFailed (li_quantity l) (fst st), snd st)
        else
          match unitLoop x a l coreVariant (Z.to_nat (li_quantity l)) 0 st with
          | (None, st') => st'
          | (Some _, (res, w)) => (addFailed (li_quantity l) res, w)
          end
    end.

Definition emptyResults : Results := {| created := 0; failed := 0; digitalIds := [] |}.

Definition createDigitalIdsForOrder (x : External) (a : OrderArgs) (w : World)
  : Results * World :=
  fold_left (processLineItem x a) (lineItems a) (emptyResults, w).

End DigitalIdService.

(** ** webhooks.app.orders-create.ts *)

Module Intake.

Record Job := {
  job_id : string;
  job_name : string;
  job_webhookEventId : string;
  job_timestamp : Z
}.

Record IntakeWorld := { store : Db; queue : list Job }.

(** Modelled from the spec: [orderProcessingQueue] (a BullMQ queue) is
    not among the sources.  Enqueue is idempotent by job key: adding a
    job whose [jobId] is already in the queue adds nothing and hands
    back the job that is there. *)
Definition orderProcessingQueue_add (name webhookEventId jobId : string)
    (timestamp : Z) (q : list Job) : Job * list Job :=
  match find (fun j => String.eqb (job_id j) jobId) q with
  | Some j => (j, q)
  | None =>
      let j := {| job_id := jobId; job_name := name;
                  job_webhookEventId := webhookEventId;
                  job_timestamp := timestamp |} in
      (j, q ++ [j])
  end.

(** What [authenticate.webhook] resolves to. *)
Record AuthenticatedWebhookContext := {
  ctx_shop : option string;
  ctx_topic : option string;
  ctx_payload : option PayloadOrder
}.

(** A request: the [X-Shopify-Webhook-Id] header, the outcome of
    [authenticate.webhook], and the clock ([dateNow k] is what the
    k-th reading of the time returns). *)
Record Request := {
  eventIdHeader : option string;
  authenticate_webhook : Thrown + AuthenticatedWebhookContext;
  dateNow : nat -> Z
}.

Record Response := { body : option string; status : Z }.

(** [phone ?? shipping_address?.phone ?? billing_address?.phone ?? customer?.phone] *)
Definition customerPhone (p : PayloadOrder) : option string :=
  nullish (po_phone p)
    (nullish (a ← po_shipping_address p; addr_phone a)
       (nullish (a ← po_billing_address p; addr_phone a)
          (c ← po_customer p; cust_phone c))).

Definition markSkipped (t : Z) (e : WebhookEvent) : WebhookEvent :=
  {| we_id := we_id e; we_shopId := we_shopId e; we_topic := we_topic e;
     we_payload := we_payload e;
     we_processed := true;
     we_eventId := we_eventId e;
     we_processedAt := Some t;
     we_lastError := Some "Skipped: No customer phone number found in payload.";
     we_errorCount := we_errorCount e |}.

Definition internalError : Response :=
  {| body := Some "Error processing webhook internally, acknowledged."; status := 200 |}.

(** The clock is read for the generated key only when the header is
    absent ([??] does not evaluate its right side otherwise), so the
    [new Date()] of the skip branch is the second reading when the
    header is there and the third when it is not. *)
Definition skipReading (rq : Request) : nat :=
  match eventIdHeader rq with
  | Some _ => 1
  | None => 2
  end.

(** [eventIdHeader ?? `generated_${Date.now()}_${shopifyOrderIdNum}`] *)
Definition dedupKey (rq : Request) (shopifyOrderIdNum : Z) : string :=
  match eventIdHeader rq with
  | Some h => h
  | None => "generated_" +:+ pretty (dateNow rq 1%nat) +:+ "_"
            +:+ pretty shopifyOrderIdNum
  end.

Definition action (rq : Request) (w : IntakeWorld) : Response * IntakeWorld :=
  let webhookReceivedTime := dateNow rq 0%nat in
  match authenticate_webhook rq with
  | inl _ => (internalError, w)
  | inr context =>
    match ctx_shop context, ctx_topic context, ctx_payload context with
    | Some shop, Some topic, Some payload =>
      if negb (truthy (Some shop)) || negb (truthy (Some topic)) then
        ({| body := Some "Invalid payload"; status := 200 |}, w)
      else
        match po_id payload with
        | IdNotANumber =>
            ({| body := Some "Invalid payload - Missing Order ID"; status := 200 |}, w)
        | IdNumber shopifyOrderIdNum =>
          let normalizedTopic := underscoresToSlashes (toLowerCase topic) in
          if negb (String.eqb normalizedTopic "orders/create") then
            ({| body := None; status := 200 |}, w)
          else
            let eventId := dedupKey rq shopifyOrderIdNum in
            match webhookEvent_create shop normalizedTopic payload false eventId (store w) with
            | inl _ => (internalError, w)
            | inr (webhookEvent, d1) =>
              if negb (truthy (customerPhone payload)) then
                match webhookEvent_update (we_id webhookEvent)
                        (markSkipped (dateNow rq (skipReading rq))) d1 with
                | inl _ => (internalError, {| store := d1; queue := queue w |})
                | inr d2 =>
                    ({| body := Some "Acknowledged, no phone number."; status := 200 |},
                     {| store := d2; queue := queue w |})
                end
              else
                let jobId := "order-" +:+ shop +:+ "-" +:+ pretty shopifyOrderIdNum in
                let '(job, q1) :=
                  orderProcessingQueue_add
                    ("order-create-" +:+ pretty shopifyOrderIdNum)
                    (we_id webhookEvent) jobId webhookReceivedTime (queue w) in
                match webhookEvent_update (we_id webhookEvent) (fun e => e) d1 with
                | inl _ => (internalError, {| store := d1; queue := q1 |})
                | inr d2 => ({| body := None; status := 200 |},
                             {| store := d2; queue := q1 |})
                end
            end
        end
    | _, _, _ => ({| body := Some "Invalid payload"; status := 200 |}, w)
    end
  end.

End Intake.

(** ** orderProcessor.worker.ts, step 6 (identity issuance) *)

Module Worker.

Import DigitalIdService.

Record User3fa := { u3_id : string }.

(** The [{ id }] selected from the [shopifyOrder] upsert. *)
Record OrderDbId := { odb_id : string }.

(** The three-way choice on the counts [createDigitalIdsForOrder] returns. *)
Definition statusForResults (r : Results) : OrderStatus :=
  if failed r =? 0 then COMPLETED
  else if 0 <? created r then PARTIALLY_COMPLETED
  else FAILED_UDI_CREATION.

Definition setOrderStatus (id : string) (s : OrderStatus) (w : World) : Thrown + World :=
  match orders3fa_updateStatus id s (db w) with
  | inl e => inl e
  | inr d => inr (withDb w d)
  end.

(** The [try]/[catch] around the call of the issuer.  [issue] is
    [digitalIdService.createDigitalIdsForOrder]: it returns the counts
    or throws. *)
Definition issueAndRecord
    (issue : OrderArgs -> World -> (Thrown + Results) * World)
    (a : OrderArgs) (w : World) : Thrown + World :=
  match issue a w with
  | (inr digitalIdResults, w1) =>
      match setOrderStatus (orders3faId a) (statusForResults digitalIdResults) w1 with
      | inr w2 => inr w2
      | inl _ => setOrderStatus (orders3faId a) FAILED_UDI_CREATION_ERROR w1
      end
  | (inl _, w1) => setOrderStatus (orders3faId a) FAILED_UDI_CREATION_ERROR w1
  end.

(** The argument of [createDigitalIdsForOrder] in step 6; the line
    items are read back from the store. *)
Definition issuerArgs (u : User3fa) (o : Orders3fa) (dbId : OrderDbId)
    (shopDomain shopifyOrderId : string)
    (walletAddressForDigitalId privyDidForDigitalId : option string)
    (w : World) : OrderArgs :=
  let lineItemsForDigitalIds := shopifyLineItem_findMany (odb_id dbId) (db w) in
  {| shopId := shopDomain;
     DigitalIdService.shopifyOrderId := shopifyOrderId;
     lineItems := lineItemsForDigitalIds;
     owner3faId := u3_id u;
     privyWalletAddress := walletAddressForDigitalId;
     privyDid := privyDidForDigitalId;
     orders3faId := o3_id o |}.

(** Step 6 of [processor]: from the values the earlier steps left in
    [user3fa], [orders3fa] and [orderDbId]. *)
Definition createDigitalIdsStep
    (issue : OrderArgs -> World -> (Thrown + Results) * World)
    (user3fa : option User3fa) (orders3fa : option Orders3fa)
    (orderDbId : option OrderDbId)
    (shopDomain shopifyOrderId : string)
    (walletAddressForDigitalId privyDidForDigitalId : option string)
    (w : World) : Thrown + World :=
  match user3fa, orders3fa, orderDbId with
  | Some u, Some o, Some dbId =>
      issueAndRecord issue
        (issuerArgs u o dbId shopDomain shopifyOrderId
           walletAddressForDigitalId privyDidForDigitalId w) w
  | _, Some o, _ => setOrderStatus (o3_id o) FAILED_PREREQUISITES_FOR_UDI w
  | _, None, _ => inr w
  end.

(** The issuer the worker is built with. *)
Definition digitalIdService (x : External) (a : OrderArgs) (w : World)
  : (Thrown + Results) * World :=
  let '(r, w') := createDigitalIdsForOrder x a w in (inr r, w').

End Worker.

(** ** Sample data: a shop, one order, three line items *)

Module Samples.

Import TokenMinting DigitalIdService Intake Worker.

Definition shop : string := "demo.myshopify.com".

(** The customer's wallet and the contract of the sample variant. *)
Definition wallet1 : string := "0xa11ce00000000000000000000000000000000000".
Definition contract1 : string := "0xc0ffee0000000000000000000000000000000000".

Definition variantV : CoreProductVariant :=
  {| cpv_id := "cpv_1";
     cpv_shopifyVariantGid := "gid://shopify/ProductVariant/42";
     cpv_myshopify_domain := shop;
     cpv_brand_3fa_id := Some "brand_1";
     cpv_defaultSmartContractAddress := Some contract1 |}.

(** A variant without the brand linkage. *)
Definition variantNoBrand : CoreProductVariant :=
  {| cpv_id := "cpv_2";
     cpv_shopifyVariantGid := "gid://shopify/ProductVariant/43";
     cpv_myshopify_domain := shop;
     cpv_brand_3fa_id := None;
     cpv_defaultSmartContractAddress := None |}.

Definition mkItem (id : string) (shopifyId : Z) (variant : option Z) (quantity : Z)
  : ShopifyLineItem :=
  {| li_id := id; li_orderId := "ord_1"; li_shopifyId := shopifyId;
     li_variantId := variant; li_quantity := quantity |}.

Definition itemA : ShopifyLineItem := mkItem "li_a" 7 (Some 42) 3.
Definition itemB : ShopifyLineItem := mkItem "li_b" 8 (Some 42) 1.
Definition itemNoVariant : ShopifyLineItem := mkItem "li_c" 9 None 2.
Definition itemUnknownVariant : ShopifyLineItem := mkItem "li_d" 10 (Some 99) 1.
Definition itemNoBrand : ShopifyLineItem := mkItem "li_e" 11 (Some 43) 2.

Definition order1 : Orders3fa :=
  {| o3_id := "o3_1"; o3_user3faId := "u_1"; o3_shopifyOrderId := "1001";
     o3_status := WALLET_PROVISIONED; o3_totalItems := 4;
     o3_smsNotificationSentAt := None |}.

Definition dbWith (items : list ShopifyLineItem) : Db :=
  {| uniqueDigitalIds := []; udiSerial := 0;
     coreProductVariants := [variantV; variantNoBrand];
     shopifyLineItems := items;
     orders3fas := [order1];
     webhookEvents := []; webhookSerial := 0 |}.

Definition world0 (items : list ShopifyLineItem) : World :=
  {| db := dbWith items; trace := [] |}.

Definition argsFor (items : list ShopifyLineItem) (wallet : option string) : OrderArgs :=
  {| shopId := shop; DigitalIdService.shopifyOrderId := "1001"; lineItems := items;
     owner3faId := "u_1"; privyWalletAddress := wallet; privyDid := Some "did:privy:1";
     orders3faId := "o3_1" |}.

Definition hexKey : string :=
  "0123456789abcdef0123456789abcdef0123456789ABCDEF0123456789ABCDEF".

Definition envConfigured : Env :=
  {| BASE_MINTER_PRIVATE_KEY := Some ("0x" +:+ hexKey);
     THIRDWEB_CLIENT_ID := Some "client";
     APP_BASE_URL := Some "https://app.example/";
     DEFAULT_CONTRACT_ADDRESS := None;
     BASE_CHAIN_ID := Some "8453" |}.

Definition envUnconfigured : Env :=
  {| BASE_MINTER_PRIVATE_KEY := None;
     THIRDWEB_CLIENT_ID := Some "client";
     APP_BASE_URL := Some "https://app.example/";
     DEFAULT_CONTRACT_ADDRESS := None;
     BASE_CHAIN_ID := None |}.

(** A contract that has [safeMint] but no [mintTo]. *)
Definition safeMintOnly (t : nat) (c : ChainCall) : Thrown + Receipt :=
  if String.eqb (cc_method c) "function safeMint(address to, string uri)"
  then inr {| transactionHash := "0xsafe" |}
  else inl (ErrorObj "execution reverted").

(** A contract on which every call goes through. *)
Definition alwaysMints (t : nat) (c : ChainCall) : Thrown + Receipt :=
  inr {| transactionHash := "0xtx" +:+ pretty t |}.

Definition alwaysReverts (t : nat) (c : ChainCall) : Thrown + Receipt :=
  inl (ErrorObj "execution reverted").

(** The sample key and the sample addresses are well formed: the
    thirdweb constructors return. *)
Definition external (e : Env) (chain : nat -> ChainCall -> Thrown + Receipt) : External :=
  {| env := e; importMintingService := fun _ => None;
     createThirdwebClient := fun _ => None;
     privateKeyToAccount := fun _ => None;
     getContract := fun _ _ => None;
     sendTransaction := chain; now := 1700000000000 |}.

Definition payloadWith (phone shipping billing customer : option string) : PayloadOrder :=
  {| po_id := IdNumber 1001;
     po_phone := phone;
     po_shipping_address := Some {| addr_phone := shipping |};
     po_billing_address := Some {| addr_phone := billing |};
     po_customer := Some {| cust_phone := customer |} |}.

Definition requestFor (header : option string) (topic : string) (p : PayloadOrder) : Request :=
  {| eventIdHeader := header;
     authenticate_webhook :=
       inr {| ctx_shop := Some shop; ctx_topic := Some topic; ctx_payload := Some p |};
     dateNow := fun k => 1700000000000 + Z.of_nat k |}.

Definition intake0 : IntakeWorld := {| store := dbWith []; queue := [] |}.

Definition itemB2 : ShopifyLineItem := mkItem "li_f" 12 (Some 42) 1.

(** The line item of the end-to-end scenario: variant V, quantity 2. *)
Definition itemPair : ShopifyLineItem := mkItem "li_g" 13 (Some 42) 2.

(** A world in which one identity was issued while minting was not
    configured: it sits at [MINT_PENDING]. *)
Definition worldIssued : World :=
  snd (createDigitalIdsForOrder (external envUnconfigured alwaysReverts)
         (argsFor [itemB] (Some wallet1)) (world0 [itemB])).

Definition issuedRow : UniqueDigitalId :=
  {| udi_id := "udi_0";
     udi_coreProductVariantId := "cpv_1";
     udi_myshopify_domain := shop;
     udi_brand_3fa_id := Some "brand_1";
     udi_shopifyOrderId := "gid://shopify/Order/1001";
     udi_shopifyLineItemId := "gid://shopify/LineItem/8";
     udi_owner3faId := "u_1";
     udi_orders3faId := "o3_1";
     udi_privyWalletAddress := Some wallet1;
     udi_privyDid := Some "did:privy:1";
     udi_status := MINT_PENDING;
     udi_contractAddress := Some contract1;
     udi_blockchain := None;
     udi_transactionHash := None;
     udi_mintedAt := None |}.

Definition mintEnvConfigured : MintEnv :=
  {| clientId := "client"; privateKey := "0x" +:+ hexKey;
     appBaseUrl := "https://app.example/" |}.

Definition requestWithPhone : Request :=
  requestFor (Some "evt-1") "orders/create"
    (payloadWith (Some "+15550100") None None None).

(** A payload whose [id] is not a number. *)
Definition requestWithoutOrderId : Request :=
  requestFor (Some "evt-2") "orders/create"
    {| po_id := IdNotANumber; po_phone := Some "+15550100";
       po_shipping_address := None; po_billing_address := None;
       po_customer := None |}.

End Samples.

(** ** digital-id.service: the single-item path *)

Module DigitalIdItem.

Import TokenMinting DigitalIdService.

Record ItemArgs := {
  ia_shopId : string;
  ia_coreProductVariantId : string;
  ia_shopifyOrderId : string;
  ia_shopifyLineItemId : string;
  ia_owner3faId : string;
  ia_orders3faId : string
}.

(** The [data] of the insert; this path sets neither the wallet nor
    the DID. *)
Definition itemData (x : External) (a : ItemArgs) (coreVariant : CoreProductVariant)
  : UdiCreateData :=
  {| ucd_coreProductVariantId := ia_coreProductVariantId a;
     ucd_myshopify_domain := ia_shopId a;
     ucd_brand_3fa_id := cpv_brand_3fa_id coreVariant;
     ucd_shopifyOrderId := ia_shopifyOrderId a;
     ucd_shopifyLineItemId := ia_shopifyLineItemId a;
     ucd_owner3faId := ia_owner3faId a;
     ucd_orders3faId := ia_orders3faId a;
     ucd_privyWalletAddress := None;
     ucd_privyDid := None;
     ucd_status := CREATED;
     ucd_contractAddress :=
       JS.or (cpv_defaultSmartContractAddress coreVariant)
             (DEFAULT_CONTRACT_ADDRESS (env x)) |}.

(** [createDigitalIdForOrderItem]: the identity returned, or the value
    thrown, and the world at that point. *)
Definition createDigitalIdForOrderItem (x : External) (a : ItemArgs) (w : World)
  : (Thrown + UniqueDigitalId) * World :=
  match uniqueDigitalId_findByLineItem (ia_shopifyLineItemId a) (db w) with
  | Some existingDigitalId => (inr existingDigitalId, w)
  | None =>
      match coreProductVariant_findUnique (ia_coreProductVariantId a) (db w) with
      | None =>
          (inl (ErrorObj ("Core product variant not found: "
                          +:+ ia_coreProductVariantId a)), w)
      | Some coreVariant =>
          if negb (truthy (cpv_brand_3fa_id coreVariant)) then
            (inl (ErrorObj ("Core product variant " +:+ ia_coreProductVariantId a
                            +:+ " is missing brand_3fa_id")), w)
          else
            match uniqueDigitalId_create (itemData x a coreVariant) (db w) with
            | inl e => (inl e, w)
            | inr (digitalId, d) =>
                let w1 := emit (EvUdiCreate digitalId) (withDb w d) in
                match queueTokenMinting x (udi_id digitalId) w1 with
                | inl e => (inl e, w1)
                | inr w2 => (inr digitalId, w2)
                end
            end
      end
  end.

End DigitalIdItem.

(** ** orderProcessor.worker.ts: the steps around identity issuance *)

Module WorkerSteps.

Import Worker.

(** [sanitizePriceValue] *)
Definition sanitizePriceValue (priceStr : option string) : string :=
  match priceStr with
  | None => "0"
  | Some s =>
      let stringPrice := trim s in
      if String.eqb stringPrice "" then "0" else stringPrice
  end.

(** One call of [twilioClient.messages.create]. *)
Record SmsRequest := { sms_body : string; sms_from : string; sms_to : string }.

(** The Twilio client, when it was initialised: what
    [messages.create] answers, the message sid or the error thrown. *)
Record TwilioClient := { messages_create : SmsRequest -> Thrown + string }.

(** The module-level initialisation: a client only when the account
    sid, the auth token and the phone number are all set and the
    constructor does not throw. *)
Definition initTwilioClient (accountSid authToken twilioPhoneNumber : option string)
    (construct : Thrown + TwilioClient) : option TwilioClient :=
  if truthy accountSid && truthy authToken && truthy twilioPhoneNumber then
    match construct with
    | inr client => Some client
    | inl _ => None
    end
  else None.

Definition newline : string := String (ascii_of_nat 10) EmptyString.

Definition passportUrl (o : Orders3fa) : string := "mvp.3fa.co/order/" +:+ o3_id o.

(** The text of the message, with [rewardsPoints = 175]. *)
Definition messageBody (brandName productName : string) (o : Orders3fa) : string :=
  "🛍️ Your " +:+ brandName +:+ " Rewards (" +:+ pretty 175 +:+ " pts). Thanks for your purchase, your "
  +:+ productName +:+ " is on its way! " +:+ newline +:+ newline
  +:+ "View your product passport 🎫 here: " +:+ passportUrl o +:+ newline +:+ newline
  +:+ "✨ Earn for sharing" +:+ newline
  +:+ "🚚 Track shipping" +:+ newline
  +:+ "📦 Manage returns".

(** [prisma.orders3fa.update({ where: { id }, data: { smsNotificationSentAt } })] *)
Definition orders3fa_stampSms (id : string) (t : Z) (d : Db) : Thrown + Db :=
  match orders3fa_find id d with
  | None => inl (ErrorObj "Record to update not found.")
  | Some _ =>
      inr (setOrders3fas d
             (map (fun o => if String.eqb (o3_id o) id
                            then {| o3_id := o3_id o; o3_user3faId := o3_user3faId o;
                                    o3_shopifyOrderId := o3_shopifyOrderId o;
                                    o3_status := o3_status o;
                                    o3_totalItems := o3_totalItems o;
                                    o3_smsNotificationSentAt := Some t |}
                            else o)
                  (orders3fas d)))
  end.

(** Step 3 of [processor], the notification: the value thrown out of
    the step if any, the world, and the messages handed to Twilio. *)
Definition sendSms (twilioClient : option TwilioClient) (twilioPhoneNumber : option string)
    (date : Z) (brandName productName : string)
    (orders3fa : option Orders3fa) (customerPhone : option string) (w : World)
  : option Thrown * World * list SmsRequest :=
  match orders3fa with
  | Some o =>
      if truthy customerPhone then
        match twilioClient with
        | Some client =>
            if truthy twilioPhoneNumber then
              let request :=
                {| sms_body := messageBody brandName productName o;
                   sms_from := default "" twilioPhoneNumber;
                   sms_to := default "" customerPhone |} in
              match messages_create client request with
              | inr _ =>
                  match orders3fa_stampSms (o3_id o) date (db w) with
                  | inr d => (None, withDb w d, [request])
                  | inl _ => (None, w, [request])
                  end
              | inl _ => (None, w, [request])
              end
            else
              match orders3fa_stampSms (o3_id o) date (db w) with
              | inr d => (None, withDb w d, [])
              | inl e => (Some e, w, [])
              end
        | None =>
            match orders3fa_stampSms (o3_id o) date (db w) with
            | inr d => (None, withDb w d, [])
            | inl e => (Some e, w, [])
            end
        end
      else (None, w, [])
  | None => (None, w, [])
  end.

(** What [user3faService.ensurePrivyWalletForUser] resolves to. *)
Record PrivyResult := {
  pr_success : bool;
  pr_privyWalletAddress : option string;
  pr_privyDid : option string;
  pr_error : option string
}.

(** Step 4 of [processor], the wallet: [walletAddressForDigitalId] and
    [privyDidForDigitalId] as the step leaves them, or the value thrown,
    and the world at that point.  [ensurePrivyWalletForUser] is the call
    of the user service with the user id and the phone. *)
Definition provisionWallet
    (ensurePrivyWalletForUser : string -> string -> Thrown + PrivyResult)
    (user3fa : option User3fa) (customerPhone : option string)
    (orders3fa : option Orders3fa) (w : World)
  : (Thrown + (option string * option string)) * World :=
  match orders3fa with
  | Some o =>
      match user3fa with
      | Some u =>
          if truthy customerPhone then
            match setOrderStatus (o3_id o) PENDING_WALLET w with
            | inl e => (inl e, w)
            | inr w1 =>
                match ensurePrivyWalletForUser (u3_id u) (default "" customerPhone) with
                | inl e => (inl e, w1)
                | inr privyResult =>
                    if pr_success privyResult then
                      match setOrderStatus (o3_id o) WALLET_PROVISIONED w1 with
                      | inl e => (inl e, w1)
                      | inr w2 => (inr (pr_privyWalletAddress privyResult,
                                        pr_privyDid privyResult), w2)
                      end
                    else
                      match setOrderStatus (o3_id o) FAILED_WALLET_PROVISIONING w1 with
                      | inl e => (inl e, w1)
                      | inr w2 => (inr (None, None), w2)
                      end
                end
            end
          else
            match setOrderStatus (o3_id o) FAILED_NO_PHONE_FOR_WALLET w with
            | inl e => (inl e, w)
            | inr w1 => (inr (None, None), w1)
            end
      | None =>
          match setOrderStatus (o3_id o) FAILED_NO_PHONE_FOR_WALLET w with
          | inl e => (inl e, w)
          | inr w1 => (inr (None, None), w1)
          end
      end
  | None => (inr (None, None), w)
  end.

(** Step 7 of [processor]: the event is marked processed and its error
    fields are cleared. *)
Definition markProcessed (date : Z) (e : WebhookEvent) : WebhookEvent :=
  {| we_id := we_id e; we_shopId := we_shopId e; we_topic := we_topic e;
     we_payload := we_payload e;
     we_processed := true;
     we_eventId := we_eventId e;
     we_processedAt := Some date;
     we_lastError := None;
     we_errorCount := 0 |}.

Definition finalizeWebhookEvent (date : Z) (webhookEventId : string) (d : Db) : Thrown + Db :=
  webhookEvent_update webhookEventId (markProcessed date) d.

(** [err.message.substring(0, 900)] *)
Definition substring900 (s : string) : string := String.substring 0 900 s.

Definition markFinalFailure (attemptsMade : Z) (message : string) (e : WebhookEvent)
  : WebhookEvent :=
  {| we_id := we_id e; we_shopId := we_shopId e; we_topic := we_topic e;
     we_payload := we_payload e;
     we_processed := false;
     we_eventId := we_eventId e;
     we_processedAt := we_processedAt e;
     we_lastError := Some ("FINAL FAILURE after " +:+ pretty attemptsMade
                           +:+ " attempts: " +:+ substring900 message);
     we_errorCount := we_errorCount e |}.

(** The ['failed'] listener of the worker: [job] is the event id and
    the attempts made of the job, when the job object is there; an error
    of the update is caught and logged. *)
Definition onFailed (job : option (string * Z)) (errMessage : string) (d : Db) : Db :=
  match job with
  | Some (webhookEventId, attemptsMade) =>
      match webhookEvent_update webhookEventId
              (markFinalFailure attemptsMade errMessage) d with
      | inr d' => d'
      | inl _ => d
      end
  | None => d
  end.

End WorkerSteps.

(** ** More sample data *)

Module MoreSamples.

Import TokenMinting DigitalIdService DigitalIdItem Intake Worker WorkerSteps Samples.

(** One identity issued without a wallet while minting was not configured. *)
Definition worldNoWallet : World :=
  snd (createDigitalIdsForOrder (external envUnconfigured alwaysReverts)
         (argsFor [itemB] None) (world0 [itemB])).

Definition issuedRowNoWallet : UniqueDigitalId :=
  {| udi_id := "udi_0";
     udi_coreProductVariantId := "cpv_1";
     udi_myshopify_domain := shop;
     udi_brand_3fa_id := Some "brand_1";
     udi_shopifyOrderId := "gid://shopify/Order/1001";
     udi_shopifyLineItemId := "gid://shopify/LineItem/8";
     udi_owner3faId := "u_1";
     udi_orders3faId := "o3_1";
     udi_privyWalletAddress := None;
     udi_privyDid := Some "did:privy:1";
     udi_status := MINT_PENDING;
     udi_contractAddress := Some contract1;
     udi_blockchain := None;
     udi_transactionHash := None;
     udi_mintedAt := None |}.


Definition externalImportFails : External :=
  {| env := envConfigured;
     importMintingService := fun _ => Some (ErrorObj "Cannot find module");
     createThirdwebClient := fun _ => None;
     privateKeyToAccount := fun _ => None;
     getContract := fun _ _ => None;
     sendTransaction := alwaysMints; now := 1700000000000 |}.

(** The second unit of line item 7, issued on its own. *)
Definition unit2Args : ItemArgs :=
  {| ia_shopId := shop; ia_coreProductVariantId := "cpv_1";
     ia_shopifyOrderId := "1001";
     ia_shopifyLineItemId := "gid://shopify/LineItem/7:2";
     ia_owner3faId := "u_1"; ia_orders3faId := "o3_1" |}.

Definition worldUnit2Taken : World :=
  snd (createDigitalIdForOrderItem (external envUnconfigured alwaysReverts)
         unit2Args (world0 [])).

Definition unit2Row : UniqueDigitalId :=
  {| udi_id := "udi_0";
     udi_coreProductVariantId := "cpv_1";
     udi_myshopify_domain := shop;
     udi_brand_3fa_id := Some "brand_1";
     udi_shopifyOrderId := "1001";
     udi_shopifyLineItemId := "gid://shopify/LineItem/7:2";
     udi_owner3faId := "u_1";
     udi_orders3faId := "o3_1";
     udi_privyWalletAddress := None;
     udi_privyDid := None;
     udi_status := CREATED;
     udi_contractAddress := Some contract1;
     udi_blockchain := None;
     udi_transactionHash := None;
     udi_mintedAt := None |}.

(** The first unit of line item 7, issued on its own before the
    order is. *)
Definition unit1Args : ItemArgs :=
  {| ia_shopId := shop; ia_coreProductVariantId := "cpv_1";
     ia_shopifyOrderId := "1001";
     ia_shopifyLineItemId := "gid://shopify/LineItem/7:1";
     ia_owner3faId := "u_1"; ia_orders3faId := "o3_1" |}.

Definition worldUnit1Taken : World :=
  snd (createDigitalIdForOrderItem (external envUnconfigured alwaysReverts)
         unit1Args (world0 [])).

(** thirdweb refuses the contract address. *)
Definition externalBadContract : External :=
  {| env := envConfigured;
     importMintingService := fun _ => None;
     createThirdwebClient := fun _ => None;
     privateKeyToAccount := fun _ => None;
     getContract := fun _ _ => Some (ErrorObj "invalid contract address");
     sendTransaction := alwaysMints; now := 1700000000000 |}.

Definition privyFails (userId phone : string) : Thrown + PrivyResult :=
  inr {| pr_success := false; pr_privyWalletAddress := None; pr_privyDid := None;
         pr_error := Some "wallet service unavailable" |}.

Definition privyWorks (userId phone : string) : Thrown + PrivyResult :=
  inr {| pr_success := true; pr_privyWalletAddress := Some wallet1;
         pr_privyDid := Some "did:privy:1"; pr_error := None |}.

Definition twilioAccepts : TwilioClient :=
  {| messages_create := fun _ => inr "SM0001" |}.

Definition user1 : User3fa := {| u3_id := "u_1" |}.

(** The same order delivered again under another webhook id. *)
Definition requestRedelivered : Request :=
  requestFor (Some "evt-3") "ORDERS_CREATE"
    (payloadWith (Some "+15550100") None None None).

Definition storedEvent : WebhookEvent :=
  {| we_id := "whe_0"; we_shopId := shop; we_topic := "orders/create";
     we_payload := payloadWith (Some "+15550100") None None None;
     we_processed := false; we_eventId := "evt-1";
     we_processedAt := None; we_lastError := None; we_errorCount := 0 |}.

End MoreSamples.

(** The unique keys ([shopifyLineItemId]) of the identities in the store. *)
Definition keysOf (d : Db) : list string :=
  map udi_shopifyLineItemId (uniqueDigitalIds d).

(** What issuance can see of the store when it decides what to create:
    ids and keys of the identities, the serial number, the variants. *)
Definition skeleton (d : Db) : list (string * string) * nat * list CoreProductVariant :=
  (map (fun r => (udi_id r, udi_shopifyLineItemId r)) (uniqueDigitalIds d),
   udiSerial d, coreProductVariants d).

Definition statusOf (id : string) (d : Db) : option UdiStatus :=
  option_map udi_status (uniqueDigitalId_findUnique id d).

(** A patch of [update] that leaves the id and the unique key alone. *)
Definition keepsIdentity (patch : UniqueDigitalId -> UniqueDigitalId) : Prop :=
  forall r, udi_id (patch r) = udi_id r
            /\ udi_shopifyLineItemId (patch r) = udi_shopifyLineItemId r.

(** The loop counters [0 .. n-1] of the inner [for]. *)
Definition counters (n : nat) : list Z := map Z.of_nat (seq 0 n).

(** The events a mint of identity [id] may leave in the trace: imports,
    chain calls, and status writes on [id] other than [CREATED]. *)
Definition mintEvent (id : string) (e : Event) : Prop :=
  match e with
  | EvUdiCreate _ => False
  | EvUdiStatus i s => i = id /\ s <> CREATED
  | EvImport _ => True
  | EvChainCall _ _ => True
  end.

Definition isChainCall (e : Event) : bool :=
  match e with
  | EvChainCall _ _ => true
  | _ => false
  end.

(** The parts of the store a mint never touches. *)
Definition sameFrame (d d' : Db) : Prop :=
  skeleton d' = skeleton d
  /\ orders3fas d' = orders3fas d
  /\ shopifyLineItems d' = shopifyLineItems d.

(** The skeleton after one row with key [k] was inserted. *)
Definition skeletonPlus (k : string) (d : Db)
  : list (string * string) * nat * list CoreProductVariant :=
  (map (fun r => (udi_id r, udi_shopifyLineItemId r)) (uniqueDigitalIds d)
     ++ [(udiKey (udiSerial d), k)],
   S (udiSerial d), coreProductVariants d).

(** Two runs of issuance agree when they counted the same and their
    stores look the same to issuance. *)
Definition agree (st1 st2 : DigitalIdService.Results * World) : Prop :=
  DigitalIdService.created (fst st1) = DigitalIdService.created (fst st2)
  /\ DigitalIdService.failed (fst st1) = DigitalIdService.failed (fst st2)
  /\ skeleton (db (snd st1)) = skeleton (db (snd st2)).

(** The variant a line item resolves to, if any: its variant reference
    is there, the variant is in the store and carries a brand. *)
Definition resolvedVariant (shop : string) (l : ShopifyLineItem) (d : Db)
  : option CoreProductVariant :=
  if negb (truthyBig (li_variantId l)) then None
  else
    match coreProductVariant_findFirst
            ("gid://shopify/ProductVariant/" +:+ pretty (default 0 (li_variantId l)))
            shop d with
    | Some v => if truthy (cpv_brand_3fa_id v) then Some v else None
    | None => None
    end.

(** What every pass of the loops keeps: keys are only added, they stay
    pairwise distinct, and the variants are not touched. *)
Definition extends (d d' : Db) : Prop :=
incl (keysOf d) (keysOf d')
/\ coreProductVariants d' = coreProductVariants d
/\ (NoDup (keysOf d) -> NoDup (keysOf d')).

(** The keys the inner [for] asks for in [n] passes from counter [i]. *)
Fixpoint unitKeys (l : ShopifyLineItem) (n : nat) (i : Z) : list string :=
  match n with
  | O => []
  | S n' => DigitalIdService.uniqueLineItemId l i :: unitKeys l n' (i + 1)
  end.

(** Created units minus stored identities: constant along a run,
    because a unit is counted exactly when its row is inserted. *)
Definition tally (st : DigitalIdService.Results * World) : Z :=
  DigitalIdService.created (fst st) - Z.of_nat (length (keysOf (db (snd st)))).

(** A request that passes the checks of intake: authenticated, shop,
    topic and payload there, a numeric order id, and the topic of order
    creation. *)
Definition wellFormed (rq : Intake.Request) (shop topic : string)
    (payload : PayloadOrder) (n : Z) : Prop :=
  Intake.authenticate_webhook rq
  = inr {| Intake.ctx_shop := Some shop; Intake.ctx_topic := Some topic;
           Intake.ctx_payload := Some payload |}
  /\ shop <> "" /\ topic <> ""
  /\ po_id payload = IdNumber n
  /\ underscoresToSlashes (toLowerCase topic) = "orders/create".

(** The stored events that carry a given dedup key. *)
Definition eventsWithKey (k : string) (d : Db) : list WebhookEvent :=
  List.filter (fun e => String.eqb (we_eventId e) k) (webhookEvents d).

(** The places intake looks for a phone, in the order it looks. *)
Definition phoneLocations (p : PayloadOrder) : list (option string) :=
  [ po_phone p;
    a ← po_shipping_address p; addr_phone a;
    a ← po_billing_address p; addr_phone a;
    c ← po_customer p; cust_phone c ].

(** The first value that is there ([null] and [undefined] are not). *)
Fixpoint firstPresent (vs : list (option string)) : option string :=
  match vs with
  | [] => None
  | Some v :: _ => Some v
  | None :: rest => firstPresent rest
  end.

(** The first value that is there and not empty. *)
Fixpoint firstNonEmpty (vs : list (option string)) : option string :=
  match vs with
  | [] => None
  | v :: rest => if truthy v then v else firstNonEmpty rest
  end.

(** The ids the store will hand out are not in use: every row got its
    id from the serial number. *)
Definition wellKeyed (d : Db) : Prop :=
  forall n, (udiSerial d <= n)%nat -> ~ In (udiKey n) (map udi_id (uniqueDigitalIds d)).

(** The chain calls of a trace. *)
Definition chainCalls (t : list Event) : list Event := List.filter isChainCall t.

(** A list of characters that does not start with white space. *)
Definition headOk (l : list ascii) : Prop :=
  match l with
  | [] => True
  | c :: _ => isSpace c = false
  end.

(** A string without white space at either end. *)
Definition trimmed (s : string) : Prop :=
  headOk (list_ascii_of_string s) /\ headOk (rev (list_ascii_of_string s)).

(** An identity as [createDigitalIdsForOrder] writes it for the order
    of [a]. *)
Definition issuedFor (a : DigitalIdService.OrderArgs) (r : UniqueDigitalId) : Prop :=
  udi_myshopify_domain r = DigitalIdService.shopId a
  /\ udi_shopifyOrderId r = "gid://shopify/Order/" +:+ DigitalIdService.shopifyOrderId a
  /\ udi_owner3faId r = DigitalIdService.owner3faId a
  /\ udi_orders3faId r = DigitalIdService.orders3faId a
  /\ udi_privyWalletAddress r = DigitalIdService.privyWalletAddress a
  /\ udi_privyDid r = DigitalIdService.privyDid a
  /\ udi_status r = CREATED.

(** The keys under which the units of a line item are stored: its gid
    [gid://shopify/LineItem/<id>] for quantity 1, the gid followed by
    [:1] .. [:n] for quantity n > 1. *)
Definition lineItemKeys (l : ShopifyLineItem) : list string :=
  let gid := "gid://shopify/LineItem/" +:+ pretty (li_shopifyId l) in
  if li_quantity l =? 1 then [gid]
  else map (fun i => gid +:+ ":" +:+ pretty (i + 1)) (counters (Z.to_nat (li_quantity l))).

(** The integers a JavaScript number holds exactly and prints in plain
    decimal ([Number.isSafeInteger]). *)
Definition safeInteger (n : Z) : Prop := - 2 ^ 53 < n < 2 ^ 53.

(** ** Facts about the store *)

Section StoreFacts.

Import TokenMinting.

Lemma find_key_None (k : string) (rows : list UniqueDigitalId) :
  find (fun r => String.eqb (udi_shopifyLineItemId r) k) rows = None
  <-> ~ In k (map udi_shopifyLineItemId rows).
Proof.
  induction rows as [|r rows IH]; simpl.
  - split; [intros _ []|reflexivity].
  - destruct (String.eqb_spec (udi_shopifyLineItemId r) k) as [E|E].
    + split; [discriminate|]. intros H. exfalso. apply H. now left.
    + rewrite IH. split.
      * intros H [H1|H1]; [congruence|contradiction].
      * intros H H1. apply H. now right.
Qed.

Lemma findByLineItem_None k d :
  uniqueDigitalId_findByLineItem k d = None <-> ~ In k (keysOf d).
Proof. apply find_key_None. Qed.

Lemma find_id_None (id : string) (rows : list UniqueDigitalId) :
  find (fun r => String.eqb (udi_id r) id) rows = None
  <-> ~ In id (map udi_id rows).
Proof.
  induction rows as [|r rows IH]; simpl.
  - split; [intros _ []|reflexivity].
  - destruct (String.eqb_spec (udi_id r) id) as [E|E].
    + split; [discriminate|]. intros H. exfalso. apply H. now left.
    + rewrite IH. split.
      * intros H [H1|H1]; [congruence|contradiction].
      * intros H H1. apply H. now right.
Qed.

Lemma skeleton_keys d1 d2 : skeleton d1 = skeleton d2 -> keysOf d1 = keysOf d2.
Proof.
  unfold skeleton, keysOf. intros H. injection H as H _ _.
  apply (f_equal (map snd)) in H. rewrite !map_map in H. exact H.
Qed.

Lemma skeleton_ids d1 d2 :
  skeleton d1 = skeleton d2 ->
  map udi_id (uniqueDigitalIds d1) = map udi_id (uniqueDigitalIds d2).
Proof.
  unfold skeleton. intros H. injection H as H _ _.
  apply (f_equal (map fst)) in H. rewrite !map_map in H. exact H.
Qed.

Lemma skeleton_findUnique id d1 d2 :
  skeleton d1 = skeleton d2 ->
  uniqueDigitalId_findUnique id d1 = None <-> uniqueDigitalId_findUnique id d2 = None.
Proof.
  intros H. unfold uniqueDigitalId_findUnique.
  rewrite !find_id_None, (skeleton_ids _ _ H). reflexivity.
Qed.

Lemma skeleton_findByLineItem k d1 d2 :
  skeleton d1 = skeleton d2 ->
  uniqueDigitalId_findByLineItem k d1 = None
  <-> uniqueDigitalId_findByLineItem k d2 = None.
Proof.
  intros H. rewrite !findByLineItem_None, (skeleton_keys _ _ H). reflexivity.
Qed.

Lemma map_patch_identity (id : string) patch (rows : list UniqueDigitalId) :
  keepsIdentity patch ->
  map (fun r => (udi_id r, udi_shopifyLineItemId r))
      (map (fun r => if String.eqb (udi_id r) id then patch r else r) rows)
  = map (fun r => (udi_id r, udi_shopifyLineItemId r)) rows.
Proof.
  intros K. rewrite map_map. apply map_ext. intros r.
  destruct (String.eqb (udi_id r) id); [|reflexivity].
  destruct (K r) as [-> ->]. reflexivity.
Qed.

(** An update that keeps id and key keeps everything issuance looks at,
    and every table but the identities. *)
Lemma update_skeleton id patch d d' :
  keepsIdentity patch ->
  uniqueDigitalId_update id patch d = inr d' ->
  skeleton d' = skeleton d
  /\ orders3fas d' = orders3fas d
  /\ shopifyLineItems d' = shopifyLineItems d.
Proof.
  intros K. unfold uniqueDigitalId_update.
  destruct (uniqueDigitalId_findUnique id d); [|discriminate].
  intros [= <-]. unfold skeleton; simpl.
  rewrite (map_patch_identity id patch _ K). auto.
Qed.

Lemma update_succeeds id patch d :
  uniqueDigitalId_findUnique id d <> None ->
  exists d', uniqueDigitalId_update id patch d = inr d'.
Proof.
  unfold uniqueDigitalId_update.
  destruct (uniqueDigitalId_findUnique id d); [eauto|congruence].
Qed.

Lemma update_fails id patch d :
  uniqueDigitalId_findUnique id d = None ->
  exists e, uniqueDigitalId_update id patch d = inl e.
Proof. unfold uniqueDigitalId_update. intros ->. eauto. Qed.

Lemma find_patched (id : string) patch (rows : list UniqueDigitalId) :
  (forall r, udi_id (patch r) = udi_id r) ->
  find (fun r => String.eqb (udi_id r) id)
       (map (fun r => if String.eqb (udi_id r) id then patch r else r) rows)
  = option_map patch (find (fun r => String.eqb (udi_id r) id) rows).
Proof.
  intros K. induction rows as [|r rows IH]; simpl; [reflexivity|].
  destruct (String.eqb (udi_id r) id) eqn:E.
  - rewrite K, E. reflexivity.
  - rewrite E. exact IH.
Qed.

(** Reading a row back after an update gives the patched row. *)
Lemma update_findUnique id patch d d' :
  (forall r, udi_id (patch r) = udi_id r) ->
  uniqueDigitalId_update id patch d = inr d' ->
  uniqueDigitalId_findUnique id d' = option_map patch (uniqueDigitalId_findUnique id d).
Proof.
  intros K. unfold uniqueDigitalId_update.
  destruct (uniqueDigitalId_findUnique id d) eqn:F; [|discriminate].
  intros [= <-]. unfold uniqueDigitalId_findUnique in *; simpl.
  rewrite find_patched by exact K. rewrite F. reflexivity.
Qed.

Lemma setStatus_keeps s : keepsIdentity (setStatus s).
Proof. intros r. split; reflexivity. Qed.

Lemma markMinted_keeps x tx address : keepsIdentity (markMinted x tx address).
Proof. intros r. split; reflexivity. Qed.

(** A successful insert: the row has the data's key and status, and
    the store grows by that one row. *)
Lemma create_inr c d row d' :
  uniqueDigitalId_create c d = inr (row, d') ->
  ~ In (ucd_shopifyLineItemId c) (keysOf d)
  /\ row = newUdi (udiKey (udiSerial d)) c
  /\ uniqueDigitalIds d' = uniqueDigitalIds d ++ [row]
  /\ udiSerial d' = S (udiSerial d)
  /\ coreProductVariants d' = coreProductVariants d
  /\ uniqueDigitalId_findUnique (udi_id row) d' <> None.
Proof.
  unfold uniqueDigitalId_create.
  destruct (uniqueDigitalId_findByLineItem _ d) eqn:F; [discriminate|].
  intros [= <- <-]. apply findByLineItem_None in F.
  repeat split; try assumption.
  unfold uniqueDigitalId_findUnique; simpl.
  rewrite find_id_None, map_app, in_app_iff. simpl. intros H. apply H.
  right. now left.
Qed.

Lemma create_inl c d e :
  uniqueDigitalId_create c d = inl e -> In (ucd_shopifyLineItemId c) (keysOf d).
Proof.
  unfold uniqueDigitalId_create.
  destruct (uniqueDigitalId_findByLineItem _ d) eqn:F; [|discriminate].
  intros _. destruct (in_dec string_dec (ucd_shopifyLineItemId c) (keysOf d)) as [I|I];
    [exact I|]. apply findByLineItem_None in I. congruence.
Qed.

Lemma create_taken c d :
  In (ucd_shopifyLineItemId c) (keysOf d) ->
  exists e, uniqueDigitalId_create c d = inl e.
Proof.
  intros I. unfold uniqueDigitalId_create.
  destruct (uniqueDigitalId_findByLineItem _ d) eqn:F; [eauto|].
  apply findByLineItem_None in F. contradiction.
Qed.

Lemma create_fresh c d :
  ~ In (ucd_shopifyLineItemId c) (keysOf d) ->
  exists row d', uniqueDigitalId_create c d = inr (row, d').
Proof.
  intros I. apply findByLineItem_None in I. unfold uniqueDigitalId_create.
  rewrite I. eauto.
Qed.

End StoreFacts.

(** ** Facts about minting *)

Section MintingFacts.

Import TokenMinting DigitalIdService.

Lemma sameFrame_refl d : sameFrame d d.
Proof. repeat split. Qed.

Lemma sameFrame_trans d1 d2 d3 : sameFrame d1 d2 -> sameFrame d2 d3 -> sameFrame d1 d3.
Proof.
  intros (A & B & C) (A' & B' & C'). repeat split; congruence.
Qed.

Lemma update_frame id patch d d' :
  keepsIdentity patch -> uniqueDigitalId_update id patch d = inr d' -> sameFrame d d'.
Proof. intros K U. exact (update_skeleton _ _ _ _ K U). Qed.

Lemma mintEvent_chain id e : isChainCall e = true -> mintEvent id e.
Proof. destruct e; simpl; try discriminate; auto. Qed.

(** The method loop only talks to the chain. *)
Lemma tryMintMethods_frame x call methods :
  forall lastError w receipt lastError' w',
    tryMintMethods x call methods lastError w = (receipt, lastError', w') ->
    db w' = db w
    /\ exists tail, trace w' = trace w ++ tail
                    /\ forallb isChainCall tail = true.
Proof.
  induction methods as [|m rest IH]; simpl; intros le w rc le' w' H.
  - injection H as _ _ <-. split; [reflexivity|]. exists [].
    now rewrite app_nil_r.
  - destruct (sendTransaction x (length (trace w)) (call m)) as [err|receipt].
    + apply IH in H. destruct H as (D & tail & T & F). simpl in D, T.
      split; [exact D|]. exists (EvChainCall (call m) (inl err) :: tail).
      rewrite T, <- app_assoc. split; [reflexivity|exact F].
    + injection H as _ _ <-. split; [reflexivity|].
      exists [EvChainCall (call m) (inr receipt)]. split; reflexivity.
Qed.

Lemma Forall_mintEvent_chain id tail :
  forallb isChainCall tail = true -> Forall (mintEvent id) tail.
Proof.
  intros F. apply Forall_forall. intros e I.
  apply mintEvent_chain. rewrite forallb_forall in F. apply F.
  apply list_elem_of_In. exact I.
Qed.

Lemma mintAttempt_frame x id w res w' :
  mintAttempt x id w = (res, w') ->
  sameFrame (db w) (db w')
  /\ exists tail, trace w' = trace w ++ tail /\ Forall (mintEvent id) tail.
Proof.
  assert (Hnil : sameFrame (db w) (db w)
                 /\ exists tail, trace w = trace w ++ tail /\ Forall (mintEvent id) tail).
  { split; [apply sameFrame_refl|]. exists []. now rewrite app_nil_r. }
  unfold mintAttempt.
  destruct (ensureEnv (env x)) as [e|me]; [intros [= <- <-]; exact Hnil|].
  destruct (uniqueDigitalId_findUnique id (db w)) as [r|]; [|intros [= <- <-]; exact Hnil].
  destruct (recipientOf r) as [recipient|]; [|intros [= <- <-]; exact Hnil].
  destruct (contractAddressOf x r (db w)) as [address|]; [|intros [= <- <-]; exact Hnil].
  destruct (thirdwebSetup x me address) as [e|]; [intros [= <- <-]; exact Hnil|].
  match goal with |- context [tryMintMethods x ?c mintMethods None w] =>
    destruct (tryMintMethods x c mintMethods None w) as [[receipt le] w1] eqn:T end.
  apply tryMintMethods_frame in T. destruct T as (D & tail & T & F).
  destruct receipt as [receipt|].
  - destruct (uniqueDigitalId_update id _ (db w1)) as [e|d] eqn:U.
    + intros [= <- <-]. rewrite D. split; [apply sameFrame_refl|].
      exists tail. split; [exact T|]. now apply Forall_mintEvent_chain.
    + intros [= <- <-]. simpl. split.
      * rewrite <- D. eapply update_frame; [|exact U]. apply markMinted_keeps.
      * exists (tail ++ [EvUdiStatus id MINTED]). rewrite T, app_assoc.
        split; [reflexivity|]. apply Forall_app. split.
        -- now apply Forall_mintEvent_chain.
        -- constructor; [|constructor]. simpl. split; [reflexivity|discriminate].
  - intros [= <- <-]. rewrite D. split; [apply sameFrame_refl|].
    exists tail. split; [exact T|]. now apply Forall_mintEvent_chain.
Qed.

(** [mintDigitalIdOnBase] never throws (it is a total function here)
    and touches nothing but the minting columns of the identity. *)
Lemma mintDigitalIdOnBase_frame x id w :
  sameFrame (db w) (db (snd (mintDigitalIdOnBase x id w)))
  /\ exists tail, trace (snd (mintDigitalIdOnBase x id w)) = trace w ++ tail
                  /\ Forall (mintEvent id) tail.
Proof.
  unfold mintDigitalIdOnBase.
  destruct (mintAttempt x id w) as [[error|tx] w1] eqn:A;
    apply mintAttempt_frame in A; destruct A as (Fr & tail & T & F); simpl.
  - destruct (uniqueDigitalId_update id (setStatus MINT_FAILED) (db w1)) as [e|d] eqn:U.
    + split; [exact Fr|]. eauto.
    + simpl. split.
      * eapply sameFrame_trans; [exact Fr|].
        eapply update_frame; [|exact U]. apply setStatus_keeps.
      * exists (tail ++ [EvUdiStatus id MINT_FAILED]). rewrite T, app_assoc.
        split; [reflexivity|]. apply Forall_app. split; [exact F|].
        constructor; [|constructor]. simpl. split; [reflexivity|discriminate].
  - split; [exact Fr|]. eauto.
Qed.

(** The trigger rejects exactly when the identity is not in the store;
    otherwise it returns, whatever the mint did. *)
Lemma queueTokenMinting_inl x id w e :
  queueTokenMinting x id w = inl e -> uniqueDigitalId_findUnique id (db w) = None.
Proof.
  unfold queueTokenMinting, uniqueDigitalId_update.
  destruct (uniqueDigitalId_findUnique id (db w)); [discriminate|reflexivity].
Qed.

Lemma queueTokenMinting_returns x id w :
  uniqueDigitalId_findUnique id (db w) <> None ->
  exists w', queueTokenMinting x id w = inr w'.
Proof.
  intros H. destruct (queueTokenMinting x id w) as [e|w'] eqn:Q; [|eauto].
  apply queueTokenMinting_inl in Q. contradiction.
Qed.

Lemma queueTokenMinting_frame x id w w' :
  queueTokenMinting x id w = inr w' ->
  sameFrame (db w) (db w')
  /\ exists tail, trace w' = trace w ++ EvUdiStatus id MINT_PENDING :: tail
                  /\ Forall (mintEvent id) tail.
Proof.
  unfold queueTokenMinting.
  destruct (uniqueDigitalId_update id (setStatus MINT_PENDING) (db w)) as [e|d] eqn:U;
    [discriminate|].
  pose proof (update_frame _ _ _ _ (setStatus_keeps MINT_PENDING) U) as Fr.
  intros [= <-]. unfold mintIfConfigured.
  destruct (_ || _).
  - simpl. split; [exact Fr|]. exists []. split; [reflexivity|constructor].
  - destruct (importMintingService x _) as [err|].
    + simpl. split; [exact Fr|].
      exists [EvImport (Some err)]. rewrite <- app_assoc. split; [reflexivity|].
      constructor; [exact I|constructor].
    + match goal with |- context [mintDigitalIdOnBase x id ?w0] =>
        destruct (mintDigitalIdOnBase_frame x id w0) as (Fr' & tail & T & F) end.
      split.
      * eapply sameFrame_trans; [exact Fr|exact Fr'].
      * exists (EvImport None :: tail). rewrite T. simpl. rewrite <- !app_assoc.
        split; [reflexivity|]. constructor; [exact I|exact F].
Qed.

End MintingFacts.

(** ** The minting state machine *)

Section MintingStateMachine.

Import TokenMinting DigitalIdService.

Lemma statusOf_update id patch d d' s :
  (forall r, udi_id (patch r) = udi_id r) ->
  (forall r, udi_status (patch r) = s) ->
  uniqueDigitalId_update id patch d = inr d' ->
  statusOf id d' = Some s.
Proof.
  intros K S U. unfold statusOf. rewrite (update_findUnique _ _ _ _ K U).
  unfold uniqueDigitalId_update in U.
  destruct (uniqueDigitalId_findUnique id d); [|discriminate].
  simpl. now rewrite S.
Qed.

Lemma sameFrame_findUnique id d d' :
  sameFrame d d' ->
  uniqueDigitalId_findUnique id d <> None -> uniqueDigitalId_findUnique id d' <> None.
Proof.
  intros (Sk & _) H H'. apply H.
  apply (skeleton_findUnique id _ _ Sk). exact H'.
Qed.

Lemma mintAttempt_inr x id w tx w' :
  mintAttempt x id w = (inr tx, w') -> statusOf id (db w') = Some MINTED.
Proof.
  unfold mintAttempt.
  destruct (ensureEnv (env x)) as [e|me]; [discriminate|].
  destruct (uniqueDigitalId_findUnique id (db w)) as [r|]; [|discriminate].
  destruct (recipientOf r) as [recipient|]; [|discriminate].
  destruct (contractAddressOf x r (db w)) as [address|]; [|discriminate].
  destruct (thirdwebSetup x me address) as [e|]; [discriminate|].
  destruct (tryMintMethods _ _ _ _ _) as [[[receipt|] le] w1]; [|discriminate].
  destruct (uniqueDigitalId_update id _ (db w1)) as [e|d] eqn:U; [discriminate|].
  intros [= _ <-]. simpl.
  eapply statusOf_update; [| |exact U]; reflexivity.
Qed.

(** A mint of a stored identity ends in [MINTED] when it reports
    success and in [MINT_FAILED] when it does not. *)
Lemma mintDigitalIdOnBase_status x id w :
  uniqueDigitalId_findUnique id (db w) <> None ->
  statusOf id (db (snd (mintDigitalIdOnBase x id w)))
  = Some (if success (fst (mintDigitalIdOnBase x id w)) then MINTED else MINT_FAILED).
Proof.
  intros H. unfold mintDigitalIdOnBase.
  destruct (mintAttempt x id w) as [[error|tx] w1] eqn:A; simpl.
  - destruct (mintAttempt_frame _ _ _ _ _ A) as (Fr & _).
    destruct (update_succeeds id (setStatus MINT_FAILED) (db w1)) as [d U].
    { eapply sameFrame_findUnique; eauto. }
    rewrite U. simpl. eapply statusOf_update; [| |exact U]; reflexivity.
  - eapply mintAttempt_inr; eauto.
Qed.

(** C7. When the minter private key, the client id or the app base
    URL is absent (or empty) and minting is triggered for a stored
    identity, the trigger returns without error, the identity is left
    at [MINT_PENDING], and the only thing that happened is that status
    write: no import of the minting service and no chain call. *)
Theorem unconfigured_mint_stays_pending x id w :
  uniqueDigitalId_findUnique id (db w) <> None ->
  truthy (BASE_MINTER_PRIVATE_KEY (env x)) = false
  \/ truthy (THIRDWEB_CLIENT_ID (env x)) = false
  \/ truthy (APP_BASE_URL (env x)) = false ->
  exists w',
    queueTokenMinting x id w = inr w'
    /\ statusOf id (db w') = Some MINT_PENDING
    /\ trace w' = trace w ++ [EvUdiStatus id MINT_PENDING]
    /\ sameFrame (db w) (db w').
Proof.
  intros Hrow Henv.
  destruct (update_succeeds id (setStatus MINT_PENDING) (db w) Hrow) as [d U].
  unfold queueTokenMinting, mintIfConfigured. rewrite U.
  assert (E : negb (truthy (BASE_MINTER_PRIVATE_KEY (env x)))
              || negb (truthy (THIRDWEB_CLIENT_ID (env x)))
              || negb (truthy (APP_BASE_URL (env x))) = true).
  { destruct Henv as [-> | [-> | ->]]; simpl;
      rewrite ?orb_true_r; reflexivity. }
  rewrite E. eexists. split; [reflexivity|]. simpl. repeat split.
  - eapply statusOf_update; [| |exact U]; reflexivity.
  - apply (update_frame _ _ _ _ (setStatus_keeps MINT_PENDING) U).
  - apply (update_frame _ _ _ _ (setStatus_keeps MINT_PENDING) U).
  - apply (update_frame _ _ _ _ (setStatus_keeps MINT_PENDING) U).
Qed.

(** C9. A mint attempt starts by writing [MINT_PENDING]: what the
    trigger does after that write (the check of the environment, the
    import of the minting service, the chain calls, the final status
    write) runs on the store in which the status is already
    [MINT_PENDING]; the trace is that status write followed by
    everything else, none of which sets a status back to [CREATED];
    and the status is not [CREATED] at the end.  The trigger rejects
    only when the identity is not in the store, and then nothing was
    attempted. *)
Theorem pending_precedes_external_calls x id w :
  match queueTokenMinting x id w with
  | inr w' =>
      exists d1 tail,
        uniqueDigitalId_update id (setStatus MINT_PENDING) (db w) = inr d1
        /\ statusOf id d1 = Some MINT_PENDING
        /\ w' = mintIfConfigured x id (emit (EvUdiStatus id MINT_PENDING) (withDb w d1))
        /\ trace w' = trace w ++ EvUdiStatus id MINT_PENDING :: tail
        /\ Forall (mintEvent id) tail
        /\ exists s, statusOf id (db w') = Some s /\ s <> CREATED
  | inl _ => uniqueDigitalId_findUnique id (db w) = None
  end.
Proof.
  destruct (queueTokenMinting x id w) as [e|w'] eqn:Q.
  - eapply queueTokenMinting_inl; eauto.
  - destruct (queueTokenMinting_frame _ _ _ _ Q) as (_ & tail & T & F).
    unfold queueTokenMinting in Q.
    destruct (uniqueDigitalId_update id (setStatus MINT_PENDING) (db w)) as [e|d1] eqn:U;
      [discriminate|].
    assert (S1 : statusOf id d1 = Some MINT_PENDING).
    { eapply statusOf_update; [| |exact U]; reflexivity. }
    injection Q as Q.
    exists d1, tail. repeat split; try assumption; [now symmetry|].
    rewrite <- Q. unfold mintIfConfigured. destruct (_ || _).
    + simpl. exists MINT_PENDING. split; [exact S1|discriminate].
    + destruct (importMintingService x _) as [err|].
      * simpl. exists MINT_PENDING. split; [exact S1|discriminate].
      * rewrite mintDigitalIdOnBase_status.
        -- eexists. split; [reflexivity|]. destruct (success _); discriminate.
        -- simpl. unfold statusOf in S1.
           destruct (uniqueDigitalId_findUnique id d1); [discriminate|discriminate].
Qed.

End MintingStateMachine.

Section MintFallback.

Import TokenMinting.

Lemma update_found id patch d r :
  uniqueDigitalId_findUnique id d = Some r ->
  (forall r0, udi_id (patch r0) = udi_id r0) ->
  exists d', uniqueDigitalId_update id patch d = inr d'
             /\ uniqueDigitalId_findUnique id d' = Some (patch r).
Proof.
  intros F K.
  destruct (update_succeeds id patch d) as [d' U]; [congruence|].
  exists d'. split; [exact U|].
  rewrite (update_findUnique _ _ _ _ K U), F. reflexivity.
Qed.


End MintFallback.

(** ** Facts about identity issuance *)

Section IssuanceFacts.

Import TokenMinting DigitalIdService.

Lemma skeleton_serial d1 d2 : skeleton d1 = skeleton d2 -> udiSerial d1 = udiSerial d2.
Proof. unfold skeleton. now intros [= _ -> _]. Qed.

Lemma skeleton_variants d1 d2 :
  skeleton d1 = skeleton d2 -> coreProductVariants d1 = coreProductVariants d2.
Proof. unfold skeleton. now intros [= _ _ ->]. Qed.

Lemma skeletonPlus_ext k d1 d2 :
  skeleton d1 = skeleton d2 -> skeletonPlus k d1 = skeletonPlus k d2.
Proof. unfold skeleton, skeletonPlus. now intros [= -> -> ->]. Qed.

Lemma skeletonPlus_keys k d d' :
  skeleton d' = skeletonPlus k d -> keysOf d' = keysOf d ++ [k].
Proof.
  unfold skeleton, skeletonPlus, keysOf. intros [= H _ _].
  apply (f_equal (map snd)) in H. rewrite map_app, !map_map in H. exact H.
Qed.

(** A unit whose key is taken: the insert is rejected, the pass throws,
    nothing changes. *)
Lemma createUnit_taken x a l v i res w :
  In (uniqueLineItemId l i) (keysOf (db w)) ->
  exists e, createUnit x a l v i (res, w) = (Some e, (res, w)).
Proof.
  intros I. unfold createUnit.
  destruct (create_taken (unitData x a l v i) (db w) I) as [e ->]. eauto.
Qed.

(** A unit whose key is free: one row is inserted at [CREATED] under
    that key, its minting is triggered, and the unit counts as created
    whatever the mint did. *)
Lemma createUnit_fresh x a l v i res w :
  ~ In (uniqueLineItemId l i) (keysOf (db w)) ->
  exists row w',
    createUnit x a l v i (res, w) = (None, (addCreated row res, w'))
    /\ row = newUdi (udiKey (udiSerial (db w))) (unitData x a l v i)
    /\ skeleton (db w') = skeletonPlus (uniqueLineItemId l i) (db w)
    /\ exists tail,
         trace w' = trace w ++ EvUdiCreate row :: EvUdiStatus (udi_id row) MINT_PENDING :: tail
         /\ Forall (mintEvent (udi_id row)) tail.
Proof.
  intros I. unfold createUnit.
  destruct (create_fresh (unitData x a l v i) (db w) I) as (row & d & C).
  rewrite C. apply create_inr in C.
  destruct C as (_ & Hrow & Hrows & Hser & Hvar & Hfound).
  destruct (queueTokenMinting_returns x (udi_id row)
              (emit (EvUdiCreate row) (withDb w d)) Hfound) as [w' Q].
  rewrite Q. exists row, w'. split; [reflexivity|]. split; [exact Hrow|].
  destruct (queueTokenMinting_frame _ _ _ _ Q) as ((Sk & _) & tail & T & F).
  split.
  - rewrite Sk. simpl. unfold skeleton, skeletonPlus.
    rewrite Hrows, Hser, Hvar, map_app. simpl. rewrite Hrow. reflexivity.
  - exists tail. split; [|exact F]. rewrite T. simpl. rewrite <- app_assoc. reflexivity.
Qed.

Lemma createUnit_world_cases x a l v i res w :
  (exists e, createUnit x a l v i (res, w) = (Some e, (res, w))
             /\ In (uniqueLineItemId l i) (keysOf (db w)))
  \/ (exists row w', createUnit x a l v i (res, w) = (None, (addCreated row res, w'))
                     /\ keysOf (db w') = keysOf (db w) ++ [uniqueLineItemId l i]
                     /\ coreProductVariants (db w') = coreProductVariants (db w)
                     /\ ~ In (uniqueLineItemId l i) (keysOf (db w))).
Proof.
  destruct (in_dec string_dec (uniqueLineItemId l i) (keysOf (db w))) as [I|I].
  - left. destruct (createUnit_taken x a l v i res w I) as [e E]. eauto.
  - right. destruct (createUnit_fresh x a l v i res w I) as (row & w' & E & _ & Sk & _).
    exists row, w'. repeat split; try assumption.
    + now apply skeletonPlus_keys.
    + apply (f_equal snd) in Sk. exact Sk.
Qed.

End IssuanceFacts.

Section IssuanceRuns.

Import TokenMinting DigitalIdService.

Lemma extends_refl d : extends d d.
Proof. repeat split; auto. apply incl_refl. Qed.

Lemma extends_trans d1 d2 d3 : extends d1 d2 -> extends d2 d3 -> extends d1 d3.
Proof.
  intros (A & B & C) (A' & B' & C'). repeat split.
  - eapply incl_tran; eauto.
  - congruence.
  - auto.
Qed.

Lemma createUnit_extends x a l v i st :
  extends (db (snd st)) (db (snd (snd (createUnit x a l v i st)))).
Proof.
  destruct st as [res w].
  destruct (createUnit_world_cases x a l v i res w)
    as [(e & -> & _)|(row & w' & -> & K & V & Fresh)]; simpl.
  - apply extends_refl.
  - repeat split.
    + rewrite K. apply incl_appl, incl_refl.
    + exact V.
    + intros N. rewrite K. apply NoDup_app. repeat split.
      * exact N.
      * intros k Ik Ik'. apply list_elem_of_In in Ik, Ik'. simpl in Ik'.
        destruct Ik' as [<-|[]]. contradiction.
      * apply NoDup_singleton.
Qed.

Lemma unitLoop_extends x a l v n :
  forall i st, extends (db (snd st)) (db (snd (snd (unitLoop x a l v n i st)))).
Proof.
  induction n as [|n IH]; intros i st; simpl.
  - apply extends_refl.
  - pose proof (createUnit_extends x a l v i st) as E.
    destruct (createUnit x a l v i st) as [[e|] st']; simpl in *.
    + exact E.
    + eapply extends_trans; [exact E|apply IH].
Qed.

Lemma processLineItem_extends x a st l :
  extends (db (snd st)) (db (snd (processLineItem x a st l))).
Proof.
  unfold processLineItem.
  destruct (negb (truthyBig (li_variantId l))); [apply extends_refl|].
  destruct (coreProductVariant_findFirst _ _ _) as [v|]; [|apply extends_refl].
  destruct (negb (truthy (cpv_brand_3fa_id v))); [apply extends_refl|].
  pose proof (unitLoop_extends x a l v (Z.to_nat (li_quantity l)) 0 st) as E.
  destruct (unitLoop x a l v _ 0 st) as [[e|] [res w]]; exact E.
Qed.

Lemma fold_processLineItem_extends x a items :
  forall st, extends (db (snd st)) (db (snd (fold_left (processLineItem x a) items st))).
Proof.
  induction items as [|l items IH]; intros st; simpl.
  - apply extends_refl.
  - eapply extends_trans; [apply processLineItem_extends|apply IH].
Qed.

(** How [processLineItem] reads through [resolvedVariant]. *)
Lemma processLineItem_unresolved x a st l :
  resolvedVariant (shopId a) l (db (snd st)) = None ->
  processLineItem x a st l
  = if negb (truthyBig (li_variantId l)) then st
    else (addFailed (li_quantity l) (fst st), snd st).
Proof.
  unfold resolvedVariant, processLineItem.
  destruct (negb (truthyBig (li_variantId l))); [reflexivity|].
  destruct (coreProductVariant_findFirst _ _ _) as [v|]; [|reflexivity].
  destruct (truthy (cpv_brand_3fa_id v)); [discriminate|reflexivity].
Qed.

Lemma processLineItem_resolved x a st l v :
  resolvedVariant (shopId a) l (db (snd st)) = Some v ->
  processLineItem x a st l
  = match unitLoop x a l v (Z.to_nat (li_quantity l)) 0 st with
    | (None, st') => st'
    | (Some _, (res, w)) => (addFailed (li_quantity l) res, w)
    end.
Proof.
  unfold resolvedVariant, processLineItem.
  destruct (negb (truthyBig (li_variantId l))); [discriminate|].
  destruct (coreProductVariant_findFirst _ _ _) as [v'|]; [|discriminate].
  destruct (truthy (cpv_brand_3fa_id v')); [|discriminate].
  intros [= ->]. reflexivity.
Qed.

Lemma resolvedVariant_ext shop l d d' :
  coreProductVariants d' = coreProductVariants d ->
  resolvedVariant shop l d' = resolvedVariant shop l d.
Proof.
  intros V. unfold resolvedVariant, coreProductVariant_findFirst. now rewrite V.
Qed.

(** After a resolved line item of quantity at least one was processed,
    the key of its first unit is in the store. *)
Lemma processLineItem_first_key x a st l v :
  resolvedVariant (shopId a) l (db (snd st)) = Some v ->
  0 < li_quantity l ->
  In (uniqueLineItemId l 0) (keysOf (db (snd (processLineItem x a st l)))).
Proof.
  intros R Q. rewrite (processLineItem_resolved _ _ _ _ _ R).
  destruct (Z.to_nat (li_quantity l)) as [|n] eqn:N; [lia|].
  destruct st as [res w]. cbn [unitLoop snd].
  destruct (createUnit_world_cases x a l v 0 res w)
    as [(e & -> & I)|(row & w' & -> & K & _ & _)].
  - exact I.
  - pose proof (unitLoop_extends x a l v n (0 + 1) (addCreated row res, w')) as (Inc & _).
    assert (I : In (uniqueLineItemId l 0) (keysOf (db w'))).
    { rewrite K. apply in_or_app. right. now left. }
    apply Inc in I. simpl in I.
    destruct (unitLoop x a l v n (0 + 1) (addCreated row res, w')) as [[e|] [res' w'']];
      exact I.
Qed.

(** A line item whose first key is taken (or that does not resolve, or
    has no unit) creates nothing and leaves the world as it is. *)
Lemma processLineItem_noop x a res w l :
  (forall v, resolvedVariant (shopId a) l (db w) = Some v ->
             0 < li_quantity l -> In (uniqueLineItemId l 0) (keysOf (db w))) ->
  exists res',
    processLineItem x a (res, w) l = (res', w)
    /\ created res' = created res /\ digitalIds res' = digitalIds res.
Proof.
  intros H.
  destruct (resolvedVariant (shopId a) l (db w)) as [v|] eqn:R.
  - rewrite (processLineItem_resolved x a (res, w) l v R).
    destruct (Z.to_nat (li_quantity l)) as [|n] eqn:N; cbn [unitLoop].
    + eauto.
    + destruct (createUnit_taken x a l v 0 res w) as [e ->].
      { apply (H v eq_refl). lia. }
      eexists. split; [reflexivity|]. split; reflexivity.
  - rewrite (processLineItem_unresolved x a (res, w) l R).
    destruct (negb (truthyBig (li_variantId l))); eexists; split; try reflexivity;
      split; reflexivity.
Qed.

End IssuanceRuns.

(** ** Issuance: re-runs and quantity expansion *)

Section IssuanceClaims.

Import TokenMinting DigitalIdService.

Lemma fold_first_keys x a items :
  forall st l v,
    In l items ->
    resolvedVariant (shopId a) l (db (snd st)) = Some v ->
    0 < li_quantity l ->
    In (uniqueLineItemId l 0)
       (keysOf (db (snd (fold_left (processLineItem x a) items st)))).
Proof.
  induction items as [|l0 items IH]; intros st l v I R Q; [destruct I|].
  simpl. destruct I as [->|I].
  - pose proof (processLineItem_first_key x a st l v R Q) as K.
    destruct (fold_processLineItem_extends x a items (processLineItem x a st l)) as (Inc & _).
    apply Inc, K.
  - apply (IH _ l v I); [|exact Q].
    destruct (processLineItem_extends x a st l0) as (_ & V & _).
    rewrite (resolvedVariant_ext _ _ _ _ V). exact R.
Qed.

Lemma fold_noop x a items :
  forall res w,
    (forall l v, In l items -> resolvedVariant (shopId a) l (db w) = Some v ->
                 0 < li_quantity l -> In (uniqueLineItemId l 0) (keysOf (db w))) ->
    exists res',
      fold_left (processLineItem x a) items (res, w) = (res', w)
      /\ created res' = created res /\ digitalIds res' = digitalIds res.
Proof.
  induction items as [|l items IH]; intros res w H; simpl.
  - eauto.
  - destruct (processLineItem_noop x a res w l) as (res1 & -> & C1 & D1).
    { intros v R Q. apply (H l v); auto. now left. }
    destruct (IH res1 w) as (res' & -> & C & D).
    { intros l' v I. apply H. now right. }
    exists res'. split; [reflexivity|]. split; congruence.
Qed.

(** C2. Running [createDigitalIdsForOrder] a second time with the same
    arguments (whatever the environment and the chain do meanwhile)
    leaves the world exactly as the first run left it: no identity is
    added, none is changed, none is minted again; the second run reports
    nothing created.  Pairwise distinct keys stay pairwise distinct, so
    there is at most one identity per line-item unit. *)
Theorem issuance_rerun_is_noop x1 x2 a w :
  let w1 := snd (createDigitalIdsForOrder x1 a w) in
  let second := createDigitalIdsForOrder x2 a w1 in
  snd second = w1
  /\ created (fst second) = 0
  /\ digitalIds (fst second) = []
  /\ (NoDup (keysOf (db w)) -> NoDup (keysOf (db w1))).
Proof.
  intros w1 second. subst second. unfold createDigitalIdsForOrder in *.
  destruct (fold_noop x2 a (lineItems a) emptyResults w1) as (res' & E & C & D).
  { intros l v I R Q. subst w1.
    apply (fold_first_keys x1 a (lineItems a) (emptyResults, w) l v I); [|exact Q].
    destruct (fold_processLineItem_extends x1 a (lineItems a) (emptyResults, w)) as (_ & V & _).
    rewrite <- (resolvedVariant_ext _ _ _ _ V). exact R. }
  rewrite E. simpl. repeat split; try assumption.
  subst w1. apply (fold_processLineItem_extends x1 a (lineItems a) (emptyResults, w)).
Qed.

Lemma unitKeys_counters l n :
  forall i, unitKeys l n i = map (fun k => uniqueLineItemId l (i + k)) (counters n).
Proof.
  unfold counters. induction n as [|n IH]; intros i; [reflexivity|].
  simpl. rewrite Z.add_0_r. f_equal. rewrite IH, <- seq_shift, !map_map.
  apply map_ext. intros k. f_equal. lia.
Qed.

Lemma uniqueLineItemId_inj l i j :
  1 < li_quantity l -> uniqueLineItemId l i = uniqueLineItemId l j -> i = j.
Proof.
  intros Q. unfold uniqueLineItemId.
  destruct (Z.ltb_spec 1 (li_quantity l)); [|lia].
  intros E. apply (inj (String.app _)) in E. apply (inj (String.app _)) in E.
  apply (inj pretty) in E. lia.
Qed.

Lemma unitKeys_In l n : forall i k, In k (unitKeys l n i) ->
  exists j, i <= j < i + Z.of_nat n /\ k = uniqueLineItemId l j.
Proof.
  induction n as [|n IH]; intros i k; simpl; [intros []|].
  intros [<-|I].
  - exists i. split; [lia|reflexivity].
  - destruct (IH _ _ I) as (j & B & ->). exists j. split; [lia|reflexivity].
Qed.

Lemma unitKeys_NoDup l n :
  1 < li_quantity l \/ (n <= 1)%nat ->
  forall i, NoDup (unitKeys l n i).
Proof.
  intros H. induction n as [|n IH]; intros i; simpl; [constructor|].
  constructor.
  - intros I. apply list_elem_of_In in I.
    destruct (unitKeys_In _ _ _ _ I) as (j & B & E).
    destruct H as [Q|Q].
    + apply (uniqueLineItemId_inj l i j Q) in E. lia.
    + destruct n; [destruct I|lia].
  - apply IH. destruct H as [Q|Q]; [now left|right; lia].
Qed.

(** The inner loop on free keys: every pass inserts and counts. *)
Lemma unitLoop_fresh x a l v n :
  forall i res w,
    NoDup (unitKeys l n i) ->
    (forall k, In k (unitKeys l n i) -> ~ In k (keysOf (db w))) ->
    exists rows w',
      unitLoop x a l v n i (res, w)
      = (None, ({| created := created res + Z.of_nat n; failed := failed res;
                   digitalIds := digitalIds res ++ rows |}, w'))
      /\ map udi_shopifyLineItemId rows = unitKeys l n i
      /\ Forall (fun r => udi_status r = CREATED) rows
      /\ keysOf (db w') = keysOf (db w) ++ unitKeys l n i.
Proof.
  induction n as [|n IH]; intros i res w N F.
  - exists [], w. cbn [unitLoop unitKeys]. rewrite !app_nil_r.
    destruct res as [c f ids]. cbn. rewrite Z.add_0_r. repeat split. constructor.
  - cbn [unitLoop unitKeys] in *.
    apply NoDup_cons in N. destruct N as [Nhead N].
    destruct (createUnit_fresh x a l v i res w) as (row & w1 & -> & Hrow & Sk & _).
    { apply F. now left. }
    apply skeletonPlus_keys in Sk.
    destruct (IH (i + 1) (addCreated row res) w1 N) as (rows & w' & -> & Hk & Hs & Hkeys).
    { intros k I. rewrite Sk, in_app_iff. intros [I'|[<-|[]]].
      - apply (F k); [now right|exact I'].
      - apply Nhead. apply list_elem_of_In. exact I. }
    exists (row :: rows), w'. repeat split.
    + f_equal. f_equal. unfold addCreated; cbn. f_equal; [lia|].
      now rewrite <- app_assoc.
    + cbn [map]. rewrite Hk, Hrow. reflexivity.
    + constructor; [rewrite Hrow; reflexivity|exact Hs].
    + rewrite Hkeys, Sk, <- app_assoc. reflexivity.
Qed.

(** C8. A line item with quantity n >= 1 that resolves to a variant,
    issued when none of its unit keys is in the store yet, yields
    exactly n identities, inserted at status [CREATED], counted as n
    created and none failed, with pairwise distinct keys: the line-item
    gid [gid://shopify/LineItem/<id>] alone for n = 1, and the gid
    followed by [:1] .. [:n] for n > 1. *)
Theorem quantity_expansion x a l v res w :
  1 <= li_quantity l ->
  resolvedVariant (shopId a) l (db w) = Some v ->
  let gid := "gid://shopify/LineItem/" +:+ pretty (li_shopifyId l) in
  let keys :=
    if li_quantity l =? 1 then [gid]
    else map (fun i => gid +:+ ":" +:+ pretty (i + 1))
             (counters (Z.to_nat (li_quantity l))) in
  (forall k, In k keys -> ~ In k (keysOf (db w))) ->
  exists rows w',
    processLineItem x a (res, w) l
    = ({| created := created res + li_quantity l; failed := failed res;
          digitalIds := digitalIds res ++ rows |}, w')
    /\ Z.of_nat (length rows) = li_quantity l
    /\ Forall (fun r => udi_status r = CREATED) rows
    /\ NoDup keys
    /\ map udi_shopifyLineItemId rows = keys
    /\ keysOf (db w') = keysOf (db w) ++ keys.
Proof.
  intros Q R gid keys F.
  rewrite (processLineItem_resolved x a (res, w) l v R).
  set (n := Z.to_nat (li_quantity l)).
  assert (K : unitKeys l n 0 = keys).
  { rewrite unitKeys_counters. subst keys gid. unfold uniqueLineItemId, shopifyLineItemGid.
    destruct (Z.eqb_spec (li_quantity l) 1) as [E|E].
    - subst n. rewrite E. reflexivity.
    - destruct (Z.ltb_spec 1 (li_quantity l)); [|lia]. reflexivity. }
  assert (N : NoDup (unitKeys l n 0)).
  { apply unitKeys_NoDup. subst n. lia. }
  destruct (unitLoop_fresh x a l v n 0 res w N) as (rows & w' & -> & Hk & Hs & Hkeys).
  { intros k I. apply F. rewrite <- K. exact I. }
  exists rows, w'. repeat split.
  - f_equal. f_equal. subst n. lia.
  - rewrite <- (length_map udi_shopifyLineItemId), Hk, unitKeys_counters.
    unfold counters. rewrite !length_map, length_seq. subst n. lia.
  - exact Hs.
  - rewrite <- K. exact N.
  - rewrite Hk. exact K.
  - rewrite Hkeys, K. reflexivity.
Qed.

End IssuanceClaims.

(** ** Issuance does not depend on minting *)

Section IssuanceIgnoresMinting.

Import TokenMinting DigitalIdService.

Lemma agree_keys st1 st2 :
  agree st1 st2 -> keysOf (db (snd st1)) = keysOf (db (snd st2)).
Proof. intros (_ & _ & Sk). now apply skeleton_keys. Qed.

Lemma createUnit_agree x1 x2 a1 a2 l v1 v2 i st1 st2 :
  agree st1 st2 ->
  (fst (createUnit x1 a1 l v1 i st1) = None <-> fst (createUnit x2 a2 l v2 i st2) = None)
  /\ agree (snd (createUnit x1 a1 l v1 i st1)) (snd (createUnit x2 a2 l v2 i st2)).
Proof.
  intros A. pose proof (agree_keys _ _ A) as K.
  destruct A as (C & Fl & Sk). destruct st1 as [r1 w1], st2 as [r2 w2].
  cbn [fst snd] in *.
  destruct (in_dec string_dec (uniqueLineItemId l i) (keysOf (db w1))) as [I|I].
  - destruct (createUnit_taken x1 a1 l v1 i r1 w1 I) as [e1 ->].
    rewrite K in I. destruct (createUnit_taken x2 a2 l v2 i r2 w2 I) as [e2 ->].
    simpl. split; [split; discriminate|]. repeat split; assumption.
  - destruct (createUnit_fresh x1 a1 l v1 i r1 w1 I) as (row1 & w1' & -> & _ & Sk1 & _).
    rewrite K in I.
    destruct (createUnit_fresh x2 a2 l v2 i r2 w2 I) as (row2 & w2' & -> & _ & Sk2 & _).
    simpl. split; [split; reflexivity|]. repeat split; simpl; try congruence.
    rewrite Sk1, Sk2. now apply skeletonPlus_ext.
Qed.

Lemma unitLoop_agree x1 x2 a1 a2 l v1 v2 n :
  forall i st1 st2,
    agree st1 st2 ->
    (fst (unitLoop x1 a1 l v1 n i st1) = None <-> fst (unitLoop x2 a2 l v2 n i st2) = None)
    /\ agree (snd (unitLoop x1 a1 l v1 n i st1)) (snd (unitLoop x2 a2 l v2 n i st2)).
Proof.
  induction n as [|n IH]; intros i st1 st2 A; cbn [unitLoop].
  - simpl. split; [split; reflexivity|exact A].
  - destruct (createUnit_agree x1 x2 a1 a2 l v1 v2 i st1 st2 A) as (E & A').
    destruct (createUnit x1 a1 l v1 i st1) as [[e1|] st1'],
             (createUnit x2 a2 l v2 i st2) as [[e2|] st2']; simpl in *.
    + split; [split; discriminate|exact A'].
    + destruct E as [_ E]. discriminate (E eq_refl).
    + destruct E as [E _]. discriminate (E eq_refl).
    + apply IH, A'.
Qed.

Lemma addFailed_agree n st1 st2 :
  agree st1 st2 ->
  agree (addFailed n (fst st1), snd st1) (addFailed n (fst st2), snd st2).
Proof. intros (C & F & Sk). repeat split; simpl; congruence. Qed.

Lemma processLineItem_agree x1 x2 a1 a2 st1 st2 l :
  shopId a1 = shopId a2 ->
  agree st1 st2 ->
  agree (processLineItem x1 a1 st1 l) (processLineItem x2 a2 st2 l).
Proof.
  intros S A. unfold processLineItem.
  destruct (negb (truthyBig (li_variantId l))); [exact A|].
  assert (V : coreProductVariants (db (snd st1)) = coreProductVariants (db (snd st2))).
  { destruct A as (_ & _ & Sk). now apply skeleton_variants. }
  unfold coreProductVariant_findFirst. rewrite V, S.
  destruct (find _ (coreProductVariants (db (snd st2)))) as [v|];
    [|now apply addFailed_agree].
  destruct (negb (truthy (cpv_brand_3fa_id v))); [now apply addFailed_agree|].
  destruct (unitLoop_agree x1 x2 a1 a2 l v v (Z.to_nat (li_quantity l)) 0 st1 st2 A)
    as (E & A').
  destruct (unitLoop x1 a1 l v _ 0 st1) as [[e1|] [r1 w1]],
           (unitLoop x2 a2 l v _ 0 st2) as [[e2|] [r2 w2]]; simpl in *.
  - apply (addFailed_agree (li_quantity l) (r1, w1) (r2, w2) A').
  - destruct E as [_ E]. discriminate (E eq_refl).
  - destruct E as [E _]. discriminate (E eq_refl).
  - exact A'.
Qed.

Lemma fold_agree x1 x2 a1 a2 items :
  shopId a1 = shopId a2 ->
  forall st1 st2,
    agree st1 st2 ->
    agree (fold_left (processLineItem x1 a1) items st1)
          (fold_left (processLineItem x2 a2) items st2).
Proof.
  intros S. induction items as [|l items IH]; intros st1 st2 A; simpl; [exact A|].
  apply IH. now apply processLineItem_agree.
Qed.

Lemma createUnit_tally x a l v i st :
  tally (snd (createUnit x a l v i st)) = tally st.
Proof.
  destruct st as [res w].
  destruct (createUnit_world_cases x a l v i res w)
    as [(e & -> & _)|(row & w' & -> & K & _ & _)]; [reflexivity|].
  unfold tally. simpl. rewrite K, length_app. simpl. lia.
Qed.

Lemma unitLoop_tally x a l v n :
  forall i st, tally (snd (unitLoop x a l v n i st)) = tally st.
Proof.
  induction n as [|n IH]; intros i st; cbn [unitLoop]; [reflexivity|].
  pose proof (createUnit_tally x a l v i st) as T.
  destruct (createUnit x a l v i st) as [[e|] st']; simpl in *; [exact T|].
  now rewrite IH.
Qed.

Lemma processLineItem_tally x a st l :
  tally (processLineItem x a st l) = tally st.
Proof.
  unfold processLineItem.
  destruct (negb (truthyBig (li_variantId l))); [reflexivity|].
  destruct (coreProductVariant_findFirst _ _ _) as [v|]; [|reflexivity].
  destruct (negb (truthy (cpv_brand_3fa_id v))); [reflexivity|].
  pose proof (unitLoop_tally x a l v (Z.to_nat (li_quantity l)) 0 st) as T.
  destruct (unitLoop x a l v _ 0 st) as [[e|] [res w]]; exact T.
Qed.

Lemma fold_tally x a items :
  forall st, tally (fold_left (processLineItem x a) items st) = tally st.
Proof.
  induction items as [|l items IH]; intros st; simpl; [reflexivity|].
  now rewrite IH, processLineItem_tally.
Qed.

End IssuanceIgnoresMinting.

(** ** Identity issuance inside the worker *)

Section WorkerClaims.

Import TokenMinting DigitalIdService Worker.

Lemma orders_find_patched (id : string) patch (rows : list Orders3fa) :
  (forall o, o3_id (patch o) = o3_id o) ->
  find (fun o => String.eqb (o3_id o) id)
       (map (fun o => if String.eqb (o3_id o) id then patch o else o) rows)
  = option_map patch (find (fun o => String.eqb (o3_id o) id) rows).
Proof.
  intros K. induction rows as [|o rows IH]; simpl; [reflexivity|].
  destruct (String.eqb (o3_id o) id) eqn:E.
  - rewrite K, E. reflexivity.
  - rewrite E. exact IH.
Qed.

Lemma setOrderStatus_found id s w :
  orders3fa_find id (db w) <> None ->
  exists w', setOrderStatus id s w = inr w'
             /\ option_map o3_status (orders3fa_find id (db w')) = Some s
             /\ uniqueDigitalIds (db w') = uniqueDigitalIds (db w)
             /\ trace w' = trace w.
Proof.
  unfold setOrderStatus, orders3fa_updateStatus, orders3fa_find.
  destruct (find _ (orders3fas (db w))) as [o|] eqn:F; [|congruence].
  intros _. eexists. split; [reflexivity|]. simpl.
  rewrite orders_find_patched by reflexivity. rewrite F. repeat split.
Qed.

Lemma no_order_record_no_status issue user3fa orderDbId shop oid wallet did w :
  createDigitalIdsStep issue user3fa None orderDbId shop oid wallet did w = inr w.
Proof. unfold createDigitalIdsStep. destruct user3fa, orderDbId; reflexivity. Qed.

(** C3. In step 6 the status the order ends with is decided as
    follows.  With the order record there and in the store: when the
    user and the mirrored order are there too, by what the issuer
    returns: no failed unit gives [COMPLETED], whatever was created;
    failed units and at least one created give [PARTIALLY_COMPLETED];
    failed units and none created give [FAILED_UDI_CREATION]; an
    exception thrown by the issuer gives [FAILED_UDI_CREATION_ERROR];
    when the user or the mirrored order is missing,
    [FAILED_PREREQUISITES_FOR_UDI].  Without the order record the step
    returns with the world as it was: nothing is written. *)
Theorem order_status_from_issuance issue user3fa orders3fa orderDbId shop oid wallet did w :
  (forall a w0, orders3fas (db (snd (issue a w0))) = orders3fas (db w0)) ->
  match orders3fa with
  | Some o =>
      orders3fa_find (o3_id o) (db w) <> None ->
      exists w',
        createDigitalIdsStep issue user3fa (Some o) orderDbId shop oid wallet did w = inr w'
        /\ option_map o3_status (orders3fa_find (o3_id o) (db w'))
           = Some match user3fa, orderDbId with
                  | Some u, Some dbId =>
                      match fst (issue (issuerArgs u o dbId shop oid wallet did w) w) with
                      | inr counts =>
                          if failed counts =? 0 then COMPLETED
                          else if 0 <? created counts then PARTIALLY_COMPLETED
                          else FAILED_UDI_CREATION
                      | inl _ => FAILED_UDI_CREATION_ERROR
                      end
                  | _, _ => FAILED_PREREQUISITES_FOR_UDI
                  end
  | None =>
      createDigitalIdsStep issue user3fa None orderDbId shop oid wallet did w = inr w
  end.
Proof.
  intros Hissue. destruct orders3fa as [o|]; [|apply no_order_record_no_status].
  intros Hrow. unfold createDigitalIdsStep.
  assert (P : exists w', setOrderStatus (o3_id o) FAILED_PREREQUISITES_FOR_UDI w = inr w'
              /\ option_map o3_status (orders3fa_find (o3_id o) (db w'))
                 = Some FAILED_PREREQUISITES_FOR_UDI).
  { destruct (setOrderStatus_found (o3_id o) FAILED_PREREQUISITES_FOR_UDI w Hrow)
      as (w' & E & S & _). eauto. }
  destruct user3fa as [u|]; [|exact P].
  destruct orderDbId as [dbId|]; [|exact P].
  unfold issueAndRecord.
  set (a := issuerArgs u o dbId shop oid wallet did w).
  assert (Ha : orders3faId a = o3_id o) by reflexivity.
  pose proof (Hissue a w) as Ho.
  destruct (issue a w) as [[e|counts] w1]; simpl in Ho |- *; rewrite ?Ha.
  - destruct (setOrderStatus_found (o3_id o) FAILED_UDI_CREATION_ERROR w1)
      as (w' & E & S & _).
    { unfold orders3fa_find. rewrite Ho. exact Hrow. }
    eauto.
  - destruct (setOrderStatus_found (o3_id o) (statusForResults counts) w1)
      as (w' & E & S & _).
    { unfold orders3fa_find. rewrite Ho. exact Hrow. }
    rewrite E. exists w'. split; [reflexivity|exact S].
Qed.

Lemma createUnit_orders x a l v i st :
  orders3fas (db (snd (snd (createUnit x a l v i st)))) = orders3fas (db (snd st)).
Proof.
  destruct st as [res w]. unfold createUnit.
  destruct (uniqueDigitalId_create _ (db w)) as [e|[row d]] eqn:C; [reflexivity|].
  assert (O : orders3fas d = orders3fas (db w)).
  { unfold uniqueDigitalId_create in C.
    destruct (uniqueDigitalId_findByLineItem _ _); [discriminate|].
    injection C as _ <-. reflexivity. }
  destruct (queueTokenMinting x (udi_id row) _) as [e|w2] eqn:Q; [exact O|].
  apply queueTokenMinting_frame in Q. destruct Q as ((_ & O' & _) & _).
  simpl in *. congruence.
Qed.

Lemma unitLoop_orders x a l v n :
  forall i st,
    orders3fas (db (snd (snd (unitLoop x a l v n i st)))) = orders3fas (db (snd st)).
Proof.
  induction n as [|n IH]; intros i st; cbn [unitLoop]; [reflexivity|].
  pose proof (createUnit_orders x a l v i st) as O.
  destruct (createUnit x a l v i st) as [[e|] st']; simpl in *; [exact O|].
  now rewrite IH.
Qed.

Lemma processLineItem_orders x a st l :
  orders3fas (db (snd (processLineItem x a st l))) = orders3fas (db (snd st)).
Proof.
  unfold processLineItem.
  destruct (negb (truthyBig (li_variantId l))); [reflexivity|].
  destruct (coreProductVariant_findFirst _ _ _) as [v|]; [|reflexivity].
  destruct (negb (truthy (cpv_brand_3fa_id v))); [reflexivity|].
  pose proof (unitLoop_orders x a l v (Z.to_nat (li_quantity l)) 0 st) as O.
  destruct (unitLoop x a l v _ 0 st) as [[e|] [res w]]; exact O.
Qed.

(** The issuer the worker runs never touches the order records. *)
Lemma digitalIdService_orders x a w :
  orders3fas (db (snd (digitalIdService x a w))) = orders3fas (db w).
Proof.
  unfold digitalIdService, createDigitalIdsForOrder.
  assert (G : forall items st,
            orders3fas (db (snd (fold_left (processLineItem x a) items st)))
            = orders3fas (db (snd st))).
  { induction items as [|l items IH]; intros st; simpl; [reflexivity|].
    now rewrite IH, processLineItem_orders. }
  specialize (G (lineItems a) (emptyResults, w)).
  destruct (fold_left _ _ _) as [r w']. exact G.
Qed.

(** C10. The counts [createDigitalIdsForOrder] returns, and with them
    the order status, are the same whatever the environment, the import
    and the chain do: two runs from the same store under any two
    externals count the same units; every unit counted as created is
    one row inserted.  And there are runs that end with the order
    [COMPLETED] although every identity issued is [MINT_FAILED] (the
    chain rejects every call) or still [MINT_PENDING] (minting is not
    configured). *)
Theorem created_count_ignores_minting :
  (forall x1 x2 a d t1 t2,
     let run1 := createDigitalIdsForOrder x1 a {| db := d; trace := t1 |} in
     let run2 := createDigitalIdsForOrder x2 a {| db := d; trace := t2 |} in
     created (fst run1) = created (fst run2)
     /\ failed (fst run1) = failed (fst run2)
     /\ statusForResults (fst run1) = statusForResults (fst run2)
     /\ Z.of_nat (length (uniqueDigitalIds (db (snd run1))))
        = Z.of_nat (length (uniqueDigitalIds d)) + created (fst run1))
  /\ exists x w w',
       createDigitalIdsStep (digitalIdService x)
         (Some {| u3_id := "u_1" |}) (Some Samples.order1) (Some {| odb_id := "ord_1" |})
         Samples.shop "1001" (Some Samples.wallet1) None w = inr w'
       /\ option_map o3_status (orders3fa_find "o3_1" (db w')) = Some COMPLETED
       /\ length (uniqueDigitalIds (db w')) = 4%nat
       /\ Forall (fun r => udi_status r = MINT_FAILED) (uniqueDigitalIds (db w'))
       /\ exists y v',
            createDigitalIdsStep (digitalIdService y)
              (Some {| u3_id := "u_1" |}) (Some Samples.order1)
              (Some {| odb_id := "ord_1" |})
              Samples.shop "1001" (Some Samples.wallet1) None w = inr v'
            /\ option_map o3_status (orders3fa_find "o3_1" (db v')) = Some COMPLETED
            /\ length (uniqueDigitalIds (db v')) = 4%nat
            /\ Forall (fun r => udi_status r = MINT_PENDING) (uniqueDigitalIds (db v')).
Proof.
  split.
  - intros x1 x2 a d t1 t2 run1 run2.
    assert (A : agree run1 run2).
    { apply fold_agree; [reflexivity|]. repeat split. }
    destruct A as (C & F & _).
    repeat split; try assumption.
    + unfold statusForResults. now rewrite C, F.
    + pose proof (fold_tally x1 a (lineItems a) (emptyResults, {| db := d; trace := t1 |})) as T.
      fold (createDigitalIdsForOrder x1 a {| db := d; trace := t1 |}) in T. fold run1 in T.
      unfold tally, keysOf in T. rewrite !length_map in T. simpl in T. lia.
  - exists (Samples.external Samples.envConfigured Samples.alwaysReverts),
           (Samples.world0 [Samples.itemA; Samples.itemB]).
    eexists. split; [vm_compute; reflexivity|].
    split; [reflexivity|]. split; [reflexivity|].
    split; [repeat constructor|].
    exists (Samples.external Samples.envUnconfigured Samples.alwaysMints).
    eexists. split; [vm_compute; reflexivity|].
    split; [reflexivity|]. split; [reflexivity|].
    repeat constructor.
Qed.

End WorkerClaims.

(** ** Unresolvable line items *)

Section UnresolvedItems.

Import TokenMinting DigitalIdService.

(** C4, as the code has it.  A line item that does not resolve to a
    variant with a brand is skipped: nothing is created for it and the
    world stays as it is.  When its variant reference is there but the
    variant is not found or has no brand, its quantity is added to
    [failed]; when it has no variant reference, neither count changes.
    In every case the batch goes on with the remaining line items. *)
Theorem unresolved_line_items_skipped x a st l rest :
  resolvedVariant (shopId a) l (db (snd st)) = None ->
  let st' := processLineItem x a st l in
  snd st' = snd st
  /\ created (fst st') = created (fst st)
  /\ digitalIds (fst st') = digitalIds (fst st)
  /\ failed (fst st')
     = (if truthyBig (li_variantId l) then failed (fst st) + li_quantity l
        else failed (fst st))
  /\ fold_left (processLineItem x a) (l :: rest) st
     = fold_left (processLineItem x a) rest st'.
Proof.
  intros R st'. subst st'. cbn [fold_left].
  rewrite (processLineItem_unresolved x a st l R).
  destruct (truthyBig (li_variantId l)); simpl; repeat split.
Qed.

(** A variant that is not in the store, or has no brand, does not resolve. *)
Lemma resolvedVariant_not_found shop l d :
  coreProductVariant_findFirst
    ("gid://shopify/ProductVariant/" +:+ pretty (default 0 (li_variantId l))) shop d = None ->
  resolvedVariant shop l d = None.
Proof.
  intros H. unfold resolvedVariant. rewrite H. now destruct (negb _).
Qed.

Lemma resolvedVariant_no_brand shop l d v :
  coreProductVariant_findFirst
    ("gid://shopify/ProductVariant/" +:+ pretty (default 0 (li_variantId l))) shop d = Some v ->
  truthy (cpv_brand_3fa_id v) = false ->
  resolvedVariant shop l d = None.
Proof.
  intros H B. unfold resolvedVariant. rewrite H, B. now destruct (negb _).
Qed.

Lemma resolvedVariant_no_reference shop l d :
  truthyBig (li_variantId l) = false -> resolvedVariant shop l d = None.
Proof. intros H. unfold resolvedVariant. now rewrite H. Qed.

End UnresolvedItems.

(** ** Event intake *)

Section IntakeClaims.

Import Intake.

Lemma find_filter_nil {A} (P : A -> bool) (rows : list A) :
  find P rows = None <-> List.filter P rows = [].
Proof.
  induction rows as [|r rows IH]; simpl; [tauto|].
  destruct (P r); [split; discriminate|exact IH].
Qed.

Lemma length_filter_patched (k id : string) patch (rows : list WebhookEvent) :
  (forall e, we_eventId (patch e) = we_eventId e) ->
  length (List.filter (fun e => String.eqb (we_eventId e) k)
            (map (fun e => if String.eqb (we_id e) id then patch e else e) rows))
  = length (List.filter (fun e => String.eqb (we_eventId e) k) rows).
Proof.
  intros K. induction rows as [|r rows IH]; simpl; [reflexivity|].
  assert (E : we_eventId (if String.eqb (we_id r) id then patch r else r) = we_eventId r)
    by (destruct (String.eqb (we_id r) id); [apply K|reflexivity]).
  rewrite E. destruct (String.eqb (we_eventId r) k); simpl; now rewrite IH.
Qed.

Lemma webhookEvent_update_rows id patch d d2 :
  webhookEvent_update id patch d = inr d2 ->
  webhookEvents d2
  = map (fun e => if String.eqb (we_id e) id then patch e else e) (webhookEvents d).
Proof.
  unfold webhookEvent_update. destruct (find _ _); [|discriminate].
  now intros [= <-].
Qed.

Lemma webhookEvent_update_found id patch d row :
  In row (webhookEvents d) -> we_id row = id ->
  exists d2, webhookEvent_update id patch d = inr d2.
Proof.
  intros I E. unfold webhookEvent_update.
  destruct (find _ (webhookEvents d)) eqn:G; [eauto|].
  pose proof (find_none _ _ G row I) as N. simpl in N.
  rewrite E, String.eqb_refl in N. discriminate.
Qed.

Lemma webhookEvent_create_fresh shop topic payload k d :
  webhookEvent_findByEventId k d = None ->
  exists row d1,
    webhookEvent_create shop topic payload false k d = inr (row, d1)
    /\ webhookEvents d1 = webhookEvents d ++ [row]
    /\ we_eventId row = k /\ we_processed row = false.
Proof.
  intros F. unfold webhookEvent_create. rewrite F.
  eexists. eexists. split; [reflexivity|]. repeat split.
Qed.

(** Storing an event under a free key, then updating it in place. *)
Lemma store_then_update shop topic payload k d patch :
  webhookEvent_findByEventId k d = None ->
  (forall e, we_eventId (patch e) = we_eventId e) ->
  exists row d1 d2,
    webhookEvent_create shop topic payload false k d = inr (row, d1)
    /\ webhookEvent_update (we_id row) patch d1 = inr d2
    /\ length (eventsWithKey k d2) = 1%nat
    /\ webhookEvent_findByEventId k d2 <> None
    /\ In (patch row) (webhookEvents d2)
    /\ we_eventId row = k.
Proof.
  intros F K.
  destruct (webhookEvent_create_fresh shop topic payload k d F) as (row & d1 & C & R & E & _).
  destruct (webhookEvent_update_found (we_id row) patch d1 row) as [d2 U].
  { rewrite R. apply in_or_app. right. now left. }
  { reflexivity. }
  pose proof (webhookEvent_update_rows _ _ _ _ U) as R2.
  assert (L : length (eventsWithKey k d2) = 1%nat).
  { unfold eventsWithKey. rewrite R2, length_filter_patched by exact K.
    rewrite R, List.filter_app, length_app.
    apply find_filter_nil in F. unfold webhookEvent_findByEventId in F.
    rewrite F. simpl. rewrite E, String.eqb_refl. reflexivity. }
  exists row, d1, d2. repeat split; try assumption.
  - unfold webhookEvent_findByEventId. intros N. apply find_filter_nil in N.
    unfold eventsWithKey in L. rewrite N in L. discriminate.
  - rewrite R2, R, map_app, in_app_iff. right. simpl.
    rewrite String.eqb_refl. now left.
Qed.

(** The phone intake picks is the first one that is there, in the
    order direct field, shipping address, billing address, customer. *)
Lemma customerPhone_first_present p :
  customerPhone p = firstPresent (phoneLocations p).
Proof.
  unfold customerPhone, phoneLocations, nullish. cbn [firstPresent].
  destruct (po_phone p); [reflexivity|].
  destruct (po_shipping_address p ≫= _); [reflexivity|].
  destruct (po_billing_address p ≫= _); [reflexivity|].
  destruct (po_customer p ≫= _); reflexivity.
Qed.

(** When no location holds an empty string, that is the first
    non-empty one. *)
Lemma customerPhone_first_non_empty p :
  Forall (fun v => v <> Some "") (phoneLocations p) ->
  customerPhone p = firstNonEmpty (phoneLocations p).
Proof.
  rewrite customerPhone_first_present.
  induction (phoneLocations p) as [|v vs IH]; intros F; [reflexivity|].
  apply Forall_cons in F. destruct F as [Hv F]. cbn [firstPresent firstNonEmpty].
  destruct v as [v|].
  - unfold truthy. destruct (String.eqb_spec v ""); [congruence|reflexivity].
  - simpl. now apply IH.
Qed.

(** The short-circuit of intake: a well-formed event with no phone is
    stored, marked processed with the note, and no job is added. *)
Lemma no_phone_short_circuit rq w shop topic payload n :
  wellFormed rq shop topic payload n ->
  webhookEvent_findByEventId (dedupKey rq n) (store w) = None ->
  truthy (customerPhone payload) = false ->
  fst (action rq w) = {| body := Some "Acknowledged, no phone number."; status := 200 |}
  /\ queue (snd (action rq w)) = queue w
  /\ exists e, In e (webhookEvents (store (snd (action rq w))))
               /\ we_eventId e = dedupKey rq n
               /\ we_processed e = true
               /\ we_lastError e = Some "Skipped: No customer phone number found in payload.".
Proof.
  intros (A & Hs & Ht & Hid & Htop) F P.
  destruct (store_then_update shop "orders/create" payload (dedupKey rq n) (store w)
              (markSkipped (dateNow rq (skipReading rq))) F) as (row & d1 & d2 & C & U & _ & _ & I & E).
  { reflexivity. }
  unfold action. rewrite A. cbn [ctx_shop ctx_topic ctx_payload truthy].
  apply String.eqb_neq in Hs, Ht. rewrite Hs, Ht, Hid, Htop.
  cbn [negb orb String.eqb Ascii.eqb Bool.eqb].
  rewrite C, P. cbn [negb]. rewrite U. cbn [fst snd queue store].
  repeat split. exists (markSkipped (dateNow rq (skipReading rq)) row).
  split; [exact I|]. repeat split. exact E.
Qed.

(** C5, at the failing input.  The shipping address carries an empty
    phone and the billing address a real one: the chain of [??] stops
    at the empty string, the event is taken to have no phone, is marked
    processed with the note, and no job is enqueued. *)
Theorem empty_phone_shadows_later_phone :
  let payload := Samples.payloadWith None (Some "") (Some "+15550100") None in
  let outcome := action (Samples.requestFor (Some "evt-1") "orders/create" payload)
                        Samples.intake0 in
  customerPhone payload = Some ""
  /\ fst outcome = {| body := Some "Acknowledged, no phone number."; status := 200 |}
  /\ queue (snd outcome) = []
  /\ map (fun e => (we_processed e, we_lastError e)) (webhookEvents (store (snd outcome)))
     = [(true, Some "Skipped: No customer phone number found in payload.")].
Proof. vm_compute. repeat split. Qed.

(** C1, as stated, fails: the replay of a stored event is answered
    with the internal-error acknowledgement, not with the answer of the
    first ingest; and a payload without a numeric order id is never
    stored, however often it is ingested. *)
Lemma intake_replay_not_prior_result :
  let first := action Samples.requestWithPhone Samples.intake0 in
  let second := action Samples.requestWithPhone (snd first) in
  let bad := action Samples.requestWithoutOrderId Samples.intake0 in
  let badAgain := action Samples.requestWithoutOrderId (snd bad) in
  fst first = {| body := None; status := 200 |}
  /\ fst second = {| body := Some "Error processing webhook internally, acknowledged.";
                     status := 200 |}
  /\ fst second <> fst first
  /\ length (eventsWithKey "evt-2" (store (snd badAgain))) = 0%nat.
Proof. vm_compute. repeat split. discriminate. Qed.

(** C1, as the code has it.  For a request that passes the checks of
    intake and whose dedup key is not stored yet, ingesting it twice
    leaves exactly one event with that key; the second ingest changes
    neither the store nor the queue and is acknowledged with status 200
    and the internal-error body; the two ingests together add at most
    one job. *)
Theorem intake_replay_is_noop rq w shop topic payload n :
  wellFormed rq shop topic payload n ->
  webhookEvent_findByEventId (dedupKey rq n) (store w) = None ->
  let first := action rq w in
  let second := action rq (snd first) in
  snd second = snd first
  /\ fst second = internalError
  /\ status (fst first) = 200
  /\ length (eventsWithKey (dedupKey rq n) (store (snd second))) = 1%nat
  /\ (length (queue (snd second)) <= S (length (queue w)))%nat.
Proof.
  intros (A & Hs & Ht & Hid & Htop) F first second.
  apply String.eqb_neq in Hs, Ht.
  assert (Replay : forall d2 q,
            webhookEvent_findByEventId (dedupKey rq n) d2 <> None ->
            action rq {| store := d2; queue := q |}
            = (internalError, {| store := d2; queue := q |})).
  { intros d2 q N. unfold action. rewrite A. cbn [ctx_shop ctx_topic ctx_payload truthy].
    rewrite Hs, Ht, Hid, Htop. cbn [negb orb String.eqb Ascii.eqb Bool.eqb store].
    unfold webhookEvent_create.
    destruct (webhookEvent_findByEventId (dedupKey rq n) d2); [reflexivity|congruence]. }
  assert (First : exists resp d2 q,
            first = (resp, {| store := d2; queue := q |})
            /\ status resp = 200
            /\ webhookEvent_findByEventId (dedupKey rq n) d2 <> None
            /\ length (eventsWithKey (dedupKey rq n) d2) = 1%nat
            /\ (length q <= S (length (queue w)))%nat).
  { subst first second. unfold action. rewrite A.
    cbn [ctx_shop ctx_topic ctx_payload truthy].
    rewrite Hs, Ht, Hid, Htop. cbn [negb orb String.eqb Ascii.eqb Bool.eqb].
    destruct (truthy (customerPhone payload)); cbn [negb].
    - destruct (store_then_update shop "orders/create" payload (dedupKey rq n) (store w)
                  (fun e => e) F) as (row & d1 & d2 & C & U & L & N & _); [reflexivity|].
      rewrite C.
      destruct (orderProcessingQueue_add _ _ _ _ (queue w)) as [job q1] eqn:Q.
      rewrite U. exists {| body := None; status := 200 |}, d2, q1.
      repeat split; try assumption.
      unfold orderProcessingQueue_add in Q.
      destruct (find _ (queue w)); injection Q as _ <-; [lia|].
      rewrite length_app. simpl. lia.
    - destruct (store_then_update shop "orders/create" payload (dedupKey rq n) (store w)
                  (markSkipped (dateNow rq (skipReading rq))) F) as (row & d1 & d2 & C & U & L & N & _);
        [reflexivity|].
      rewrite C, U. eexists. exists d2, (queue w). repeat split; try assumption. lia. }
  destruct First as (resp & d2 & q & E1 & S1 & N & L & Q).
  subst second. rewrite E1. cbn [snd fst]. rewrite (Replay d2 q N). cbn [snd fst store queue].
  repeat split; assumption.
Qed.

End IntakeClaims.

(** ** The theorems at the sample data *)

Section Scenarios.

Import TokenMinting DigitalIdService Intake Worker Samples MoreSamples.

(** C4, as stated, fails: a line item of quantity 2 without a variant
    reference is skipped, and the failed count stays 0. *)
Lemma no_variant_reference_not_counted :
  let outcome := createDigitalIdsForOrder (external envConfigured safeMintOnly)
                   (argsFor [itemNoVariant; itemB] (Some wallet1)) (world0 []) in
  li_variantId itemNoVariant = None
  /\ li_quantity itemNoVariant = 2
  /\ failed (fst outcome) = 0
  /\ created (fst outcome) = 1.
Proof. vm_compute. repeat split. Qed.

(** The partial-failure scenario: three line items, two issued, one
    with an unknown variant. *)
Example partial_failure_scenario :
  let outcome := createDigitalIdsForOrder (external envConfigured safeMintOnly)
                   (argsFor [itemB; itemB2; itemUnknownVariant] (Some wallet1))
                   (world0 []) in
  created (fst outcome) = 2 /\ failed (fst outcome) = 1
  /\ statusForResults (fst outcome) = PARTIALLY_COMPLETED.
Proof. vm_compute. repeat split. Qed.

(** The end-to-end scenario: order 1001, one line item of quantity 2,
    the wallet provisioned, minting configured, the first method
    succeeds: the order is [COMPLETED] and both identities are [MINTED]. *)
Example checkout_to_mint_scenario :
  exists w',
    createDigitalIdsStep (digitalIdService (external envConfigured alwaysMints))
      (Some {| u3_id := "u_1" |}) (Some order1) (Some {| odb_id := "ord_1" |})
      shop "1001" (Some wallet1) (Some "did:privy:1") (world0 [itemPair]) = inr w'
    /\ option_map o3_status (orders3fa_find "o3_1" (db w')) = Some COMPLETED
    /\ map (fun r => (udi_shopifyLineItemId r, udi_status r)) (uniqueDigitalIds (db w'))
       = [("gid://shopify/LineItem/13:1", MINTED); ("gid://shopify/LineItem/13:2", MINTED)]
    /\ length (List.filter isChainCall (trace w')) = 2%nat.
Proof. eexists. split; [vm_compute; reflexivity|]. repeat split. Qed.

(** thirdweb refuses the contract address: no transaction is sent and
    the identity is marked [MINT_FAILED]. *)
Example refused_contract_scenario :
  let outcome := mintDigitalIdOnBase externalBadContract "udi_0" worldIssued in
  fst outcome = {| success := false; mr_transactionHash := None;
                   mr_error := Some "invalid contract address" |}
  /\ trace (snd outcome) = trace worldIssued ++ [EvUdiStatus "udi_0" MINT_FAILED]
  /\ statusOf "udi_0" (db (snd outcome)) = Some MINT_FAILED.
Proof. vm_compute. repeat split. Qed.

(** The replay theorem at a sample request carrying a phone. *)
Lemma intake_replay_is_noop_witness :
  wellFormed requestWithPhone shop "orders/create"
    (payloadWith (Some "+15550100") None None None) 1001
  /\ webhookEvent_findByEventId (dedupKey requestWithPhone 1001) (store intake0) = None
  /\ snd (action requestWithPhone (snd (action requestWithPhone intake0)))
     = snd (action requestWithPhone intake0).
Proof.
  assert (WF : wellFormed requestWithPhone shop "orders/create"
                 (payloadWith (Some "+15550100") None None None) 1001).
  { repeat split; try discriminate. }
  split; [exact WF|]. split; [reflexivity|].
  exact (proj1 (intake_replay_is_noop requestWithPhone intake0 _ _ _ _ WF eq_refl)).
Defined.

(** Two line items issued twice on the empty sample store. *)
Lemma issuance_rerun_is_noop_witness :
  NoDup (keysOf (db (world0 [])))
  /\ NoDup (keysOf (db (snd (createDigitalIdsForOrder (external envConfigured safeMintOnly)
                               (argsFor [itemA; itemB] (Some wallet1)) (world0 []))))).
Proof.
  assert (N : NoDup (keysOf (db (world0 [])))) by constructor.
  split; [exact N|].
  exact (proj2 (proj2 (proj2
    (issuance_rerun_is_noop (external envConfigured safeMintOnly)
       (external envUnconfigured alwaysReverts)
       (argsFor [itemA; itemB] (Some wallet1)) (world0 [])))) N).
Defined.

(** The partial-failure scenario run through step 6 of the worker. *)
Lemma order_status_from_issuance_witness :
  orders3fa_find (o3_id order1) (db (world0 [itemB; itemB2; itemUnknownVariant])) <> None
  /\ exists w',
       createDigitalIdsStep (digitalIdService (external envConfigured safeMintOnly))
         (Some {| u3_id := "u_1" |}) (Some order1) (Some {| odb_id := "ord_1" |})
         shop "1001" (Some wallet1) None
         (world0 [itemB; itemB2; itemUnknownVariant]) = inr w'
       /\ option_map o3_status (orders3fa_find (o3_id order1) (db w'))
          = Some PARTIALLY_COMPLETED.
Proof.
  assert (H : orders3fa_find (o3_id order1)
                (db (world0 [itemB; itemB2; itemUnknownVariant])) <> None)
    by discriminate.
  split; [exact H|].
  exact (order_status_from_issuance
           (digitalIdService (external envConfigured safeMintOnly))
           (Some {| u3_id := "u_1" |}) (Some order1) (Some {| odb_id := "ord_1" |})
           shop "1001" (Some wallet1) None
           (world0 [itemB; itemB2; itemUnknownVariant])
           (digitalIdService_orders (external envConfigured safeMintOnly)) H).
Defined.

(** C3, as stated, fails twice.  Without an order record the step
    writes nothing, so no order is marked
    [FAILED_PREREQUISITES_FOR_UDI]: the order in the store keeps the
    status it had.  And an order whose only line item has no variant
    reference is attempted, no unit is created, none is counted as
    failed, and the order ends [COMPLETED], not [FAILED_UDI_CREATION]. *)
Lemma missing_order_record_gets_no_status :
  let issue := digitalIdService (external envConfigured alwaysMints) in
  let w := world0 [itemB] in
  let skipped := world0 [itemNoVariant] in
  createDigitalIdsStep issue (Some {| u3_id := "u_1" |}) None (Some {| odb_id := "ord_1" |})
    shop "1001" (Some wallet1) None w = inr w
  /\ map (fun o => (o3_id o, o3_status o)) (orders3fas (db w))
     = [("o3_1", WALLET_PROVISIONED)]
  /\ fst (issue (issuerArgs {| u3_id := "u_1" |} order1 {| odb_id := "ord_1" |}
                  shop "1001" (Some wallet1) None skipped) skipped)
     = inr {| created := 0; failed := 0; digitalIds := [] |}
  /\ exists w',
       createDigitalIdsStep issue (Some {| u3_id := "u_1" |}) (Some order1)
         (Some {| odb_id := "ord_1" |}) shop "1001" (Some wallet1) None skipped = inr w'
       /\ option_map o3_status (orders3fa_find "o3_1" (db w')) = Some COMPLETED
       /\ uniqueDigitalIds (db w') = [].
Proof.
  split; [reflexivity|]. split; [reflexivity|]. split; [reflexivity|].
  eexists. split; [vm_compute; reflexivity|]. split; reflexivity.
Qed.

(** A line item whose variant is not in the store. *)
Lemma unresolved_line_items_skipped_witness :
  resolvedVariant shop itemUnknownVariant (db (world0 [])) = None
  /\ failed (fst (processLineItem (external envConfigured safeMintOnly)
                    (argsFor [itemUnknownVariant; itemB] None)
                    (emptyResults, world0 []) itemUnknownVariant))
     = 0 + li_quantity itemUnknownVariant.
Proof.
  split; [reflexivity|].
  exact (proj1 (proj2 (proj2 (proj2
    (unresolved_line_items_skipped (external envConfigured safeMintOnly)
       (argsFor [itemUnknownVariant; itemB] None)
       (emptyResults, world0 []) itemUnknownVariant [itemB] eq_refl))))).
Defined.


(** The minter private key is absent. *)
Lemma unconfigured_mint_stays_pending_witness :
  uniqueDigitalId_findUnique "udi_0" (db worldIssued) <> None
  /\ truthy (BASE_MINTER_PRIVATE_KEY (env (external envUnconfigured alwaysReverts))) = false
  /\ exists w',
       queueTokenMinting (external envUnconfigured alwaysReverts) "udi_0" worldIssued = inr w'
       /\ statusOf "udi_0" (db w') = Some MINT_PENDING
       /\ trace w' = trace worldIssued ++ [EvUdiStatus "udi_0" MINT_PENDING]
       /\ sameFrame (db worldIssued) (db w').
Proof.
  assert (H : uniqueDigitalId_findUnique "udi_0" (db worldIssued) <> None) by discriminate.
  split; [exact H|]. split; [reflexivity|].
  exact (unconfigured_mint_stays_pending (external envUnconfigured alwaysReverts)
           "udi_0" worldIssued H (or_introl eq_refl)).
Defined.

(** Quantity 3 on the empty sample store. *)
Lemma quantity_expansion_witness :
  1 <= li_quantity itemA
  /\ resolvedVariant shop itemA (db (world0 [])) = Some variantV
  /\ exists rows w',
       processLineItem (external envConfigured safeMintOnly) (argsFor [itemA] None)
         (emptyResults, world0 []) itemA
       = ({| created := 0 + 3; failed := 0; digitalIds := [] ++ rows |}, w')
       /\ Z.of_nat (length rows) = 3
       /\ Forall (fun r => udi_status r = CREATED) rows
       /\ NoDup ["gid://shopify/LineItem/7:1"; "gid://shopify/LineItem/7:2";
                 "gid://shopify/LineItem/7:3"]
       /\ map udi_shopifyLineItemId rows
          = ["gid://shopify/LineItem/7:1"; "gid://shopify/LineItem/7:2";
             "gid://shopify/LineItem/7:3"]
       /\ keysOf (db w')
          = keysOf (db (world0 []))
            ++ ["gid://shopify/LineItem/7:1"; "gid://shopify/LineItem/7:2";
                "gid://shopify/LineItem/7:3"].
Proof.
  assert (Q : 1 <= li_quantity itemA) by (simpl; lia).
  split; [exact Q|]. split; [reflexivity|].
  apply (quantity_expansion (external envConfigured safeMintOnly) (argsFor [itemA] None)
           itemA variantV emptyResults (world0 []) Q eq_refl).
  intros k _ [].
Defined.

(** C8, as stated, fails: a resolvable line item of quantity 3 whose
    first unit key is already in the store yields no identity at all;
    the unique insert of the first unit throws, the three units are
    counted as failed, and units 2 and 3 are never issued. *)
Lemma taken_key_blocks_quantity_expansion :
  let outcome := processLineItem (external envConfigured alwaysMints)
                   (argsFor [itemA] (Some wallet1))
                   (emptyResults, worldUnit1Taken) itemA in
  li_quantity itemA = 3
  /\ resolvedVariant shop itemA (db worldUnit1Taken) = Some variantV
  /\ keysOf (db worldUnit1Taken) = ["gid://shopify/LineItem/7:1"]
  /\ created (fst outcome) = 0
  /\ failed (fst outcome) = 3
  /\ digitalIds (fst outcome) = []
  /\ keysOf (db (snd outcome)) = ["gid://shopify/LineItem/7:1"].
Proof. vm_compute. repeat split. Qed.

End Scenarios.

(** ** Strings: trimming and the trailing slash *)

Section StringFacts.

Lemma dropSpaces_headOk l : headOk (dropSpaces l).
Proof.
  induction l as [|c l IH]; simpl; [exact I|].
  destruct (isSpace c) eqn:E; [exact IH|exact E].
Qed.

Lemma dropSpaces_id l : headOk l -> dropSpaces l = l.
Proof. destruct l as [|c l]; simpl; [reflexivity|]. now intros ->. Qed.

Lemma dropSpaces_suffix l : exists pre, l = pre ++ dropSpaces l.
Proof.
  induction l as [|c l [pre IH]]; simpl; [now exists []|].
  destruct (isSpace c).
  - exists (c :: pre). simpl. now f_equal.
  - now exists [].
Qed.

Lemma headOk_prefix l m : headOk (l ++ m) -> headOk l.
Proof. destruct l; simpl; auto. Qed.

(** Dropping the trailing white space keeps the head. *)
Lemma rev_dropSpaces_rev_headOk l : headOk l -> headOk (rev (dropSpaces (rev l))).
Proof.
  intros H. destruct (dropSpaces_suffix (rev l)) as [pre E].
  apply (f_equal (@rev ascii)) in E. rewrite rev_involutive, rev_app_distr in E.
  rewrite E in H. eapply headOk_prefix; eauto.
Qed.

Lemma trim_trimmed s : trimmed (trim s).
Proof.
  unfold trimmed, trim. rewrite list_ascii_of_string_of_list_ascii. split.
  - apply rev_dropSpaces_rev_headOk, dropSpaces_headOk.
  - rewrite rev_involutive. apply dropSpaces_headOk.
Qed.

Lemma trim_id s : trimmed s -> trim s = s.
Proof.
  intros [H1 H2]. unfold trim.
  rewrite (dropSpaces_id _ H1), (dropSpaces_id _ H2), rev_involutive.
  apply string_of_list_ascii_of_string.
Qed.

Lemma isHexDigit_not_space c : isHexDigit c = true -> isSpace c = false.
Proof.
  destruct c as [[] [] [] [] [] [] [] []]; vm_compute; congruence.
Qed.

Lemma forallb_hex_headOk l : forallb isHexDigit l = true -> headOk l.
Proof.
  destruct l as [|c l]; simpl; [auto|].
  intros H. apply andb_prop in H. apply isHexDigit_not_space, H.
Qed.

Lemma hex_trimmed s :
  forallb isHexDigit (list_ascii_of_string s) = true -> trimmed s.
Proof.
  intros H. split; [now apply forallb_hex_headOk|].
  apply forallb_hex_headOk. rewrite forallb_forall in *.
  intros c Hc. apply H. now apply in_rev.
Qed.

Lemma dropTrailingSlash_app s : dropTrailingSlash (s +:+ "/") = s.
Proof.
  induction s as [|c s IH]; [reflexivity|].
  change (String c s +:+ "/") with (String c (s +:+ "/")).
  cbn [dropTrailingSlash]. rewrite IH.
  destruct s; reflexivity.
Qed.

End StringFacts.

(** ** More on the minting service *)

Section MintingService.

Import TokenMinting DigitalIdService.

Lemma truthy_Some v : truthy v = true -> exists s, v = Some s /\ s <> "".
Proof.
  destruct v as [s|]; simpl; [|discriminate]. intros H. exists s. split; [reflexivity|].
  intros ->. discriminate.
Qed.

Lemma truthy_of_nonempty s : s <> "" -> truthy (Some s) = true.
Proof. intros H. simpl. now destruct (String.eqb_spec s ""). Qed.

(** What [ensureEnv] returns is normalised: the private key is [0x]
    followed by exactly 64 hex digits (66 characters), and the client
    id and the base URL are the non-empty values of the environment. *)
Theorem ensureEnv_normalizes e me :
  ensureEnv e = inr me ->
  exists pk,
    privateKey me = "0x" +:+ pk
    /\ isHex64 pk = true
    /\ String.length (privateKey me) = 66%nat
    /\ THIRDWEB_CLIENT_ID e = Some (clientId me) /\ clientId me <> ""
    /\ APP_BASE_URL e = Some (appBaseUrl me) /\ appBaseUrl me <> "".
Proof.
  unfold ensureEnv.
  destruct (truthy (THIRDWEB_CLIENT_ID e)) eqn:C; [|discriminate].
  destruct (truthy (BASE_MINTER_PRIVATE_KEY e)) eqn:K; [|discriminate].
  destruct (truthy (APP_BASE_URL e)) eqn:U; [|discriminate].
  cbn [negb].
  destruct (isHex64 _) eqn:H; [|discriminate]. cbn [negb].
  intros [= <-]. cbn [privateKey clientId appBaseUrl].
  destruct (truthy_Some _ C) as (c & -> & Hc).
  destruct (truthy_Some _ U) as (u & -> & Hu).
  eexists. split; [reflexivity|]. split; [exact H|].
  repeat split; try assumption.
  unfold isHex64 in H. apply andb_prop in H. destruct H as [H _].
  apply Nat.eqb_eq in H.
  change (String.length ("0x" +:+ ?s)) with (S (S (String.length s))).
  now rewrite H.
Qed.

Lemma strip0x_hex pk :
  forallb isHexDigit (list_ascii_of_string pk) = true -> strip0x pk = pk.
Proof.
  destruct pk as [|c1 [|c2 r]]; [reflexivity| |].
  - intros _. destruct c1 as [[] [] [] [] [] [] [] []]; reflexivity.
  - intros H. cbn [list_ascii_of_string forallb] in H.
    apply andb_prop in H. destruct H as [_ H]. apply andb_prop in H. destruct H as [H _].
    destruct c1 as [[] [] [] [] [] [] [] []]; try reflexivity.
    destruct c2 as [[] [] [] [] [] [] [] []]; try reflexivity.
    vm_compute in H. discriminate.
Qed.

Lemma trimmed_0x_hex pk :
  isHex64 pk = true -> trimmed ("0x" +:+ pk).
Proof.
  unfold isHex64. intros H. apply andb_prop in H. destruct H as [L H].
  apply Nat.eqb_eq in L. split; [reflexivity|].
  change ("0x" +:+ pk) with (String "0" (String "x" pk)).
  cbn [list_ascii_of_string rev].
  destruct (hex_trimmed pk H) as [_ T].
  destruct (rev (list_ascii_of_string pk)) as [|c l] eqn:R; [|exact T].
  apply (f_equal (@length ascii)) in R. rewrite length_rev in R.
  rewrite <- (string_of_list_ascii_of_string pk) in L.
  clear -L R. exfalso.
  assert (G : forall l, String.length (string_of_list_ascii l) = length l).
  { induction l as [|a l IH]; simpl; [reflexivity|now rewrite IH]. }
  rewrite G, R in L. discriminate.
Qed.

(** [ensureEnv] takes the private key with or without the [0x] prefix:
    both spellings of a 64-digit hex key give the same normalised key. *)
Theorem ensureEnv_accepts_both_forms e pk c u :
  isHex64 pk = true ->
  THIRDWEB_CLIENT_ID e = Some c -> c <> "" ->
  APP_BASE_URL e = Some u -> u <> "" ->
  BASE_MINTER_PRIVATE_KEY e = Some pk \/ BASE_MINTER_PRIVATE_KEY e = Some ("0x" +:+ pk) ->
  ensureEnv e = inr {| clientId := c; privateKey := "0x" +:+ pk; appBaseUrl := u |}.
Proof.
  intros H Ec Hc Eu Hu K.
  assert (Hhex : forallb isHexDigit (list_ascii_of_string pk) = true)
    by (unfold isHex64 in H; apply andb_prop in H; apply H).
  assert (Hne : pk <> "").
  { intros ->. discriminate. }
  unfold ensureEnv. rewrite Ec, Eu.
  rewrite (truthy_of_nonempty c Hc), (truthy_of_nonempty u Hu). cbn [negb default id].
  destruct K as [-> | ->].
  - rewrite (truthy_of_nonempty pk Hne). cbn [negb default id].
    rewrite (trim_id pk (hex_trimmed pk Hhex)), (strip0x_hex pk Hhex), H.
    reflexivity.
  - cbn [truthy String.app String.eqb negb default id].
    rewrite (trim_id _ (trimmed_0x_hex pk H)).
    change (strip0x ("0x" +:+ pk)) with pk. rewrite H. reflexivity.
Qed.

(** The chain and its name go together: Base main net exactly when
    [BASE_CHAIN_ID], trimmed, is [8453]; in every other case, unset
    included, Base Sepolia. *)
Theorem chain_follows_chain_id e :
  (option_map trim (BASE_CHAIN_ID e) = Some "8453"
   /\ getChain e = "8453" /\ getBlockchainName e = "base")
  \/ (option_map trim (BASE_CHAIN_ID e) <> Some "8453"
      /\ getChain e = "84532" /\ getBlockchainName e = "base-sepolia").
Proof.
  unfold getChain, getBlockchainName.
  destruct (BASE_CHAIN_ID e) as [c|]; simpl.
  - destruct (String.eqb_spec (trim c) "8453") as [E|E].
    + left. rewrite E. repeat split.
    + right. repeat split. congruence.
  - right. repeat split. discriminate.
Qed.

Lemma dropTrailingSlash_none s :
  (forall r, s <> r +:+ "/") -> dropTrailingSlash s = s.
Proof.
  induction s as [|c s IH]; intros H; [reflexivity|].
  destruct s as [|c' s'].
  - cbn [dropTrailingSlash]. destruct (Ascii.eqb_spec c "/") as [->|]; [|reflexivity].
    exfalso. apply (H ""). reflexivity.
  - change (dropTrailingSlash (String c (String c' s')))
      with (String c (dropTrailingSlash (String c' s'))).
    rewrite IH; [reflexivity|].
    intros r E. apply (H (String c r)). rewrite E. reflexivity.
Qed.

(** Exactly one trailing slash of the base URL is dropped: a base URL
    that does not end in a slash is taken as it is, the same URL with
    one slash appended gives the same metadata URL, and with two
    slashes appended one of them stays. *)
Theorem metadataUrl_drops_one_slash base id :
  (forall r, base <> r +:+ "/") ->
  metadataUrl base id = base +:+ "/api/token-metadata/" +:+ id
  /\ metadataUrl (base +:+ "/") id = base +:+ "/api/token-metadata/" +:+ id
  /\ metadataUrl ((base +:+ "/") +:+ "/") id
     = (base +:+ "/") +:+ "/api/token-metadata/" +:+ id.
Proof.
  intros H. unfold metadataUrl.
  rewrite !dropTrailingSlash_app, (dropTrailingSlash_none base H). repeat split.
Qed.

Lemma recipientOf_falsy r :
  truthy (udi_privyWalletAddress r) = false -> recipientOf r = None.
Proof. unfold recipientOf, JS.or. now intros ->. Qed.

Lemma mintDigitalIdOnBase_no_recipient x id w r :
  uniqueDigitalId_findUnique id (db w) = Some r ->
  truthy (udi_privyWalletAddress r) = false ->
  success (fst (mintDigitalIdOnBase x id w)) = false
  /\ mr_error (fst (mintDigitalIdOnBase x id w))
     = Some match ensureEnv (env x) with
            | inl e => messageOrString e
            | inr _ => "Recipient wallet address (privyWalletAddress) is missing"
            end
  /\ trace (snd (mintDigitalIdOnBase x id w)) = trace w ++ [EvUdiStatus id MINT_FAILED]
  /\ uniqueDigitalId_findUnique id (db (snd (mintDigitalIdOnBase x id w)))
     = Some (setStatus MINT_FAILED r).
Proof.
  intros Hr Hw.
  destruct (update_found id (setStatus MINT_FAILED) (db w) r Hr) as (d' & U & F);
    [reflexivity|].
  unfold mintDigitalIdOnBase, mintAttempt.
  destruct (ensureEnv (env x)) as [e|me].
  - rewrite U. cbn. repeat split. exact F.
  - rewrite Hr, (recipientOf_falsy r Hw), U. cbn. repeat split. exact F.
Qed.

(** An identity without a wallet address (missing or empty) is never
    sent to the chain: the mint reports failure, the only thing written
    is [MINT_FAILED], and the other columns stay as they were. *)
Theorem mint_without_wallet x id w r :
  uniqueDigitalId_findUnique id (db w) = Some r ->
  truthy (udi_privyWalletAddress r) = false ->
  success (fst (mintDigitalIdOnBase x id w)) = false
  /\ mr_error (fst (mintDigitalIdOnBase x id w))
     = Some match ensureEnv (env x) with
            | inl e => messageOrString e
            | inr _ => "Recipient wallet address (privyWalletAddress) is missing"
            end
  /\ trace (snd (mintDigitalIdOnBase x id w)) = trace w ++ [EvUdiStatus id MINT_FAILED]
  /\ uniqueDigitalId_findUnique id (db (snd (mintDigitalIdOnBase x id w)))
     = Some (setStatus MINT_FAILED r).
Proof. apply mintDigitalIdOnBase_no_recipient. Qed.

(** Minting an identity that is not in the store changes nothing and
    reports failure; the failed attempt to mark it is swallowed. *)
Theorem mint_unknown_identity x id w :
  uniqueDigitalId_findUnique id (db w) = None ->
  snd (mintDigitalIdOnBase x id w) = w
  /\ success (fst (mintDigitalIdOnBase x id w)) = false
  /\ mr_error (fst (mintDigitalIdOnBase x id w))
     = Some match ensureEnv (env x) with
            | inl e => messageOrString e
            | inr _ => "UniqueDigitalId not found: " +:+ id
            end.
Proof.
  intros H. unfold mintDigitalIdOnBase, mintAttempt, uniqueDigitalId_update.
  destruct (ensureEnv (env x)) as [e|me]; rewrite ?H; cbn; rewrite ?H; cbn; repeat split.
Qed.

Lemma mintAttempt_outcome x id w r :
  uniqueDigitalId_findUnique id (db w) = Some r ->
  match mintAttempt x id w with
  | (inr tx, w') =>
      exists address,
        uniqueDigitalId_findUnique id (db w') = Some (markMinted x tx address r)
  | (inl _, w') => db w' = db w
  end.
Proof.
  intros Hr. unfold mintAttempt.
  destruct (ensureEnv (env x)) as [e|me]; [reflexivity|].
  rewrite Hr.
  destruct (recipientOf r) as [recipient|]; [|reflexivity].
  destruct (contractAddressOf x r (db w)) as [address|]; [|reflexivity].
  destruct (thirdwebSetup x me address) as [thrown|]; [reflexivity|].
  destruct (tryMintMethods _ _ _ _ _) as [[receipt le] w1] eqn:T.
  apply tryMintMethods_frame in T. destruct T as (D & _).
  destruct receipt as [receipt|]; [|exact D].
  rewrite D.
  destruct (update_found id (markMinted x (transactionHash receipt) address) (db w) r Hr)
    as (d' & U & F); [reflexivity|].
  rewrite U. exists address. exact F.
Qed.

(** What a mint returns is what it stored: on success the returned
    hash is the stored one and the identity is [MINTED]; on failure no
    hash is returned and the identity differs from before only in its
    status, [MINT_FAILED]. *)
Theorem mint_result_matches_store x id w r :
  uniqueDigitalId_findUnique id (db w) = Some r ->
  if success (fst (mintDigitalIdOnBase x id w)) then
    exists tx address,
      mr_transactionHash (fst (mintDigitalIdOnBase x id w)) = Some tx
      /\ mr_error (fst (mintDigitalIdOnBase x id w)) = None
      /\ uniqueDigitalId_findUnique id (db (snd (mintDigitalIdOnBase x id w)))
         = Some (markMinted x tx address r)
  else
    mr_transactionHash (fst (mintDigitalIdOnBase x id w)) = None
    /\ uniqueDigitalId_findUnique id (db (snd (mintDigitalIdOnBase x id w)))
       = Some (setStatus MINT_FAILED r).
Proof.
  intros Hr. pose proof (mintAttempt_outcome x id w r Hr) as O.
  unfold mintDigitalIdOnBase.
  destruct (mintAttempt x id w) as [[e|tx] w1]; cbn [fst snd success mr_transactionHash mr_error].
  - split; [reflexivity|]. rewrite O.
    destruct (update_found id (setStatus MINT_FAILED) (db w) r Hr) as (d' & U & F);
      [reflexivity|].
    rewrite U. exact F.
  - destruct O as [address F]. exists tx, address. repeat split. exact F.
Qed.

Lemma chainCalls_app t1 t2 : chainCalls (t1 ++ t2) = chainCalls t1 ++ chainCalls t2.
Proof. apply List.filter_app. Qed.

Lemma tryMintMethods_calls x call methods :
  forall lastError w,
    (length (chainCalls (trace (snd (tryMintMethods x call methods lastError w))))
     <= length (chainCalls (trace w)) + length methods)%nat.
Proof.
  induction methods as [|m rest IH]; intros le w; cbn [tryMintMethods].
  - simpl. lia.
  - destruct (sendTransaction x _ _) as [err|receipt].
    + etransitivity; [apply IH|]. cbn [emit trace].
      rewrite chainCalls_app, length_app. simpl. lia.
    + cbn [snd emit trace]. rewrite chainCalls_app, length_app. simpl. lia.
Qed.

Lemma mintDigitalIdOnBase_calls x id w :
  (length (chainCalls (trace (snd (mintDigitalIdOnBase x id w))))
   <= length (chainCalls (trace w)) + 2)%nat.
Proof.
  assert (A : (length (chainCalls (trace (snd (mintAttempt x id w))))
               <= length (chainCalls (trace w)) + 2)%nat).
  { unfold mintAttempt.
    destruct (ensureEnv (env x)) as [e|me]; [simpl; lia|].
    destruct (uniqueDigitalId_findUnique id (db w)) as [r|]; [|simpl; lia].
    destruct (recipientOf r) as [recipient|]; [|simpl; lia].
    destruct (contractAddressOf x r (db w)) as [address|]; [|simpl; lia].
    destruct (thirdwebSetup x me address) as [thrown|]; [simpl; lia|].
    pose proof (tryMintMethods_calls x (mintCall x me address recipient id)
                  mintMethods None w) as T.
    destruct (tryMintMethods _ _ _ _ _) as [[receipt le] w1].
    cbn [snd] in T. change (length mintMethods) with 2%nat in T.
    destruct receipt as [receipt|]; [|exact T].
    destruct (uniqueDigitalId_update _ _ _); [exact T|].
    cbn [snd emit trace withDb]. rewrite chainCalls_app, length_app. simpl. lia. }
  unfold mintDigitalIdOnBase.
  destruct (mintAttempt x id w) as [[e|tx] w1]; cbn [snd] in *; [|exact A].
  destruct (uniqueDigitalId_update _ _ _); [exact A|].
  cbn [emit trace withDb]. rewrite chainCalls_app, length_app. simpl. lia.
Qed.

(** One mint sends at most two transactions. *)
Theorem mint_at_most_two_calls x id w :
  (length (chainCalls (trace (snd (mintDigitalIdOnBase x id w))))
   <= length (chainCalls (trace w)) + 2)%nat.
Proof. apply mintDigitalIdOnBase_calls. Qed.


(** When the import of the minting service throws, the error is caught:
    the trigger returns and the identity stays [MINT_PENDING]. *)
Theorem import_failure_stays_pending x id w err :
  uniqueDigitalId_findUnique id (db w) <> None ->
  truthy (BASE_MINTER_PRIVATE_KEY (env x)) = true ->
  truthy (THIRDWEB_CLIENT_ID (env x)) = true ->
  truthy (APP_BASE_URL (env x)) = true ->
  importMintingService x (S (length (trace w))) = Some err ->
  exists w',
    queueTokenMinting x id w = inr w'
    /\ statusOf id (db w') = Some MINT_PENDING
    /\ trace w' = trace w ++ [EvUdiStatus id MINT_PENDING; EvImport (Some err)].
Proof.
  intros Hrow K C U Imp.
  destruct (update_succeeds id (setStatus MINT_PENDING) (db w) Hrow) as [d1 U1].
  unfold queueTokenMinting, mintIfConfigured. rewrite U1, K, C, U. cbn [negb orb].
  replace (length (trace (emit (EvUdiStatus id MINT_PENDING) (withDb w d1))))
    with (S (length (trace w)))
    by (cbn [emit trace withDb]; rewrite length_app; simpl; lia).
  rewrite Imp. eexists. split; [reflexivity|]. cbn [db trace emit withDb]. split.
  - eapply statusOf_update; [| |exact U1]; reflexivity.
  - rewrite <- !app_assoc. reflexivity.
Qed.

End MintingService.

(** ** More on identity issuance *)

Section IssuanceMore.

Import TokenMinting DigitalIdService DigitalIdItem.

(** A property of runs that holds across one unit and across a failed
    line item holds across the whole batch. *)
Lemma run_induction x a (R : Results * World -> Results * World -> Prop) :
  (forall st, R st st) ->
  (forall s1 s2 s3, R s1 s2 -> R s2 s3 -> R s1 s3) ->
  (forall l v i st, R st (snd (createUnit x a l v i st))) ->
  (forall n st, R st (addFailed n (fst st), snd st)) ->
  forall items st, R st (fold_left (processLineItem x a) items st).
Proof.
  intros Rrefl Rtrans Runit Rfail.
  assert (Loop : forall l v n i st, R st (snd (unitLoop x a l v n i st))).
  { intros l v n. induction n as [|n IH]; intros i st; cbn [unitLoop]; [apply Rrefl|].
    pose proof (Runit l v i st) as U.
    destruct (createUnit x a l v i st) as [[e|] st']; cbn [snd] in *; [exact U|].
    eapply Rtrans; [exact U|apply IH]. }
  assert (Item : forall st l, R st (processLineItem x a st l)).
  { intros st l. unfold processLineItem.
    destruct (negb (truthyBig (li_variantId l))); [apply Rrefl|].
    destruct (coreProductVariant_findFirst _ _ _) as [v|]; [|apply Rfail].
    destruct (negb (truthy (cpv_brand_3fa_id v))); [apply Rfail|].
    pose proof (Loop l v (Z.to_nat (li_quantity l)) 0 st) as U.
    destruct (unitLoop x a l v _ 0 st) as [[e|] [res w]]; cbn [snd] in U; [|exact U].
    eapply Rtrans; [exact U|]. apply (Rfail (li_quantity l) (res, w)). }
  induction items as [|l items IH]; intros st; cbn [fold_left]; [apply Rrefl|].
  eapply Rtrans; [apply Item|apply IH].
Qed.

Lemma batch_rows x a w :
  let res := fst (createDigitalIdsForOrder x a w) in
  let w' := snd (createDigitalIdsForOrder x a w) in
  created res = Z.of_nat (length (digitalIds res))
  /\ keysOf (db w') = keysOf (db w) ++ map udi_shopifyLineItemId (digitalIds res)
  /\ Forall (issuedFor a) (digitalIds res).
Proof.
  pose (R := fun st st' : Results * World =>
    exists rows,
      digitalIds (fst st') = digitalIds (fst st) ++ rows
      /\ created (fst st') = created (fst st) + Z.of_nat (length rows)
      /\ keysOf (db (snd st')) = keysOf (db (snd st)) ++ map udi_shopifyLineItemId rows
      /\ Forall (issuedFor a) rows).
  assert (G : R (emptyResults, w) (createDigitalIdsForOrder x a w)).
  { unfold createDigitalIdsForOrder. apply run_induction.
    - intros st. exists []. rewrite !app_nil_r. repeat split; [simpl; lia|constructor].
    - intros s1 s2 s3 (r1 & D1 & C1 & K1 & F1) (r2 & D2 & C2 & K2 & F2).
      exists (r1 ++ r2). rewrite D2, D1, C2, C1, K2, K1, map_app, length_app, !app_assoc.
      repeat split; [lia|]. apply Forall_app. now split.
    - intros l v i [res w0].
      destruct (in_dec string_dec (uniqueLineItemId l i) (keysOf (db w0))) as [I|I].
      + destruct (createUnit_taken x a l v i res w0 I) as [e ->].
        exists []. rewrite !app_nil_r. repeat split; [simpl; lia|constructor].
      + destruct (createUnit_fresh x a l v i res w0 I) as (row & w1 & -> & Hrow & Sk & _).
        exists [row]. cbn [fst snd addCreated digitalIds created length map].
        repeat split; try lia.
        * rewrite (skeletonPlus_keys _ _ _ Sk), Hrow. reflexivity.
        * constructor; [|constructor]. rewrite Hrow. repeat split.
    - intros n st. exists []. rewrite !app_nil_r. repeat split; [simpl; lia|constructor]. }
  destruct G as (rows & D & C & K & F). cbn [fst snd emptyResults digitalIds created] in *.
  cbn zeta. rewrite D. repeat split; assumption.
Qed.

(** What [createDigitalIdsForOrder] returns is what it inserted: the
    count of created units is the number of identities returned; the
    keys in the store afterwards are the keys before, followed by the
    keys of the returned identities in order; and each returned identity
    carries the shop, order, owner, wallet and DID of the call, at
    status [CREATED]. *)
Theorem batch_returns_what_it_inserted x a w :
  let res := fst (createDigitalIdsForOrder x a w) in
  let w' := snd (createDigitalIdsForOrder x a w) in
  created res = Z.of_nat (length (digitalIds res))
  /\ keysOf (db w') = keysOf (db w) ++ map udi_shopifyLineItemId (digitalIds res)
  /\ Forall (issuedFor a) (digitalIds res).
Proof. exact (batch_rows x a w). Qed.

Lemma lineItemKeys_unitKeys l :
  unitKeys l (Z.to_nat (li_quantity l)) 0 = lineItemKeys l.
Proof.
  rewrite unitKeys_counters. unfold lineItemKeys, uniqueLineItemId, shopifyLineItemGid.
  destruct (Z.eqb_spec (li_quantity l) 1) as [E|E].
  - rewrite E. reflexivity.
  - destruct (Z.ltb_spec 1 (li_quantity l)); [reflexivity|].
    replace (Z.to_nat (li_quantity l)) with 0%nat by lia. reflexivity.
Qed.

Lemma length_lineItemKeys l : length (lineItemKeys l) = Z.to_nat (li_quantity l).
Proof.
  rewrite <- lineItemKeys_unitKeys, unitKeys_counters.
  unfold counters. now rewrite !length_map, length_seq.
Qed.

(** The batch on an order whose line items all resolve and whose unit
    keys are free and pairwise distinct: every unit is created. *)
Lemma fold_fresh x a items :
  forall res w,
    Forall (fun l => resolvedVariant (shopId a) l (db w) <> None) items ->
    NoDup (keysOf (db w) ++ flat_map lineItemKeys items) ->
    exists rows w',
      fold_left (processLineItem x a) items (res, w)
      = ({| created := created res + Z.of_nat (length (flat_map lineItemKeys items));
            failed := failed res; digitalIds := digitalIds res ++ rows |}, w')
      /\ map udi_shopifyLineItemId rows = flat_map lineItemKeys items
      /\ keysOf (db w') = keysOf (db w) ++ flat_map lineItemKeys items.
Proof.
  induction items as [|l items IH]; intros res w R N.
  - exists [], w. cbn. rewrite !app_nil_r, Z.add_0_r. destruct res; repeat split.
  - apply Forall_cons in R. destruct R as [Rl R].
    destruct (resolvedVariant (shopId a) l (db w)) as [v|] eqn:Rv; [clear Rl|congruence].
    cbn [fold_left flat_map] in *.
    rewrite (processLineItem_resolved x a (res, w) l v Rv).
    rewrite app_assoc in N.
    pose proof (proj1 (NoDup_app _ _) N) as (N1 & _ & _).
    pose proof (proj1 (NoDup_app _ _) N1) as (_ & D & Nl).
    rewrite <- (lineItemKeys_unitKeys l) in N, D, Nl |- *.
    set (n := Z.to_nat (li_quantity l)) in *.
    pose proof (unitLoop_extends x a l v n 0 (res, w)) as (_ & V & _).
    destruct (unitLoop_fresh x a l v n 0 res w Nl) as (rows & w1 & E & Hk & _ & Hkeys).
    { intros k I I'. apply (D k); apply list_elem_of_In; assumption. }
    rewrite E in V |- *. cbn [snd] in V.
    destruct (IH {| created := created res + Z.of_nat n; failed := failed res;
                    digitalIds := digitalIds res ++ rows |} w1)
      as (rows' & w' & E' & Hk' & Hkeys').
    { eapply Forall_impl; [exact R|]. intros l' H. cbn beta in *.
      now rewrite (resolvedVariant_ext _ _ _ _ V). }
    { rewrite Hkeys. exact N. }
    exists (rows ++ rows'), w'. rewrite E'. cbn [created failed digitalIds].
    repeat split.
    + f_equal. f_equal; [|now rewrite app_assoc].
      assert (Ln : length (unitKeys l n 0) = n).
      { rewrite unitKeys_counters. unfold counters. now rewrite !length_map, length_seq. }
      rewrite length_app, Ln. lia.
    + now rewrite map_app, Hk, Hk'.
    + now rewrite Hkeys', Hkeys, app_assoc.
Qed.

Lemma queueTokenMinting_calls x id w w' :
  queueTokenMinting x id w = inr w' ->
  (length (chainCalls (trace w')) <= length (chainCalls (trace w)) + 2)%nat.
Proof.
  unfold queueTokenMinting, mintIfConfigured.
  destruct (uniqueDigitalId_update _ _ _) as [e|d]; [discriminate|].
  intros [= <-]. destruct (_ || _).
  - cbn [emit trace withDb]. rewrite chainCalls_app, length_app. simpl. lia.
  - destruct (importMintingService x _).
    + cbn [emit trace withDb]. rewrite !chainCalls_app, !length_app. simpl. lia.
    + etransitivity; [apply mintDigitalIdOnBase_calls|].
      cbn [emit trace withDb]. rewrite !chainCalls_app, !length_app. simpl. lia.
Qed.

(** The batch sends at most two transactions per unit it created, and
    none for a unit it did not create. *)
Theorem batch_chain_calls_bounded x a w :
  Z.of_nat (length (chainCalls (trace (snd (createDigitalIdsForOrder x a w)))))
  <= Z.of_nat (length (chainCalls (trace w)))
     + 2 * created (fst (createDigitalIdsForOrder x a w)).
Proof.
  pose (R := fun st st' : Results * World =>
    Z.of_nat (length (chainCalls (trace (snd st')))) - 2 * created (fst st')
    <= Z.of_nat (length (chainCalls (trace (snd st)))) - 2 * created (fst st)).
  assert (G : R (emptyResults, w) (createDigitalIdsForOrder x a w)).
  { unfold createDigitalIdsForOrder. apply run_induction; unfold R.
    - intros st. lia.
    - intros s1 s2 s3 H1 H2. lia.
    - intros l v i [res w0]. unfold createUnit.
      destruct (uniqueDigitalId_create _ _) as [e|[row d]]; [cbn; lia|].
      destruct (queueTokenMinting x (udi_id row) _) as [e|w2] eqn:Q.
      + cbn [snd fst emit trace withDb]. rewrite chainCalls_app, length_app. simpl. lia.
      + apply queueTokenMinting_calls in Q.
        cbn [emit trace withDb] in Q. rewrite chainCalls_app, length_app in Q.
        cbn [snd fst addCreated created]. simpl in Q. lia.
    - intros n st. cbn. lia. }
  unfold R in G. cbn [fst snd emptyResults created] in G. lia.
Qed.

Lemma unitLoop_until_taken x a l v n :
  forall k i res w,
    (forall key, In key (unitKeys l k i) -> ~ In key (keysOf (db w))) ->
    NoDup (unitKeys l k i) ->
    In (uniqueLineItemId l (i + Z.of_nat k)) (keysOf (db w)) ->
    exists e rows w',
      unitLoop x a l v (k + S n) i (res, w)
      = (Some e, ({| created := created res + Z.of_nat k; failed := failed res;
                     digitalIds := digitalIds res ++ rows |}, w'))
      /\ map udi_shopifyLineItemId rows = unitKeys l k i
      /\ keysOf (db w') = keysOf (db w) ++ unitKeys l k i.
Proof.
  induction k as [|k IH]; intros i res w F N T.
  - cbn [Nat.add unitLoop unitKeys]. rewrite Z.add_0_r in T.
    destruct (createUnit_taken x a l v i res w T) as [e ->].
    exists e, [], w. rewrite !app_nil_r. repeat split.
    destruct res. cbn. now rewrite Z.add_0_r.
  - cbn [Nat.add unitLoop unitKeys] in *.
    apply NoDup_cons in N. destruct N as [Nhead N].
    destruct (createUnit_fresh x a l v i res w) as (row & w1 & -> & Hrow & Sk & _).
    { apply F. now left. }
    apply skeletonPlus_keys in Sk.
    destruct (IH (i + 1) (addCreated row res) w1) as (e & rows & w' & -> & Hk & Hkeys).
    + intros key I. rewrite Sk, in_app_iff. intros [I'|[<-|[]]].
      * apply (F key); [now right|exact I'].
      * apply Nhead. apply list_elem_of_In. exact I.
    + exact N.
    + rewrite Sk. apply in_or_app. left.
      replace (i + 1 + Z.of_nat k) with (i + Z.of_nat (S k)) by lia. exact T.
    + exists e, (row :: rows), w'. repeat split.
      * f_equal. f_equal. unfold addCreated; cbn. f_equal; [lia|].
        now rewrite <- app_assoc.
      * cbn [map]. rewrite Hk, Hrow. reflexivity.
      * rewrite Hkeys, Sk, <- app_assoc. reflexivity.
Qed.

(** When the key of a later unit of a line item is already taken, the
    units before it are created and stay, and the whole quantity of the
    line item is counted as failed: with k units created the line item
    adds k to created and its full quantity to failed. *)
Theorem taken_unit_fails_whole_line_item x a l v res w k :
  resolvedVariant (shopId a) l (db w) = Some v ->
  0 <= k < li_quantity l ->
  (forall i, 0 <= i < k -> ~ In (uniqueLineItemId l i) (keysOf (db w))) ->
  In (uniqueLineItemId l k) (keysOf (db w)) ->
  exists rows w',
    processLineItem x a (res, w) l
    = ({| created := created res + k; failed := failed res + li_quantity l;
          digitalIds := digitalIds res ++ rows |}, w')
    /\ Z.of_nat (length rows) = k
    /\ keysOf (db w') = keysOf (db w) ++ map udi_shopifyLineItemId rows.
Proof.
  intros R Hk F T.
  rewrite (processLineItem_resolved x a (res, w) l v R).
  replace (Z.to_nat (li_quantity l))
    with (Z.to_nat k + S (Z.to_nat (li_quantity l - k - 1)))%nat by lia.
  destruct (unitLoop_until_taken x a l v (Z.to_nat (li_quantity l - k - 1))
              (Z.to_nat k) 0 res w) as (e & rows & w' & -> & Hkeys & Hstore).
  - intros key I. destruct (unitKeys_In _ _ _ _ I) as (j & B & ->). apply F. lia.
  - apply unitKeys_NoDup. lia.
  - rewrite Z.add_0_l, Z2Nat.id by lia. exact T.
  - exists rows, w'. repeat split.
    + unfold addFailed. cbn. f_equal. f_equal. lia.
    + rewrite <- (length_map udi_shopifyLineItemId), Hkeys, unitKeys_counters.
      unfold counters. rewrite !length_map, length_seq. lia.
    + rewrite Hkeys. exact Hstore.
Qed.

End IssuanceMore.

(** ** Identities without a wallet, and the single-item path *)

Section WithoutWallet.

Import TokenMinting DigitalIdService DigitalIdItem.

Lemma udiKey_inj n m : udiKey n = udiKey m -> n = m.
Proof.
  unfold udiKey. intros E. apply (inj (String.app _)) in E. now apply (inj pretty) in E.
Qed.

Lemma wellKeyed_skeleton d d' : skeleton d' = skeleton d -> wellKeyed d -> wellKeyed d'.
Proof.
  intros Sk W n Hn. rewrite (skeleton_ids _ _ Sk).
  apply W. now rewrite <- (skeleton_serial _ _ Sk).
Qed.

Lemma find_app_last {A} (f : A -> bool) (l : list A) (r : A) :
  find f l = None -> f r = true -> find f (l ++ [r]) = Some r.
Proof.
  induction l as [|c l IH]; simpl; intros F H; [now rewrite H|].
  destruct (f c); [discriminate|auto].
Qed.

(** In a well-keyed store a new row gets an unused id: reading the id
    back gives the row, and the store stays well keyed. *)
Lemma create_wellKeyed c d row d' :
  uniqueDigitalId_create c d = inr (row, d') ->
  wellKeyed d ->
  wellKeyed d' /\ uniqueDigitalId_findUnique (udi_id row) d' = Some row.
Proof.
  intros C W. apply create_inr in C.
  destruct C as (_ & Hrow & Hrows & Hser & _ & _). split.
  - intros n Hn. rewrite Hrows, map_app, in_app_iff. rewrite Hser in Hn.
    intros [I|[I|[]]].
    + apply (W n); [lia|exact I].
    + rewrite Hrow in I. cbn in I. apply udiKey_inj in I. lia.
  - unfold uniqueDigitalId_findUnique. rewrite Hrows. apply find_app_last.
    + apply find_id_None. rewrite Hrow. cbn. apply W. lia.
    + apply String.eqb_refl.
Qed.

Lemma chainCalls_status t id s : chainCalls (t ++ [EvUdiStatus id s]) = chainCalls t.
Proof. rewrite chainCalls_app. simpl. apply app_nil_r. Qed.

Lemma chainCalls_import t f : chainCalls (t ++ [EvImport f]) = chainCalls t.
Proof. rewrite chainCalls_app. simpl. apply app_nil_r. Qed.

Lemma chainCalls_create t r : chainCalls (t ++ [EvUdiCreate r]) = chainCalls t.
Proof. rewrite chainCalls_app. simpl. apply app_nil_r. Qed.

(** The trigger on an identity without a wallet: no chain call, and the
    identity ends [MINT_PENDING] or [MINT_FAILED]. *)
Lemma queueTokenMinting_no_wallet x id w r w' :
  uniqueDigitalId_findUnique id (db w) = Some r ->
  truthy (udi_privyWalletAddress r) = false ->
  queueTokenMinting x id w = inr w' ->
  chainCalls (trace w') = chainCalls (trace w)
  /\ (statusOf id (db w') = Some MINT_PENDING \/ statusOf id (db w') = Some MINT_FAILED).
Proof.
  intros Hr Hw. unfold queueTokenMinting, mintIfConfigured.
  destruct (update_found id (setStatus MINT_PENDING) (db w) r Hr) as (d1 & U & F);
    [reflexivity|].
  rewrite U. intros [= <-].
  assert (S1 : statusOf id d1 = Some MINT_PENDING) by (unfold statusOf; now rewrite F).
  destruct (_ || _).
  - cbn [emit trace withDb db]. rewrite chainCalls_status. auto.
  - destruct (importMintingService x _).
    + cbn [emit trace withDb db]. rewrite chainCalls_import, chainCalls_status. auto.
    + match goal with |- context [mintDigitalIdOnBase x id ?w0] =>
        destruct (mintDigitalIdOnBase_no_recipient x id w0 (setStatus MINT_PENDING r))
          as (_ & _ & T & G) end; [exact F|exact Hw|].
      rewrite T. cbn [emit trace withDb]. 
      rewrite chainCalls_status, chainCalls_import, chainCalls_status. split; [reflexivity|].
      right. unfold statusOf. now rewrite G.
Qed.

Lemma createUnit_no_wallet x a l v i st :
  truthy (privyWalletAddress a) = false ->
  wellKeyed (db (snd st)) ->
  chainCalls (trace (snd (snd (createUnit x a l v i st)))) = chainCalls (trace (snd st))
  /\ wellKeyed (db (snd (snd (createUnit x a l v i st)))).
Proof.
  intros Hw W. destruct st as [res w]. cbn [snd] in *. unfold createUnit.
  destruct (uniqueDigitalId_create _ (db w)) as [e|[row d]] eqn:C; [now split|].
  destruct (create_wellKeyed _ _ _ _ C W) as (W1 & F).
  assert (Hrow : udi_privyWalletAddress row = privyWalletAddress a).
  { apply create_inr in C. destruct C as (_ & -> & _). reflexivity. }
  destruct (queueTokenMinting x (udi_id row) _) as [e|w2] eqn:Q; cbn [snd].
  - cbn [emit trace withDb db]. rewrite chainCalls_create. now split.
  - destruct (queueTokenMinting_frame _ _ _ _ Q) as ((Sk & _) & _).
    apply (queueTokenMinting_no_wallet x _ _ row) in Q;
      [|exact F|now rewrite Hrow].
    destruct Q as (Q & _). rewrite Q. cbn [emit trace withDb]. rewrite chainCalls_create.
    split; [reflexivity|]. eapply wellKeyed_skeleton; [exact Sk|exact W1].
Qed.

Lemma batch_no_wallet x a w :
  wellKeyed (db w) ->
  truthy (privyWalletAddress a) = false ->
  chainCalls (trace (snd (createDigitalIdsForOrder x a w))) = chainCalls (trace w)
  /\ wellKeyed (db (snd (createDigitalIdsForOrder x a w))).
Proof.
  intros W Hw.
  pose (R := fun st st' : Results * World =>
    wellKeyed (db (snd st)) ->
    chainCalls (trace (snd st')) = chainCalls (trace (snd st))
    /\ wellKeyed (db (snd st'))).
  assert (G : R (emptyResults, w) (createDigitalIdsForOrder x a w)).
  { unfold createDigitalIdsForOrder. apply run_induction; unfold R.
    - intros st H. now split.
    - intros s1 s2 s3 H1 H2 H. destruct (H1 H) as (E1 & W1).
      destruct (H2 W1) as (E2 & W2). split; [congruence|exact W2].
    - intros l v i st H. now apply createUnit_no_wallet.
    - intros n st H. now split. }
  exact (G W).
Qed.

(** Without a wallet address (wallet provisioning failed or was
    skipped) the batch never sends a transaction, whatever the minting
    configuration, and it still issues: when every line item resolves
    and the unit keys are free and pairwise distinct, every unit is
    created and none fails, each under its key, at [CREATED] and
    without a wallet. *)
Theorem batch_without_wallet_never_calls_chain x a w :
  wellKeyed (db w) ->
  truthy (privyWalletAddress a) = false ->
  let res := fst (createDigitalIdsForOrder x a w) in
  let w' := snd (createDigitalIdsForOrder x a w) in
  let keys := flat_map lineItemKeys (lineItems a) in
  chainCalls (trace w') = chainCalls (trace w)
  /\ wellKeyed (db w')
  /\ (Forall (fun l => resolvedVariant (shopId a) l (db w) <> None) (lineItems a) ->
      NoDup (keysOf (db w) ++ keys) ->
      created res = Z.of_nat (length keys)
      /\ failed res = 0
      /\ map udi_shopifyLineItemId (digitalIds res) = keys
      /\ Forall (fun r => udi_status r = CREATED
                          /\ udi_privyWalletAddress r = privyWalletAddress a)
                (digitalIds res)
      /\ keysOf (db w') = keysOf (db w) ++ keys).
Proof.
  intros W Hw res w' keys.
  destruct (batch_no_wallet x a w W Hw) as (C & W').
  split; [exact C|]. split; [exact W'|]. intros R N.
  destruct (batch_rows x a w) as (_ & _ & F).
  subst res w' keys. unfold createDigitalIdsForOrder in *.
  destruct (fold_fresh x a (lineItems a) emptyResults w R N) as (rows & w1 & E & Hk & Hkeys).
  rewrite E in F |- *. cbn [fst snd created failed digitalIds emptyResults app] in *.
  repeat split; try assumption.
  eapply Forall_impl; [exact F|].
  intros r (_ & _ & _ & _ & Hwallet & _ & Hstatus). now split.
Qed.

(** [createDigitalIdForOrderItem] throws only before it writes: a call
    that throws leaves the world untouched, and it throws exactly when
    the key is free and the variant is missing or has no brand; a call
    that returns gives an identity under the requested key, which is
    then in the store. *)
Theorem single_item_throws_only_before_writing x a w :
  match createDigitalIdForOrderItem x a w with
  | (inl _, w') =>
      w' = w
      /\ uniqueDigitalId_findByLineItem (ia_shopifyLineItemId a) (db w) = None
      /\ match coreProductVariant_findUnique (ia_coreProductVariantId a) (db w) with
         | Some coreVariant => truthy (cpv_brand_3fa_id coreVariant) = false
         | None => True
         end
  | (inr digitalId, w') =>
      udi_shopifyLineItemId digitalId = ia_shopifyLineItemId a
      /\ In (ia_shopifyLineItemId a) (keysOf (db w'))
  end.
Proof.
  unfold createDigitalIdForOrderItem.
  destruct (uniqueDigitalId_findByLineItem _ (db w)) as [existing|] eqn:F.
  - unfold uniqueDigitalId_findByLineItem in F. pose proof (find_some _ _ F) as [I E].
    apply String.eqb_eq in E. split; [exact E|].
    unfold keysOf. rewrite <- E. now apply in_map.
  - destruct (coreProductVariant_findUnique _ _) as [v|]; [|now repeat split].
    destruct (truthy (cpv_brand_3fa_id v)) eqn:B; cbn [negb]; [|now repeat split].
    apply findByLineItem_None in F.
    destruct (create_fresh (itemData x a v) (db w) F) as (row & d & C).
    rewrite C. pose proof (create_inr _ _ _ _ C) as (_ & Hrow & Hrows & _ & _ & Hfound).
    destruct (queueTokenMinting_returns x (udi_id row)
                (emit (EvUdiCreate row) (withDb w d)) Hfound) as [w2 Q].
    rewrite Q. split; [now rewrite Hrow|].
    destruct (queueTokenMinting_frame _ _ _ _ Q) as ((Sk & _) & _).
    rewrite (skeleton_keys _ _ Sk). cbn [db emit withDb]. unfold keysOf.
    rewrite Hrows, map_app, in_app_iff. right. rewrite Hrow. now left.
Qed.

Lemma skeleton_find_key_id k d1 d2 :
  skeleton d1 = skeleton d2 ->
  option_map udi_id (uniqueDigitalId_findByLineItem k d1)
  = option_map udi_id (uniqueDigitalId_findByLineItem k d2).
Proof.
  unfold skeleton, uniqueDigitalId_findByLineItem. intros [= H _ _].
  revert H. generalize (uniqueDigitalIds d2). 
  induction (uniqueDigitalIds d1) as [|r1 l1 IH]; intros [|r2 l2]; simpl;
    try discriminate; [reflexivity|].
  intros [= Hid Hkey Hrest]. rewrite Hkey.
  destruct (String.eqb (udi_shopifyLineItemId r2) k); simpl; [now rewrite Hid|auto].
Qed.

(** The single-item path is idempotent: a second call for the same line
    item hands back the identity of the first call, writes nothing and
    does not trigger minting again. *)
Theorem single_item_issuance_idempotent x1 x2 a w digitalId w1 :
  createDigitalIdForOrderItem x1 a w = (inr digitalId, w1) ->
  exists again,
    createDigitalIdForOrderItem x2 a w1 = (inr again, w1)
    /\ udi_id again = udi_id digitalId
    /\ udi_shopifyLineItemId again = udi_shopifyLineItemId digitalId.
Proof.
  unfold createDigitalIdForOrderItem at 1.
  destruct (uniqueDigitalId_findByLineItem _ (db w)) as [existing|] eqn:F.
  - intros [= <- <-]. exists existing. unfold createDigitalIdForOrderItem.
    rewrite F. repeat split.
  - destruct (coreProductVariant_findUnique _ _) as [v|]; [|discriminate].
    destruct (negb _); [discriminate|].
    destruct (uniqueDigitalId_create _ _) as [e|[row d]] eqn:C; [discriminate|].
    destruct (queueTokenMinting x1 _ _) as [e|w2] eqn:Q; [discriminate|].
    intros [= <- <-].
    destruct (queueTokenMinting_frame _ _ _ _ Q) as ((Sk & _) & _).
    pose proof (skeleton_find_key_id (ia_shopifyLineItemId a) _ _ Sk) as E.
    cbn [db emit withDb] in E.
    pose proof (create_inr _ _ _ _ C) as (_ & Hrow & Hrows & _).
    assert (Fd : uniqueDigitalId_findByLineItem (ia_shopifyLineItemId a) d = Some row).
    { unfold uniqueDigitalId_findByLineItem. rewrite Hrows. apply find_app_last.
      - exact F.
      - rewrite Hrow. apply String.eqb_refl. }
    rewrite Fd in E. unfold createDigitalIdForOrderItem.
    destruct (uniqueDigitalId_findByLineItem _ (db w2)) as [again|] eqn:F2; [|discriminate].
    exists again. injection E as E. repeat split; [exact E|].
    unfold uniqueDigitalId_findByLineItem in F2. apply find_some in F2.
    destruct F2 as [_ K]. apply String.eqb_eq in K. rewrite K, Hrow. reflexivity.
Qed.

(** An identity issued on the single-item path has no wallet, so it is
    never sent to the chain: with minting configured it ends
    [MINT_FAILED], otherwise it stays [MINT_PENDING]. *)
Theorem single_item_never_reaches_chain x a w :
  wellKeyed (db w) ->
  chainCalls (trace (snd (createDigitalIdForOrderItem x a w))) = chainCalls (trace w)
  /\ (uniqueDigitalId_findByLineItem (ia_shopifyLineItemId a) (db w) = None ->
      forall digitalId,
        fst (createDigitalIdForOrderItem x a w) = inr digitalId ->
        statusOf (udi_id digitalId) (db (snd (createDigitalIdForOrderItem x a w)))
        = Some MINT_PENDING
        \/ statusOf (udi_id digitalId) (db (snd (createDigitalIdForOrderItem x a w)))
           = Some MINT_FAILED).
Proof.
  intros W. unfold createDigitalIdForOrderItem.
  destruct (uniqueDigitalId_findByLineItem _ (db w)) as [existing|] eqn:F.
  - split; [reflexivity|discriminate].
  - destruct (coreProductVariant_findUnique _ _) as [v|];
      [|split; [reflexivity|intros _ ?; discriminate]].
    destruct (negb _); [split; [reflexivity|intros _ ?; discriminate]|].
    destruct (uniqueDigitalId_create _ _) as [e|[row d]] eqn:C;
      [split; [reflexivity|intros _ ?; discriminate]|].
    destruct (create_wellKeyed _ _ _ _ C W) as (_ & Fr).
    assert (Hrow : udi_privyWalletAddress row = None).
    { apply create_inr in C. destruct C as (_ & -> & _). reflexivity. }
    destruct (queueTokenMinting x _ _) as [e|w2] eqn:Q; cbn [fst snd].
    + cbn [emit trace withDb]. rewrite chainCalls_create.
      split; [reflexivity|intros _ ?; discriminate].
    + apply (queueTokenMinting_no_wallet x _ _ row) in Q; [|exact Fr|now rewrite Hrow].
      destruct Q as (Q & S). rewrite Q. cbn [emit trace withDb]. rewrite chainCalls_create.
      split; [reflexivity|]. intros _ digitalId [= <-]. exact S.
Qed.

End WithoutWallet.

(** ** The worker around identity issuance *)

Section WorkerStepsFacts.

Import TokenMinting DigitalIdService Worker WorkerSteps.

(** [sanitizePriceValue] always gives a usable value: never empty, no
    white space at either end, and sanitising it again changes nothing. *)
Theorem sanitizePriceValue_canonical v :
  sanitizePriceValue v <> ""
  /\ trimmed (sanitizePriceValue v)
  /\ sanitizePriceValue (Some (sanitizePriceValue v)) = sanitizePriceValue v.
Proof.
  assert (Z0 : "0" <> "" /\ trimmed "0" /\ sanitizePriceValue (Some "0") = "0").
  { repeat split; discriminate. }
  destruct v as [s|]; [|exact Z0].
  assert (C : sanitizePriceValue (Some s) = "0"
              \/ (sanitizePriceValue (Some s) = trim s /\ trim s <> "")).
  { unfold sanitizePriceValue. destruct (String.eqb_spec (trim s) ""); auto. }
  destruct C as [-> | [-> E]]; [exact Z0|].
  split; [exact E|]. split; [apply trim_trimmed|].
  unfold sanitizePriceValue. rewrite (trim_id _ (trim_trimmed s)).
  now destruct (String.eqb_spec (trim s) "").
Qed.

Lemma setOrderStatus_frame id s w w' :
  setOrderStatus id s w = inr w' ->
  skeleton (db w') = skeleton (db w)
  /\ shopifyLineItems (db w') = shopifyLineItems (db w)
  /\ trace w' = trace w.
Proof.
  unfold setOrderStatus, orders3fa_updateStatus.
  destruct (find _ _); [|discriminate]. intros [= <-]. repeat split.
Qed.

Lemma order_found_of_status id d s :
  option_map o3_status (orders3fa_find id d) = Some s -> orders3fa_find id d <> None.
Proof. destruct (orders3fa_find id d); [discriminate|discriminate]. Qed.

(** The wallet step with a user, a phone and the order record: the
    order goes through [PENDING_WALLET]; a successful provisioning hands
    on the address and the DID and leaves [WALLET_PROVISIONED]; an
    unsuccessful one hands on nothing and leaves
    [FAILED_WALLET_PROVISIONING]; when the user service throws, the step
    throws and the order is left at [PENDING_WALLET].  No identity is
    touched. *)
Theorem provisionWallet_outcomes ensure u o phone w :
  orders3fa_find (o3_id o) (db w) <> None ->
  truthy phone = true ->
  let out := provisionWallet ensure (Some u) phone (Some o) w in
  uniqueDigitalIds (db (snd out)) = uniqueDigitalIds (db w)
  /\ trace (snd out) = trace w
  /\ match ensure (u3_id u) (default "" phone) with
     | inr result =>
         fst out = inr (if pr_success result
                        then (pr_privyWalletAddress result, pr_privyDid result)
                        else (None, None))
         /\ option_map o3_status (orders3fa_find (o3_id o) (db (snd out)))
            = Some (if pr_success result then WALLET_PROVISIONED
                    else FAILED_WALLET_PROVISIONING)
     | inl e =>
         fst out = inl e
         /\ option_map o3_status (orders3fa_find (o3_id o) (db (snd out)))
            = Some PENDING_WALLET
     end.
Proof.
  intros Hrow Hp out. subst out. unfold provisionWallet. rewrite Hp.
  destruct (setOrderStatus_found (o3_id o) PENDING_WALLET w Hrow) as (w1 & -> & S1 & I1 & T1).
  pose proof (order_found_of_status _ _ _ S1) as Hrow1.
  destruct (ensure (u3_id u) (default "" phone)) as [e|result].
  - cbn [fst snd]. repeat split; assumption.
  - destruct (pr_success result).
    + destruct (setOrderStatus_found (o3_id o) WALLET_PROVISIONED w1 Hrow1)
        as (w2 & -> & S2 & I2 & T2).
      cbn [fst snd]. repeat split; try assumption; congruence.
    + destruct (setOrderStatus_found (o3_id o) FAILED_WALLET_PROVISIONING w1 Hrow1)
        as (w2 & -> & S2 & I2 & T2).
      cbn [fst snd]. repeat split; try assumption; congruence.
Qed.


(** When wallet provisioning does not succeed, the job goes on to the
    issuance step, which sends nothing to the chain; and when the line
    items of the order all resolve and their unit keys are free and
    pairwise distinct, the issuer called by the step creates every unit
    without a wallet, none fails, the keys are in the store afterwards
    and the order ends [COMPLETED]. *)
Theorem failed_wallet_still_issues x ensure u o dbId shop oid phone w result :
  wellKeyed (db w) ->
  orders3fa_find (o3_id o) (db w) <> None ->
  truthy phone = true ->
  ensure (u3_id u) (default "" phone) = inr result ->
  pr_success result = false ->
  let keys := flat_map lineItemKeys (shopifyLineItem_findMany (odb_id dbId) (db w)) in
  exists w1 w2,
    provisionWallet ensure (Some u) phone (Some o) w = (inr (None, None), w1)
    /\ createDigitalIdsStep (digitalIdService x) (Some u) (Some o) (Some dbId)
         shop oid None None w1 = inr w2
    /\ chainCalls (trace w2) = chainCalls (trace w)
    /\ (Forall (fun l => resolvedVariant shop l (db w) <> None)
               (shopifyLineItem_findMany (odb_id dbId) (db w)) ->
        NoDup (keysOf (db w) ++ keys) ->
        let issued := fst (createDigitalIdsForOrder x
                             (issuerArgs u o dbId shop oid None None w1) w1) in
        created issued = Z.of_nat (length keys)
        /\ failed issued = 0
        /\ map udi_shopifyLineItemId (digitalIds issued) = keys
        /\ Forall (fun r => udi_privyWalletAddress r = None) (digitalIds issued)
        /\ keysOf (db w2) = keysOf (db w) ++ keys
        /\ option_map o3_status (orders3fa_find (o3_id o) (db w2)) = Some COMPLETED).
Proof.
  intros W Hrow Hp He Hs keys. unfold provisionWallet. rewrite Hp, He, Hs.
  destruct (setOrderStatus_found (o3_id o) PENDING_WALLET w Hrow) as (w0 & E0 & S0 & _).
  rewrite E0. pose proof (order_found_of_status _ _ _ S0) as Hrow0.
  destruct (setOrderStatus_found (o3_id o) FAILED_WALLET_PROVISIONING w0 Hrow0)
    as (w1 & E1 & S1 & _).
  rewrite E1. exists w1.
  destruct (setOrderStatus_frame _ _ _ _ E0) as (Sk0 & L0 & T0).
  destruct (setOrderStatus_frame _ _ _ _ E1) as (Sk1 & L1 & T1).
  assert (Sk : skeleton (db w1) = skeleton (db w)) by congruence.
  assert (W1 : wellKeyed (db w1)) by (eapply wellKeyed_skeleton; eauto).
  assert (Items : shopifyLineItem_findMany (odb_id dbId) (db w1)
                  = shopifyLineItem_findMany (odb_id dbId) (db w)).
  { unfold shopifyLineItem_findMany. now rewrite L1, L0. }
  unfold createDigitalIdsStep, issueAndRecord.
  set (a := issuerArgs u o dbId shop oid None None w1).
  pose proof (digitalIdService_orders x a w1) as O.
  destruct (batch_no_wallet x a w1 W1 eq_refl) as (Calls & _).
  pose proof (batch_rows x a w1) as (_ & _ & Rows).
  pose proof (fold_fresh x a (lineItems a) emptyResults w1) as Fresh.
  unfold digitalIdService in *. unfold createDigitalIdsForOrder in Fresh.
  fold (createDigitalIdsForOrder x a w1) in Fresh.
  destruct (createDigitalIdsForOrder x a w1) as [res w'] eqn:Run. cbn [fst snd] in *.
  destruct (setOrderStatus_found (orders3faId a) (statusForResults res) w')
    as (w2 & E2 & S2 & U2 & T2).
  { unfold orders3fa_find. rewrite O. apply (order_found_of_status _ _ _ S1). }
  rewrite E2. exists w2. split; [reflexivity|]. split; [reflexivity|]. split.
  - rewrite T2, Calls, T1, T0. reflexivity.
  - intros R N.
    destruct Fresh as (rows & w'' & E & Hk & Hkeys).
    { subst a. cbn [lineItems shopId issuerArgs]. rewrite Items.
      eapply Forall_impl; [exact R|]. intros l H. cbn beta in *.
      rewrite (resolvedVariant_ext _ _ _ _ (f_equal snd Sk)). exact H. }
    { subst a. cbn [lineItems issuerArgs]. rewrite Items, (skeleton_keys _ _ Sk). exact N. }
    injection E as -> <-.
    subst a. cbn [lineItems issuerArgs created failed digitalIds emptyResults app] in *.
    rewrite Items in *. fold keys in Hk, Hkeys |- *.
    split; [reflexivity|]. split; [reflexivity|]. split; [exact Hk|]. split; [|split].
    + eapply Forall_impl; [exact Rows|].
      intros r (_ & _ & _ & _ & Hwallet & _). exact Hwallet.
    + unfold keysOf. rewrite U2. fold (keysOf (db w')).
      rewrite Hkeys, (skeleton_keys _ _ Sk). reflexivity.
    + exact S2.
Qed.

End WorkerStepsFacts.

Section NotificationAndEvents.

Import Worker WorkerSteps.

Lemma stampSms_found id t d :
  orders3fa_find id d <> None ->
  exists d', orders3fa_stampSms id t d = inr d'
             /\ option_map o3_smsNotificationSentAt (orders3fa_find id d') = Some (Some t)
             /\ option_map o3_status (orders3fa_find id d')
                = option_map o3_status (orders3fa_find id d).
Proof.
  unfold orders3fa_stampSms, orders3fa_find.
  destruct (find _ (orders3fas d)) as [o|] eqn:F; [|congruence].
  intros _. eexists. split; [reflexivity|]. simpl.
  rewrite orders_find_patched by reflexivity. rewrite F. split; reflexivity.
Qed.

(** The notification step never fails the job when the order record is
    there and a phone is known.  With Twilio set up, exactly one message
    goes to the customer's phone, and the sent time is stamped exactly
    when Twilio accepted it (a Twilio error leaves the store as it was);
    without Twilio, no message is sent and the send is simulated: the
    time is stamped all the same. *)
Theorem sendSms_outcomes twilioClient from date brand product o phone w :
  orders3fa_find (o3_id o) (db w) <> None ->
  truthy phone = true ->
  let out := sendSms twilioClient from date brand product (Some o) phone w in
  let thrown := fst (fst out) in
  let w' := snd (fst out) in
  let sent := snd out in
  let request := {| sms_body := messageBody brand product o;
                    sms_from := default "" from; sms_to := default "" phone |} in
  let stamped :=
    option_map o3_smsNotificationSentAt (orders3fa_find (o3_id o) (db w')) = Some (Some date) in
  thrown = None
  /\ trace w' = trace w
  /\ match twilioClient with
     | Some client =>
         if truthy from then
           sent = [request]
           /\ match messages_create client request with
              | inr _ => stamped
              | inl _ => w' = w
              end
         else sent = [] /\ stamped
     | None => sent = [] /\ stamped
     end.
Proof.
  intros Hrow Hp. cbn zeta. unfold sendSms. rewrite Hp.
  destruct (stampSms_found (o3_id o) date (db w) Hrow) as (d' & E & S & _).
  destruct twilioClient as [client|].
  - destruct (truthy from).
    + destruct (messages_create client _) as [e|sid].
      * cbn. repeat split.
      * rewrite E. cbn. repeat split. exact S.
    + rewrite E. cbn. repeat split. exact S.
  - rewrite E. cbn. repeat split. exact S.
Qed.

(** Without a phone nothing is sent and nothing is stamped. *)
Theorem sendSms_without_phone twilioClient from date brand product orders3fa phone w :
  truthy phone = false ->
  sendSms twilioClient from date brand product orders3fa phone w = (None, w, []).
Proof. intros H. unfold sendSms. rewrite H. now destruct orders3fa. Qed.

(** A Twilio client exists only when the account sid, the auth token
    and the sending number are all set; in particular a client always
    comes with a sending number. *)
Theorem twilio_client_needs_all_credentials sid token number construct client :
  initTwilioClient sid token number construct = Some client ->
  truthy sid = true /\ truthy token = true /\ truthy number = true
  /\ construct = inr client.
Proof.
  unfold initTwilioClient.
  destruct (truthy sid), (truthy token), (truthy number); cbn; try discriminate.
  destruct construct; [discriminate|]. intros [= ->]. repeat split.
Qed.

Lemma webhook_find_patched (id : string) patch (rows : list WebhookEvent) :
  (forall e, we_id (patch e) = we_id e) ->
  find (fun e => String.eqb (we_id e) id)
       (map (fun e => if String.eqb (we_id e) id then patch e else e) rows)
  = option_map patch (find (fun e => String.eqb (we_id e) id) rows).
Proof.
  intros K. induction rows as [|e rows IH]; simpl; [reflexivity|].
  destruct (String.eqb (we_id e) id) eqn:E.
  - rewrite K, E. reflexivity.
  - rewrite E. exact IH.
Qed.

Lemma webhookEvent_update_read id patch d e :
  (forall e0, we_id (patch e0) = we_id e0) ->
  find (fun e0 => String.eqb (we_id e0) id) (webhookEvents d) = Some e ->
  exists d', webhookEvent_update id patch d = inr d'
             /\ find (fun e0 => String.eqb (we_id e0) id) (webhookEvents d') = Some (patch e).
Proof.
  intros K F. unfold webhookEvent_update. rewrite F. eexists. split; [reflexivity|].
  cbn [webhookEvents setWebhookEvents]. rewrite webhook_find_patched by exact K.
  now rewrite F.
Qed.

Lemma length_substring_le m : forall s, (String.length (String.substring 0 m s) <= m)%nat.
Proof.
  induction m as [|m IH]; intros [|c s]; simpl; try lia.
  specialize (IH s). lia.
Qed.

(** A job that failed for good leaves its event unprocessed with a
    bounded error text (at most 900 characters of the message) and the
    error count as it was; a later successful run of the job clears that
    state again. *)
Theorem final_failure_then_success date id attempts message d e :
  find (fun e0 => String.eqb (we_id e0) id) (webhookEvents d) = Some e ->
  let d1 := onFailed (Some (id, attempts)) message d in
  exists e1,
    find (fun e0 => String.eqb (we_id e0) id) (webhookEvents d1) = Some e1
    /\ we_processed e1 = false
    /\ we_errorCount e1 = we_errorCount e
    /\ we_lastError e1 = Some ("FINAL FAILURE after " +:+ pretty attempts
                               +:+ " attempts: " +:+ substring900 message)
    /\ (String.length (substring900 message) <= 900)%nat
    /\ exists d2 e2,
         finalizeWebhookEvent date id d1 = inr d2
         /\ find (fun e0 => String.eqb (we_id e0) id) (webhookEvents d2) = Some e2
         /\ we_processed e2 = true
         /\ we_lastError e2 = None
         /\ we_errorCount e2 = 0.
Proof.
  intros F d1. subst d1. unfold onFailed.
  destruct (webhookEvent_update_read id (markFinalFailure attempts message) d e)
    as (d1 & U1 & F1); [reflexivity|exact F|].
  rewrite U1. eexists. split; [exact F1|]. repeat split.
  - apply length_substring_le.
  - destruct (webhookEvent_update_read id (markProcessed date) d1 _ (fun _ => eq_refl) F1)
      as (d2 & U2 & F2).
    exists d2. eexists. split; [exact U2|]. split; [exact F2|]. repeat split.
Qed.

(** The failure listener never throws and never invents an event: with
    no job object, or for an event that is not in the store, the store
    is left as it is. *)
Theorem onFailed_without_event job message d :
  match job with
  | Some (id, _) => find (fun e0 => String.eqb (we_id e0) id) (webhookEvents d) = None
  | None => True
  end ->
  onFailed job message d = d.
Proof.
  destruct job as [[id attempts]|]; [|reflexivity].
  intros F. unfold onFailed, webhookEvent_update. now rewrite F.
Qed.

End NotificationAndEvents.

(** ** More on event intake *)

Section IntakeMore.

Import Intake.

(** Whatever happens inside, the sender is answered with status 200. *)
Theorem action_always_acknowledges rq w : status (fst (action rq w)) = 200.
Proof.
  unfold action.
  destruct (authenticate_webhook rq) as [e|c]; [reflexivity|].
  destruct (ctx_shop c) as [shop|], (ctx_topic c) as [topic|], (ctx_payload c) as [p|];
    try reflexivity.
  destruct (negb _ || negb _); [reflexivity|].
  destruct (po_id p) as [n|]; [|reflexivity].
  destruct (negb _); [reflexivity|].
  destruct (webhookEvent_create _ _ _ _ _ _) as [e|[row d1]]; [reflexivity|].
  destruct (negb _).
  - destruct (webhookEvent_update _ _ _); reflexivity.
  - destruct (orderProcessingQueue_add _ _ _ _ _) as [job q1].
    destruct (webhookEvent_update _ _ _); reflexivity.
Qed.

(** Nothing is stored or enqueued for a request that does not pass the
    checks: if intake changed the world at all, the request was
    authenticated, carried a shop, a topic that normalises to
    [orders/create], and a payload with a numeric order id. *)
Theorem only_well_formed_requests_are_stored rq w :
  snd (action rq w) <> w ->
  exists shop topic payload n, wellFormed rq shop topic payload n.
Proof.
  unfold action, wellFormed.
  destruct (authenticate_webhook rq) as [e|[cshop ctopic cpayload]]; [now intros []|].
  cbn [ctx_shop ctx_topic ctx_payload].
  destruct cshop as [shop|], ctopic as [topic|], cpayload as [p|]; try (now intros []).
  cbn [truthy].
  destruct (String.eqb_spec shop "") as [Es|Es]; [now intros []|].
  destruct (String.eqb_spec topic "") as [Et|Et]; [now intros []|].
  cbn [negb orb].
  destruct (po_id p) as [n|] eqn:Hid; [|now intros []].
  destruct (String.eqb_spec (underscoresToSlashes (toLowerCase topic)) "orders/create")
    as [Etop|Etop]; [|now intros []].
  intros _. exists shop, topic, p, n. repeat split; assumption.
Qed.

Lemma map_same_if {A} (c : A -> bool) (l : list A) :
  map (fun e => if c e then e else e) l = l.
Proof.
  induction l as [|a l IH]; simpl; [reflexivity|]. rewrite IH. now destruct (c a).
Qed.

(** Intake of a well-formed event with a phone under a free key: the
    event is appended as it came, not processed, and the job for the
    order is asked for. *)
Lemma action_accepted rq w shop topic payload n :
  wellFormed rq shop topic payload n ->
  webhookEvent_findByEventId (dedupKey rq n) (store w) = None ->
  truthy (customerPhone payload) = true ->
  let row := {| we_id := webhookKey (webhookSerial (store w)); we_shopId := shop;
                we_topic := "orders/create"; we_payload := payload;
                we_processed := false; we_eventId := dedupKey rq n;
                we_processedAt := None; we_lastError := None; we_errorCount := 0 |} in
  exists d2,
    action rq w
    = ({| body := None; status := 200 |},
       {| store := d2;
          queue := snd (orderProcessingQueue_add ("order-create-" +:+ pretty n)
                          (we_id row) ("order-" +:+ shop +:+ "-" +:+ pretty n)
                          (dateNow rq 0%nat) (queue w)) |})
    /\ webhookEvents d2 = webhookEvents (store w) ++ [row].
Proof.
  intros (A & Hs & Ht & Hid & Htop) F P row.
  apply String.eqb_neq in Hs, Ht.
  unfold action. rewrite A. cbn [ctx_shop ctx_topic ctx_payload truthy].
  rewrite Hs, Ht, Hid, Htop. cbn [negb orb String.eqb Ascii.eqb Bool.eqb].
  unfold webhookEvent_create. rewrite F, P. cbn [negb].
  destruct (orderProcessingQueue_add _ _ _ _ (queue w)) as [job q1] eqn:Q.
  fold row. unfold webhookEvent_update.
  cbn [webhookEvents setWebhookEvents webhookSerial].
  assert (G : find (fun e => String.eqb (we_id e) (we_id row)) (webhookEvents (store w) ++ [row])
              <> None).
  { intros N. pose proof (find_none _ _ N row) as X. simpl in X.
    rewrite String.eqb_refl in X. discriminate X. apply in_or_app. right. now left. }
  destruct (find _ (webhookEvents (store w) ++ [row])); [|congruence].
  eexists. split; [reflexivity|]. cbn [webhookEvents setWebhookEvents].
  apply map_same_if.
Qed.

(** An accepted event gets its job: the stored event is the payload as
    received, still unprocessed, and when the order has no job yet the
    queue grows by exactly one job, named after the order, keyed by shop
    and order id, and pointing at the stored event.  The order id is a
    safe integer, which a JavaScript number holds exactly and prints in
    plain decimal. *)
Theorem accepted_event_is_queued rq w shop topic payload n :
  safeInteger n ->
  wellFormed rq shop topic payload n ->
  webhookEvent_findByEventId (dedupKey rq n) (store w) = None ->
  truthy (customerPhone payload) = true ->
  find (fun j => String.eqb (job_id j) ("order-" +:+ shop +:+ "-" +:+ pretty n)) (queue w)
  = None ->
  exists e,
    webhookEvents (store (snd (action rq w))) = webhookEvents (store w) ++ [e]
    /\ we_eventId e = dedupKey rq n /\ we_shopId e = shop /\ we_payload e = payload
    /\ we_processed e = false
    /\ queue (snd (action rq w))
       = queue w ++ [{| job_id := "order-" +:+ shop +:+ "-" +:+ pretty n;
                        job_name := "order-create-" +:+ pretty n;
                        job_webhookEventId := we_id e;
                        job_timestamp := dateNow rq 0%nat |}].
Proof.
  intros _ WF F P Q.
  destruct (action_accepted rq w shop topic payload n WF F P) as (d2 & E & R).
  rewrite E. cbn [snd store queue]. eexists. split; [exact R|].
  unfold orderProcessingQueue_add. rewrite Q. repeat split.
Qed.

Lemma queue_add_present name ev jobId t q :
  find (fun j => String.eqb (job_id j) jobId)
       (snd (orderProcessingQueue_add name ev jobId t q)) <> None.
Proof.
  unfold orderProcessingQueue_add.
  destruct (find _ q) eqn:Fq; cbn [snd]; [now rewrite Fq|].
  intros N. pose proof (find_none _ _ N) as X.
  specialize (X {| job_id := jobId; job_name := name; job_webhookEventId := ev;
                   job_timestamp := t |}).
  simpl in X. rewrite String.eqb_refl in X. discriminate X. apply in_or_app. right. now left.
Qed.

Lemma queue_add_again name ev jobId t q :
  find (fun j => String.eqb (job_id j) jobId) q <> None ->
  snd (orderProcessingQueue_add name ev jobId t q) = q.
Proof.
  unfold orderProcessingQueue_add. destruct (find _ q); [reflexivity|congruence].
Qed.

(** Two deliveries for the same order under different dedup keys are
    both stored, one event each, but share one job: the second delivery
    adds no job, so only the event of the first is ever referenced by
    the queue. *)
Theorem same_order_events_share_one_job rq1 rq2 w shop topic1 topic2 p1 p2 n :
  wellFormed rq1 shop topic1 p1 n ->
  wellFormed rq2 shop topic2 p2 n ->
  dedupKey rq1 n <> dedupKey rq2 n ->
  webhookEvent_findByEventId (dedupKey rq1 n) (store w) = None ->
  webhookEvent_findByEventId (dedupKey rq2 n) (store w) = None ->
  truthy (customerPhone p1) = true ->
  truthy (customerPhone p2) = true ->
  let w1 := snd (action rq1 w) in
  let w2 := snd (action rq2 w1) in
  length (eventsWithKey (dedupKey rq1 n) (store w2)) = 1%nat
  /\ length (eventsWithKey (dedupKey rq2 n) (store w2)) = 1%nat
  /\ queue w2 = queue w1
  /\ fst (action rq2 w1) = {| body := None; status := 200 |}.
Proof.
  intros WF1 WF2 Ne F1 F2 P1 P2 w1 w2.
  destruct (action_accepted rq1 w shop topic1 p1 n WF1 F1 P1) as (d1 & E1 & R1).
  assert (K1 : forall k, eventsWithKey k d1
                 = eventsWithKey k (store w)
                   ++ (if String.eqb (dedupKey rq1 n) k
                       then [{| we_id := webhookKey (webhookSerial (store w));
                                we_shopId := shop; we_topic := "orders/create";
                                we_payload := p1; we_processed := false;
                                we_eventId := dedupKey rq1 n; we_processedAt := None;
                                we_lastError := None; we_errorCount := 0 |}]
                       else [])).
  { intros k. unfold eventsWithKey. rewrite R1, List.filter_app. reflexivity. }
  assert (F2' : webhookEvent_findByEventId (dedupKey rq2 n) d1 = None).
  { apply find_filter_nil. fold (eventsWithKey (dedupKey rq2 n) d1). rewrite K1.
    apply find_filter_nil in F2. unfold webhookEvent_findByEventId in F2.
    unfold eventsWithKey. rewrite F2.
    destruct (String.eqb_spec (dedupKey rq1 n) (dedupKey rq2 n)); [contradiction|reflexivity]. }
  subst w2 w1. rewrite E1. cbn [snd].
  match goal with |- context [action rq2 ?w0] =>
    destruct (action_accepted rq2 w0 shop topic2 p2 n WF2 F2' P2) as (d2 & E2 & R2) end.
  rewrite E2. cbn [fst snd store queue] in *.
  assert (K2 : forall k, length (eventsWithKey k d2)
                 = (length (eventsWithKey k d1)
                    + (if String.eqb (dedupKey rq2 n) k then 1 else 0))%nat).
  { intros k. unfold eventsWithKey. rewrite R2, List.filter_app, length_app. simpl.
    now destruct (String.eqb (dedupKey rq2 n) k). }
  apply find_filter_nil in F1, F2.
  unfold webhookEvent_findByEventId in F1, F2. fold (eventsWithKey (dedupKey rq1 n) (store w)) in F1.
  fold (eventsWithKey (dedupKey rq2 n) (store w)) in F2.
  repeat split.
  - rewrite K2, K1, F1, String.eqb_refl.
    destruct (String.eqb_spec (dedupKey rq2 n) (dedupKey rq1 n)); [congruence|reflexivity].
  - rewrite K2, K1, F2, String.eqb_refl.
    destruct (String.eqb_spec (dedupKey rq1 n) (dedupKey rq2 n)); [congruence|reflexivity].
  - apply queue_add_again, queue_add_present.
Qed.

End IntakeMore.

(** ** The further theorems at the sample data *)

Section MoreScenarios.

Import TokenMinting DigitalIdService DigitalIdItem Intake Worker WorkerSteps.
Import Samples MoreSamples.

Lemma wellKeyed_empty items : wellKeyed (db (world0 items)).
Proof. intros n _ []. Defined.

(** The configured sample environment. *)
Lemma ensureEnv_normalizes_witness :
  ensureEnv envConfigured = inr mintEnvConfigured
  /\ exists pk, privateKey mintEnvConfigured = "0x" +:+ pk /\ isHex64 pk = true.
Proof.
  split; [reflexivity|].
  destruct (ensureEnv_normalizes envConfigured mintEnvConfigured eq_refl)
    as (pk & E & H & _).
  exists pk. split; assumption.
Defined.

(** The sample key, spelled with the prefix. *)
Lemma ensureEnv_accepts_both_forms_witness :
  isHex64 hexKey = true
  /\ ensureEnv envConfigured
     = inr {| clientId := "client"; privateKey := "0x" +:+ hexKey;
              appBaseUrl := "https://app.example/" |}.
Proof.
  split; [reflexivity|].
  apply (ensureEnv_accepts_both_forms envConfigured hexKey "client" "https://app.example/");
    try reflexivity; try discriminate.
  right. reflexivity.
Defined.

(** The sample base URL without its slash. *)
Lemma metadataUrl_drops_one_slash_witness :
  (forall r, "https://app.example" <> r +:+ "/")
  /\ metadataUrl "https://app.example" "udi_0"
     = "https://app.example/api/token-metadata/udi_0"
  /\ metadataUrl "https://app.example/" "udi_0"
     = "https://app.example/api/token-metadata/udi_0"
  /\ metadataUrl "https://app.example//" "udi_0"
     = "https://app.example//api/token-metadata/udi_0".
Proof.
  assert (H : forall r, "https://app.example" <> r +:+ "/").
  { intros r E. pose proof (f_equal dropTrailingSlash E) as D.
    rewrite dropTrailingSlash_app in D. subst r. discriminate E. }
  split; [exact H|].
  exact (metadataUrl_drops_one_slash "https://app.example" "udi_0" H).
Defined.

(** The identity issued without a wallet, minted with a working chain. *)
Lemma mint_without_wallet_witness :
  uniqueDigitalId_findUnique "udi_0" (db worldNoWallet) = Some issuedRowNoWallet
  /\ truthy (udi_privyWalletAddress issuedRowNoWallet) = false
  /\ trace (snd (mintDigitalIdOnBase (external envConfigured alwaysMints) "udi_0" worldNoWallet))
     = trace worldNoWallet ++ [EvUdiStatus "udi_0" MINT_FAILED].
Proof.
  split; [reflexivity|]. split; [reflexivity|].
  exact (proj1 (proj2 (proj2
    (mint_without_wallet (external envConfigured alwaysMints) "udi_0" worldNoWallet
       issuedRowNoWallet eq_refl eq_refl)))).
Defined.

(** An id that was never issued. *)
Lemma mint_unknown_identity_witness :
  uniqueDigitalId_findUnique "udi_9" (db worldIssued) = None
  /\ snd (mintDigitalIdOnBase (external envConfigured alwaysMints) "udi_9" worldIssued)
     = worldIssued.
Proof.
  split; [reflexivity|].
  exact (proj1 (mint_unknown_identity (external envConfigured alwaysMints) "udi_9"
                  worldIssued eq_refl)).
Defined.

(** The issued identity, minted on a contract without [mintTo]. *)
Lemma mint_result_matches_store_witness :
  uniqueDigitalId_findUnique "udi_0" (db worldIssued) = Some issuedRow
  /\ if success (fst (mintDigitalIdOnBase (external envConfigured safeMintOnly)
                        "udi_0" worldIssued))
     then exists tx address,
         mr_transactionHash (fst (mintDigitalIdOnBase (external envConfigured safeMintOnly)
                                    "udi_0" worldIssued)) = Some tx
         /\ mr_error (fst (mintDigitalIdOnBase (external envConfigured safeMintOnly)
                             "udi_0" worldIssued)) = None
         /\ uniqueDigitalId_findUnique "udi_0"
              (db (snd (mintDigitalIdOnBase (external envConfigured safeMintOnly)
                          "udi_0" worldIssued)))
            = Some (markMinted (external envConfigured safeMintOnly) tx address issuedRow)
     else
       mr_transactionHash (fst (mintDigitalIdOnBase (external envConfigured safeMintOnly)
                                  "udi_0" worldIssued)) = None
       /\ uniqueDigitalId_findUnique "udi_0"
            (db (snd (mintDigitalIdOnBase (external envConfigured safeMintOnly)
                        "udi_0" worldIssued)))
          = Some (setStatus MINT_FAILED issuedRow).
Proof.
  split; [reflexivity|].
  exact (mint_result_matches_store (external envConfigured safeMintOnly) "udi_0"
           worldIssued issuedRow eq_refl).
Defined.


(** The module of the minting service cannot be loaded. *)
Lemma import_failure_stays_pending_witness :
  uniqueDigitalId_findUnique "udi_0" (db worldIssued) <> None
  /\ exists w',
       queueTokenMinting externalImportFails "udi_0" worldIssued = inr w'
       /\ statusOf "udi_0" (db w') = Some MINT_PENDING
       /\ trace w' = trace worldIssued
                     ++ [EvUdiStatus "udi_0" MINT_PENDING;
                         EvImport (Some (ErrorObj "Cannot find module"))].
Proof.
  assert (H : uniqueDigitalId_findUnique "udi_0" (db worldIssued) <> None) by discriminate.
  split; [exact H|].
  exact (import_failure_stays_pending externalImportFails "udi_0" worldIssued
           (ErrorObj "Cannot find module") H eq_refl eq_refl eq_refl eq_refl).
Defined.

(** Line item 7 of quantity 3 when its second unit is already issued. *)
Lemma taken_unit_fails_whole_line_item_witness :
  resolvedVariant shop itemA (db worldUnit2Taken) = Some variantV
  /\ In (uniqueLineItemId itemA 1) (keysOf (db worldUnit2Taken))
  /\ exists rows w',
       processLineItem (external envConfigured alwaysMints) (argsFor [itemA] None)
         (emptyResults, worldUnit2Taken) itemA
       = ({| created := 0 + 1; failed := 0 + li_quantity itemA;
             digitalIds := [] ++ rows |}, w')
       /\ Z.of_nat (length rows) = 1
       /\ keysOf (db w') = keysOf (db worldUnit2Taken) ++ map udi_shopifyLineItemId rows.
Proof.
  assert (T : In (uniqueLineItemId itemA 1) (keysOf (db worldUnit2Taken)))
    by (left; reflexivity).
  split; [reflexivity|]. split; [exact T|].
  apply (taken_unit_fails_whole_line_item (external envConfigured alwaysMints)
           (argsFor [itemA] None) itemA variantV emptyResults worldUnit2Taken 1 eq_refl).
  - simpl. lia.
  - intros i Hi. assert (i = 0) as -> by lia. intros [E|[]]. discriminate E.
  - exact T.
Defined.

(** The sample order issued without a wallet, minting configured. *)
Lemma batch_without_wallet_never_calls_chain_witness :
  wellKeyed (db (world0 []))
  /\ truthy (privyWalletAddress (argsFor [itemA; itemB] None)) = false
  /\ Forall (fun l => resolvedVariant shop l (db (world0 [])) <> None) [itemA; itemB]
  /\ NoDup (keysOf (db (world0 [])) ++ flat_map lineItemKeys [itemA; itemB])
  /\ chainCalls (trace (snd (createDigitalIdsForOrder (external envConfigured alwaysMints)
                               (argsFor [itemA; itemB] None) (world0 []))))
     = chainCalls (trace (world0 []))
  /\ created (fst (createDigitalIdsForOrder (external envConfigured alwaysMints)
                     (argsFor [itemA; itemB] None) (world0 []))) = 4
  /\ failed (fst (createDigitalIdsForOrder (external envConfigured alwaysMints)
                    (argsFor [itemA; itemB] None) (world0 []))) = 0
  /\ map udi_shopifyLineItemId
       (digitalIds (fst (createDigitalIdsForOrder (external envConfigured alwaysMints)
                           (argsFor [itemA; itemB] None) (world0 []))))
     = ["gid://shopify/LineItem/7:1"; "gid://shopify/LineItem/7:2";
        "gid://shopify/LineItem/7:3"; "gid://shopify/LineItem/8"].
Proof.
  assert (R : Forall (fun l => resolvedVariant shop l (db (world0 [])) <> None)
                [itemA; itemB]).
  { apply Forall_cons. split; [discriminate|].
    apply Forall_cons. split; [discriminate|]. constructor. }
  assert (N : NoDup (keysOf (db (world0 [])) ++ flat_map lineItemKeys [itemA; itemB])).
  { apply (bool_decide_unpack _). vm_compute. exact I. }
  split; [apply wellKeyed_empty|]. split; [reflexivity|].
  split; [exact R|]. split; [exact N|].
  destruct (batch_without_wallet_never_calls_chain (external envConfigured alwaysMints)
              (argsFor [itemA; itemB] None) (world0 [])
              (wellKeyed_empty []) eq_refl) as (C & _ & Issued).
  destruct (Issued R N) as (Cr & Fa & Ks & _).
  split; [exact C|]. split; [exact Cr|]. split; [exact Fa|exact Ks].
Defined.

(** The single-item call repeated. *)
Lemma single_item_issuance_idempotent_witness :
  createDigitalIdForOrderItem (external envUnconfigured alwaysReverts) unit2Args (world0 [])
  = (inr unit2Row, worldUnit2Taken)
  /\ exists again,
       createDigitalIdForOrderItem (external envConfigured alwaysMints) unit2Args
         worldUnit2Taken = (inr again, worldUnit2Taken)
       /\ udi_id again = udi_id unit2Row
       /\ udi_shopifyLineItemId again = udi_shopifyLineItemId unit2Row.
Proof.
  split; [reflexivity|].
  exact (single_item_issuance_idempotent (external envUnconfigured alwaysReverts)
           (external envConfigured alwaysMints) unit2Args (world0 []) unit2Row
           worldUnit2Taken eq_refl).
Defined.

(** The single-item call with minting configured and a working chain. *)
Lemma single_item_never_reaches_chain_witness :
  wellKeyed (db (world0 []))
  /\ chainCalls (trace (snd (createDigitalIdForOrderItem (external envConfigured alwaysMints)
                               unit2Args (world0 []))))
     = chainCalls (trace (world0 [])).
Proof.
  split; [apply wellKeyed_empty|].
  exact (proj1 (single_item_never_reaches_chain (external envConfigured alwaysMints)
                  unit2Args (world0 []) (wellKeyed_empty []))).
Defined.

(** Wallet provisioning that succeeds. *)
Lemma provisionWallet_outcomes_witness :
  orders3fa_find (o3_id order1) (db (world0 [])) <> None
  /\ truthy (Some "+15550100") = true
  /\ fst (provisionWallet privyWorks (Some user1) (Some "+15550100") (Some order1) (world0 []))
     = inr (Some wallet1, Some "did:privy:1")
  /\ option_map o3_status
       (orders3fa_find (o3_id order1)
          (db (snd (provisionWallet privyWorks (Some user1) (Some "+15550100")
                      (Some order1) (world0 [])))))
     = Some WALLET_PROVISIONED.
Proof.
  assert (H : orders3fa_find (o3_id order1) (db (world0 [])) <> None) by discriminate.
  split; [exact H|]. split; [reflexivity|].
  exact (proj2 (proj2 (provisionWallet_outcomes privyWorks user1 order1 (Some "+15550100")
                         (world0 []) H eq_refl))).
Defined.


(** The wallet service answers without success; minting is configured. *)
Lemma failed_wallet_still_issues_witness :
  wellKeyed (db (world0 [itemA; itemB]))
  /\ orders3fa_find (o3_id order1) (db (world0 [itemA; itemB])) <> None
  /\ Forall (fun l => resolvedVariant shop l (db (world0 [itemA; itemB])) <> None)
            (shopifyLineItem_findMany "ord_1" (db (world0 [itemA; itemB])))
  /\ NoDup (keysOf (db (world0 [itemA; itemB]))
            ++ flat_map lineItemKeys
                 (shopifyLineItem_findMany "ord_1" (db (world0 [itemA; itemB]))))
  /\ exists w1 w2,
       provisionWallet privyFails (Some user1) (Some "+15550100") (Some order1)
         (world0 [itemA; itemB]) = (inr (None, None), w1)
       /\ createDigitalIdsStep (digitalIdService (external envConfigured alwaysMints))
            (Some user1) (Some order1) (Some {| odb_id := "ord_1" |})
            shop "1001" None None w1 = inr w2
       /\ chainCalls (trace w2) = []
       /\ keysOf (db w2)
          = ["gid://shopify/LineItem/7:1"; "gid://shopify/LineItem/7:2";
             "gid://shopify/LineItem/7:3"; "gid://shopify/LineItem/8"]
       /\ option_map o3_status (orders3fa_find (o3_id order1) (db w2)) = Some COMPLETED.
Proof.
  assert (H : orders3fa_find (o3_id order1) (db (world0 [itemA; itemB])) <> None)
    by discriminate.
  assert (R : Forall (fun l => resolvedVariant shop l (db (world0 [itemA; itemB])) <> None)
                (shopifyLineItem_findMany "ord_1" (db (world0 [itemA; itemB])))).
  { apply Forall_cons. split; [discriminate|].
    apply Forall_cons. split; [discriminate|]. constructor. }
  assert (N : NoDup (keysOf (db (world0 [itemA; itemB]))
                     ++ flat_map lineItemKeys
                          (shopifyLineItem_findMany "ord_1" (db (world0 [itemA; itemB]))))).
  { apply (bool_decide_unpack _). vm_compute. exact I. }
  split; [apply wellKeyed_empty|]. split; [exact H|]. split; [exact R|]. split; [exact N|].
  destruct (failed_wallet_still_issues (external envConfigured alwaysMints) privyFails
              user1 order1 {| odb_id := "ord_1" |} shop "1001" (Some "+15550100")
              (world0 [itemA; itemB]) _ (wellKeyed_empty _) H eq_refl eq_refl eq_refl)
    as (w1 & w2 & P & S & C & Issued).
  destruct (Issued R N) as (_ & _ & _ & _ & Ks & St).
  exists w1, w2. split; [exact P|]. split; [exact S|]. split; [exact C|].
  split; [exact Ks|exact St].
Defined.

(** Twilio set up and accepting the message. *)
Lemma sendSms_outcomes_witness :
  orders3fa_find (o3_id order1) (db (world0 [])) <> None
  /\ truthy (Some "+15550100") = true
  /\ fst (fst (sendSms (Some twilioAccepts) (Some "+15550199") 1700000000000
                 "Alliance" "items" (Some order1) (Some "+15550100") (world0 []))) = None.
Proof.
  assert (H : orders3fa_find (o3_id order1) (db (world0 [])) <> None) by discriminate.
  split; [exact H|]. split; [reflexivity|].
  exact (proj1 (sendSms_outcomes (Some twilioAccepts) (Some "+15550199") 1700000000000
                  "Alliance" "items" order1 (Some "+15550100") (world0 []) H eq_refl)).
Defined.

(** The event stored by the first sample delivery. *)
Lemma final_failure_then_success_witness :
  find (fun e0 => String.eqb (we_id e0) "whe_0")
       (webhookEvents (store (snd (action requestWithPhone intake0)))) = Some storedEvent
  /\ exists e1,
       find (fun e0 => String.eqb (we_id e0) "whe_0")
            (webhookEvents (onFailed (Some ("whe_0", 3)) "payload malformed"
                              (store (snd (action requestWithPhone intake0))))) = Some e1
       /\ we_processed e1 = false.
Proof.
  split; [reflexivity|].
  destruct (final_failure_then_success 1700000000000 "whe_0" 3 "payload malformed"
              (store (snd (action requestWithPhone intake0))) storedEvent eq_refl)
    as (e1 & F & P & _).
  exists e1. split; assumption.
Defined.

(** The first sample delivery changes the world. *)
Lemma only_well_formed_requests_are_stored_witness :
  snd (action requestWithPhone intake0) <> intake0
  /\ exists shop topic payload n, wellFormed requestWithPhone shop topic payload n.
Proof.
  assert (H : snd (action requestWithPhone intake0) <> intake0).
  { intros E. apply (f_equal (fun w => length (queue w))) in E. discriminate E. }
  split; [exact H|].
  exact (only_well_formed_requests_are_stored requestWithPhone intake0 H).
Defined.

Lemma wellFormed_sample header topic :
  underscoresToSlashes (toLowerCase topic) = "orders/create" ->
  topic <> "" ->
  wellFormed (requestFor header topic (payloadWith (Some "+15550100") None None None))
    shop topic (payloadWith (Some "+15550100") None None None) 1001.
Proof. intros T Ht. repeat split; try assumption. discriminate. Defined.

(** The first sample delivery on the empty queue. *)
Lemma accepted_event_is_queued_witness :
  safeInteger 1001
  /\ wellFormed requestWithPhone shop "orders/create"
       (payloadWith (Some "+15550100") None None None) 1001
  /\ map job_id (queue (snd (action requestWithPhone intake0)))
     = ["order-demo.myshopify.com-1001"].
Proof.
  assert (SI : safeInteger 1001) by (split; reflexivity).
  assert (WF : wellFormed requestWithPhone shop "orders/create"
                 (payloadWith (Some "+15550100") None None None) 1001).
  { apply wellFormed_sample; [reflexivity|discriminate]. }
  split; [exact SI|]. split; [exact WF|].
  destruct (accepted_event_is_queued requestWithPhone intake0 _ _ _ _ SI WF
              eq_refl eq_refl eq_refl) as (e & _ & _ & _ & _ & _ & Q).
  rewrite Q. reflexivity.
Defined.

(** The sample order delivered twice, as [evt-1] and as [evt-3]. *)
Lemma same_order_events_share_one_job_witness :
  dedupKey requestWithPhone 1001 <> dedupKey requestRedelivered 1001
  /\ queue (snd (action requestRedelivered (snd (action requestWithPhone intake0))))
     = queue (snd (action requestWithPhone intake0))
  /\ length (webhookEvents
               (store (snd (action requestRedelivered
                              (snd (action requestWithPhone intake0)))))) = 2%nat.
Proof.
  assert (Ne : dedupKey requestWithPhone 1001 <> dedupKey requestRedelivered 1001)
    by discriminate.
  split; [exact Ne|]. split; [|reflexivity].
  exact (proj1 (proj2 (proj2
    (same_order_events_share_one_job requestWithPhone requestRedelivered intake0
       shop "orders/create" "ORDERS_CREATE" _ _ 1001
       (wellFormed_sample (Some "evt-1") "orders/create" eq_refl ltac:(discriminate))
       (wellFormed_sample (Some "evt-3") "ORDERS_CREATE" eq_refl ltac:(discriminate))
       Ne eq_refl eq_refl eq_refl eq_refl)))).
Defined.

End MoreScenarios.
